(** * QuantumEncoder: the encoding engine, classification and library index

    A shallow embedding of the numeric core of [app.py]: the Kryon-33
    letter code, the Russian number speller, [calc_l2c_from_l1], [metrics],
    [cluster_by_w], [fractal_unfold], [fii_bar], [analyze_word],
    [force_recalc_row], [soft_dedup] and [rebuild_indexes].

    Conventions of the embedding.
    - A Python [str] is the list of its code points ([pystr]).
    - A Python [int] is a [Z].
    - A Python [float] is read as an exact number: a rational ([Q]) where
      the code only divides integers and compares, a real ([R]) where it
      goes through [math.cos] and [math.exp].  Rounding and overflow of
      binary floating point are outside this model.
    - A raised exception is the [Raise] case of [result]; the global
      [APP_CFG] is passed explicitly as a [Config]; the global indexes are
      an explicit [IndexState]. *)

From Stdlib Require Import ZArith NArith QArith Qabs Qminmax Reals Lra Lia List String Ascii.
From Stdlib Require Lqa.
From stdpp Require Import base option list gmap.

Open Scope Z_scope.

(* ================================================================== *)
(** * Exceptions as results *)

Inductive exn : Type :=
| ZeroDivisionError
| IndexError
| ValueError
| OverflowError
| TypeError
| KeyError.

Inductive result (A : Type) : Type :=
| Ok (a : A)
| Raise (e : exn).

Arguments Ok {A} a.
Arguments Raise {A} e.

Definition rbind {A B : Type} (m : result A) (k : A -> result B) : result B :=
  match m with
  | Ok a => k a
  | Raise e => Raise e
  end.

Notation "x <-? m ;; k" := (rbind m (fun x => k))
  (at level 100, m at next level, right associativity).

(* ================================================================== *)
(** * Python strings as code point lists *)

Abbreviation pystr := (list N).

(** Reading a source literal: the UTF-8 bytes of a Rocq string literal are
    decoded to code points (one to four bytes per code point). *)
Fixpoint utf8_decode (bs : list N) : pystr :=
  match bs with
  | [] => []
  | b0 :: r0 =>
    if (b0 <? 0x80)%N then b0 :: utf8_decode r0
    else
      match r0 with
      | [] => []
      | b1 :: r1 =>
        if (b0 <? 0xE0)%N then ((b0 - 0xC0) * 64 + (b1 - 0x80))%N :: utf8_decode r1
        else
          match r1 with
          | [] => []
          | b2 :: r2 =>
            if (b0 <? 0xF0)%N
            then (((b0 - 0xE0) * 64 + (b1 - 0x80)) * 64 + (b2 - 0x80))%N :: utf8_decode r2
            else
              match r2 with
              | [] => []
              | b3 :: r3 =>
                ((((b0 - 0xF0) * 64 + (b1 - 0x80)) * 64 + (b2 - 0x80)) * 64
                 + (b3 - 0x80))%N :: utf8_decode r3
              end
          end
      end
  end.

Definition U (s : string) : pystr :=
  utf8_decode (map N_of_ascii (list_ascii_of_string s)).

(** [str.isspace] of one code point: the white space that [str.strip] and
    the regular expression class [\s] remove. *)
Definition is_space (c : N) : bool :=
  ((0x09 <=? c) && (c <=? 0x0D) || (0x1C <=? c) && (c <=? 0x20)
   || (c =? 0x85) || (c =? 0xA0) || (c =? 0x1680)
   || (0x2000 <=? c) && (c <=? 0x200A)
   || (c =? 0x2028) || (c =? 0x2029) || (c =? 0x202F) || (c =? 0x205F)
   || (c =? 0x3000))%N.

(** [str.upper] on one code point.  Covered: Basic Latin, the Cyrillic
    small letters U+0430..U+045F, and the Cyrillic Extended-C small letters
    U+1C80..U+1C86 whose capital is a basic Russian capital.  Any other code
    point is left as it is; none of them has a capital in [А-ЯЁ]. *)
Definition upper_cp (c : N) : N :=
  (if (0x61 <=? c) && (c <=? 0x7A) then c - 0x20
   else if (0x430 <=? c) && (c <=? 0x44F) then c - 0x20
   else if (0x450 <=? c) && (c <=? 0x45F) then c - 0x50
   else if c =? 0x1C80 then 0x412
   else if c =? 0x1C81 then 0x414
   else if c =? 0x1C82 then 0x41E
   else if c =? 0x1C83 then 0x421
   else if (c =? 0x1C84) || (c =? 0x1C85) then 0x422
   else if c =? 0x1C86 then 0x42A
   else c)%N.

Definition upper (s : pystr) : pystr := map upper_cp s.

(** [str.lower] on one code point, for Basic Latin and the Cyrillic
    capitals U+0400..U+042F; other code points are left as they are (none
    of them lowers to a letter of the words [parse_bool] accepts). *)
Definition lower_cp (c : N) : N :=
  (if (0x41 <=? c) && (c <=? 0x5A) then c + 0x20
   else if (0x410 <=? c) && (c <=? 0x42F) then c + 0x20
   else if (0x400 <=? c) && (c <=? 0x40F) then c + 0x50
   else c)%N.

Definition lower (s : pystr) : pystr := map lower_cp s.

Fixpoint lstrip (s : pystr) : pystr :=
  match s with
  | [] => []
  | c :: r => if is_space c then lstrip r else s
  end.

(** [str.strip()] *)
Definition strip (s : pystr) : pystr := rev (lstrip (rev (lstrip s))).

(** [sep.join(parts)] *)
Fixpoint join (sep : pystr) (parts : list pystr) : pystr :=
  match parts with
  | [] => []
  | [p] => p
  | p :: ps => p ++ sep ++ join sep ps
  end.

(** [l[i]], with Python's negative indices and [IndexError] *)
Definition getitem {A : Type} (l : list A) (i : Z) : result A :=
  let n := Z.of_nat (length l) in
  let j := if i <? 0 then i + n else i in
  if (0 <=? j) && (j <? n) then
    match l !! Z.to_nat j with
    | Some x => Ok x
    | None => Raise IndexError
    end
  else Raise IndexError.

(* ================================================================== *)
(** * Kryon-33 *)

Definition ch (s : string) : N := List.hd 0%N (U s).

Definition KRYON_MAP : gmap N Z :=
  list_to_map
    [(ch "А",1);(ch "Б",2);(ch "В",3);(ch "Г",4);(ch "Д",5);(ch "Е",6);(ch "Ё",7);
     (ch "Ж",8);(ch "З",9);(ch "И",10);(ch "Й",11);
     (ch "К",12);(ch "Л",13);(ch "М",14);(ch "Н",15);(ch "О",16);(ch "П",17);
     (ch "Р",18);(ch "С",19);(ch "Т",20);(ch "У",21);
     (ch "Ф",22);(ch "Х",23);(ch "Ц",24);(ch "Ч",25);(ch "Ш",26);(ch "Щ",27);
     (ch "Ь",28);(ch "Ы",29);(ch "Ъ",30);(ch "Э",31);(ch "Ю",32);(ch "Я",33)].

(** [KRYON_MAP.get(ch, 0)] *)
Definition kryon (c : N) : Z := default 0 (KRYON_MAP !! c).

(** [sum(KRYON_MAP.get(ch, 0) for ch in s)] *)
Definition kryon_sum (s : pystr) : Z := fold_right (fun c acc => kryon c + acc) 0 s.

Definition HUNDS : list pystr :=
  map U [""; "СТО"; "ДВЕСТИ"; "ТРИСТА"; "ЧЕТЫРЕСТА"; "ПЯТЬСОТ"; "ШЕСТЬСОТ";
         "СЕМЬСОТ"; "ВОСЕМЬСОТ"; "ДЕВЯТЬСОТ"]%string.
Definition TENS : list pystr :=
  map U [""; "ДЕСЯТЬ"; "ДВАДЦАТЬ"; "ТРИДЦАТЬ"; "СОРОК"; "ПЯТЬДЕСЯТ"; "ШЕСТЬДЕСЯТ";
         "СЕМЬДЕСЯТ"; "ВОСЕМЬДЕСЯТ"; "ДЕВЯНОСТО"]%string.
Definition UNITS : list pystr :=
  map U [""; "ОДИН"; "ДВА"; "ТРИ"; "ЧЕТЫРЕ"; "ПЯТЬ"; "ШЕСТЬ"; "СЕМЬ"; "ВОСЕМЬ";
         "ДЕВЯТЬ"]%string.
Definition UNITS_FEM : list pystr :=
  map U [""; "ОДНА"; "ДВЕ"; "ТРИ"; "ЧЕТЫРЕ"; "ПЯТЬ"; "ШЕСТЬ"; "СЕМЬ"; "ВОСЕМЬ";
         "ДЕВЯТЬ"]%string.
Definition TEENS : list pystr :=
  map U ["ДЕСЯТЬ"; "ОДИННАДЦАТЬ"; "ДВЕНАДЦАТЬ"; "ТРИНАДЦАТЬ"; "ЧЕТЫРНАДЦАТЬ";
         "ПЯТНАДЦАТЬ"; "ШЕСТНАДЦАТЬ"; "СЕМНАДЦАТЬ"; "ВОСЕМНАДЦАТЬ";
         "ДЕВЯТНАДЦАТЬ"]%string.

(** The class [[А-ЯЁ]] of the regular expression in [normalize]: the range
    U+0410..U+042F and U+0401. *)
Definition is_kryon_letter (c : N) : bool :=
  ((ch "А" <=? c) && (c <=? ch "Я") || (c =? ch "Ё"))%N.

(** [normalize(t)]: [re.sub(r"[^А-ЯЁ]", "", (t or "").upper())] *)
Definition normalize (t : pystr) : pystr :=
  List.filter is_kryon_letter (upper t).

(** [_number_to_words_0_999(n, feminine)] *)
Definition _number_to_words_0_999 (n : Z) (feminine : bool) : result pystr :=
  if n =? 0 then Ok (U "НОЛЬ")
  else
    let units_arr := if feminine then UNITS_FEM else UNITS in
    let h := n / 100 in
    let t := (n mod 100) / 10 in
    let u := n mod 10 in
    let out : list pystr := [] in
    out <-? (if negb (h =? 0)
             then x <-? getitem HUNDS h ;; Ok (out ++ [x])
             else Ok out) ;;
    out <-? (if t =? 1
             then x <-? getitem TEENS u ;; Ok (out ++ [x])
             else
               out <-? (if negb (t =? 0)
                        then x <-? getitem TENS t ;; Ok (out ++ [x])
                        else Ok out) ;;
               (if negb (u =? 0)
                then x <-? getitem units_arr u ;; Ok (out ++ [x])
                else Ok out)) ;;
    Ok (join (U " ") out).

(** [number_to_words_ru_0_999999(n)] *)
Definition number_to_words_ru_0_999999 (n : Z) : result pystr :=
  if n =? 0 then Ok (U "НОЛЬ")
  else if n <? 1000 then _number_to_words_0_999 n false
  else
    let T := n / 1000 in
    let R := n mod 1000 in
    let T_mod_100 := T mod 100 in
    let T_mod_10 := T mod 10 in
    let thousand_word :=
      if (T_mod_100 =? 11) || (T_mod_100 =? 12) || (T_mod_100 =? 13) || (T_mod_100 =? 14)
      then U "ТЫСЯЧ"
      else if T_mod_10 =? 1 then U "ТЫСЯЧА"
      else if (T_mod_10 =? 2) || (T_mod_10 =? 3) || (T_mod_10 =? 4) then U "ТЫСЯЧИ"
      else U "ТЫСЯЧ" in
    thousands_str <-? _number_to_words_0_999 T true ;;
    let parts := [thousands_str; thousand_word] in
    parts <-? (if 0 <? R
               then rest_str <-? _number_to_words_0_999 R false ;; Ok (parts ++ [rest_str])
               else Ok parts) ;;
    Ok (join (U " ") parts).

(** [re.sub(r"[\s\t\n\r\-]+", "", words)]: every white space character and
    every hyphen is removed. *)
Definition strip_spaces_hyphens (s : pystr) : pystr :=
  List.filter (fun c => negb (is_space c || (c =? 0x2D)%N)) s.

(** [calc_l2c_from_l1(l1)] returns [(l2c, words, glued, out_of_range)]. *)
Definition calc_l2c_from_l1 (l1 : Z)
  : result (option Z * option pystr * option pystr * bool) :=
  if (l1 <? 0) || (999999 <? l1) then Ok (None, None, None, true)
  else
    words <-? number_to_words_ru_0_999999 l1 ;;
    let glued := strip_spaces_hyphens words in
    let glued := normalize glued in
    let l2c := kryon_sum glued in
    Ok (Some l2c, Some words, Some glued, false).

(** [calc_l1_from_string(s)] returns [(w, code)], or [(None, 0)] when no
    letter is left. *)
Definition calc_l1_from_string (s : pystr) : option pystr * Z :=
  let w := normalize s in
  match w with
  | [] => (None, 0)
  | _ => (Some w, kryon_sum w)
  end.


(* ================================================================== *)
(** * Configuration *)

(** The two numeric options of [APP_CFG] that the core reads. *)
Record Config : Type := {
  sigma_Z : Q;
  resonator_threshold : Q
}.

Definition DEFAULT_CONFIG : Config :=
  {| sigma_Z := 0.80; resonator_threshold := 0.75 |}.

(* ================================================================== *)
(** * Metrics *)

Definition Qlt_bool (x y : Q) : bool := negb (Qle_bool y x).

(** [min(...)] over a sequence given by its first element and the rest *)
Definition Qmin_seq (x : Q) (rest : list Q) : Q := fold_left Qmin rest x.

(** [targets = [1, 1.25, 1.33, 1.5, 2, 3]], as first element and rest *)
Definition targets_hd : Q := 1.
Definition targets_tl : list Q := [1.25; 1.33; 1.5; 2; 3]%Q.

(** [metrics(l1, l2c)] returns [(w, C, Hm, Z)].  The three divisions raise
    [ZeroDivisionError] on a zero divisor, as in Python. *)
Definition metrics (cfg : Config) (l1 l2c : Z) : result (Q * R * Q * R) :=
  if l1 =? 0 then Raise ZeroDivisionError
  else
    let w := (inject_Z l2c / inject_Z l1)%Q in
    if l2c + l1 =? 0 then Raise ZeroDivisionError
    else
      let ratio := (inject_Z (Z.abs (l2c - l1)) / inject_Z (l2c + l1))%Q in
      let C := ((cos (PI / 2 * Q2R ratio)) ^ 2)%R in
      let dist := fun t : Q => (Qabs (w - t) / t)%Q in
      let Hm_raw := (1 - Qmin_seq (dist targets_hd) (map dist targets_tl))%Q in
      let Hm := Qmax 0 (Qmin 1 Hm_raw) in
      let sigma := sigma_Z cfg in
      if Qeq_bool sigma 0 then Raise ZeroDivisionError
      else
        let Z_raw := ((C * Q2R Hm) * exp (- (Q2R ((w - 2) / sigma)) ^ 2))%R in
        let Z := Rmax 0 (Rmin 1 Z_raw) in
        Ok (w, C, Hm, Z).

(* ================================================================== *)
(** * Classification *)

(** [cluster_by_w(w)] returns [(code, label)]. *)
Definition cluster_by_w (w : Q) : pystr * pystr :=
  if Qle_bool 1.0 w && Qlt_bool w 1.6 then (U "phi", U "φ-ядро")
  else if Qle_bool 1.6 w && Qlt_bool w 2.7 then (U "e", U "e")
  else if Qle_bool 2.7 w && Qlt_bool w 3.2 then (U "e-pi", U "e–π")
  else (U "pi", U "π").

(** [clusters_from_w(w)], the five-bin variant of the quality summary *)
Definition clusters_from_w (w : Q) : pystr :=
  if Qle_bool 1.214 w && Qle_bool w 1.614 then U "rt2"
  else if Qle_bool 1.0 w && Qlt_bool w 1.6 then U "phi"
  else if Qle_bool 1.6 w && Qlt_bool w 2.7 then U "e"
  else if Qle_bool 2.7 w && Qlt_bool w 3.2 then U "e-pi"
  else if Qle_bool 3.2 w then U "pi"
  else U "phi".

Definition CLUSTER_ADVICES : gmap pystr (pystr * pystr) :=
  list_to_map
    [(U "phi", (U "φ-ядро", U "Гармония и стабильность. Совет: добавить e-слово (движение)."));
     (U "e", (U "e", U "Рост и импульс. Совет: добавить φ-слово (покой)."));
     (U "e-pi", (U "e–π", U "Прорыв, интенсивность. Совет: внести равновесие φ или √2."));
     (U "pi", (U "π", U "Турбулентность. Совет: успокоить через φ и Z."))].

(** [d[k]] on a dict, with [KeyError] *)
Definition dict_getitem {V : Type} (d : gmap pystr V) (k : pystr) : result V :=
  match d !! k with
  | Some v => Ok v
  | None => Raise KeyError
  end.

(* ================================================================== *)
(** * Fractal unfolding *)

(** The [for _ in range(12)] loop of [fractal_unfold], with [n] iterations
    left; the [break] returns the values appended so far. *)
Fixpoint unfold_loop (cfg : Config) (n : nat) (curr_l1 : Z) (w_values : list Q)
  : result (list Q) :=
  match n with
  | O => Ok w_values
  | S n' =>
    r <-? calc_l2c_from_l1 curr_l1 ;;
    match r with
    | (Some l2c, _, _, false) =>
      m <-? metrics cfg curr_l1 l2c ;;
      let '(w, _, _, _) := m in
      unfold_loop cfg n' l2c (w_values ++ [w])
    | _ => Ok w_values
    end
  end.

(** [w_values] as it stands after the loop of [fractal_unfold(l1)] *)
Definition fractal_w_values (cfg : Config) (l1 : Z) : result (list Q) :=
  unfold_loop cfg 12 l1 [].

(** The second loop: one mark per consecutive pair, [true] for [●]. *)
Fixpoint breath_marks (w_values : list Q) : list bool :=
  match w_values with
  | a :: ((b :: _) as rest) => Qlt_bool a b :: breath_marks rest
  | _ => []
  end.

(** A float that may be [float('inf')] *)
Inductive qfloat : Type :=
| QFin (q : Q)
| QInf.

Definition qf_gt (x : qfloat) (q : Q) : bool :=
  match x with QFin v => Qlt_bool q v | QInf => true end.

Definition qf_lt (x : qfloat) (q : Q) : bool :=
  match x with QFin v => Qlt_bool v q | QInf => false end.

(** [fractal_unfold(l1)] returns [(pattern, inhale, exhale, R, interp)]. *)
Definition fractal_unfold (cfg : Config) (l1 : Z)
  : result (pystr * Z * Z * qfloat * pystr) :=
  w_values <-? fractal_w_values cfg l1 ;;
  match w_values with
  | [] => Ok (U "—", 0, 0, QFin 0.0, U "out_of_range")
  | _ =>
    let marks := breath_marks w_values in
    let pattern_chars :=
      map (fun m : bool => if m then ch "●" else ch "○") marks ++ [ch "→"] in
    let inhale := Z.of_nat (length (List.filter (fun m : bool => m) marks)) in
    let exhale := Z.of_nat (length (List.filter negb marks)) in
    let R :=
      if exhale =? 0 then (if 0 <? inhale then QInf else QFin 1.0)
      else QFin (inject_Z inhale / inject_Z exhale) in
    let interp :=
      if qf_gt R 1.05 then U "слово раскрывается"
      else if qf_lt R 0.95 then U "слово стабилизирует поле"
      else U "слово в равновесии" in
    Ok (pattern_chars, inhale, exhale, R, interp)
  end.

(* ================================================================== *)
(** * FII *)

(** Python's [round(x)] to an integer: half goes to the even neighbour. *)
Definition py_round (x : R) : Z :=
  let f := Int_part x in
  let d := (x - IZR f)%R in
  if Rlt_dec d (1 / 2) then f
  else if Rlt_dec (1 / 2) d then f + 1
  else if Z.even f then f else f + 1.

Definition CAT_DESTROYER : pystr :=
  U "🔴 Разрушитель — создаёт напряжение, дестабилизирует поле".
Definition CAT_DISSIPATOR : pystr :=
  U "🟠 Ослабитель — рассеивает энергию, снижает фокус".
Definition CAT_NEUTRAL : pystr :=
  U "⚪ Нейтральное — сбалансированное, не влияет заметно".
Definition CAT_HARMONIZER : pystr :=
  U "🟢 Гармонизатор — усиливает гармонию и согласие".
Definition CAT_RESONATOR : pystr :=
  U "🔵 Резонатор — максимально усиливает поле, световой пик".

(** [fii_bar(fii)] returns [(bar, cat)]. *)
Definition fii_bar (fii : R) : pystr * pystr :=
  let segments := Z.max 0 (Z.min 10 (py_round ((fii + 10) / 2))) in
  let bar :=
    repeat (ch "▰") (Z.to_nat segments) ++ repeat (ch "▱") (Z.to_nat (10 - segments)) in
  let cat :=
    if Rle_dec fii (-6) then CAT_DESTROYER
    else if Rle_dec fii (-2) then CAT_DISSIPATOR
    else if Rlt_dec fii 2 then CAT_NEUTRAL
    else if Rlt_dec fii 6 then CAT_HARMONIZER
    else CAT_RESONATOR in
  (bar, cat).

(** The two composite scores computed in [analyze_word] *)
Definition q_total_of (Z C Hm : R) : R := ((Z + C + Hm) / 3.0)%R.

Definition fii_of (Z C Hm : R) : R :=
  (10 * (0.4 * Z + 0.3 * q_total_of Z C Hm + 0.2 * C + 0.1 * Hm - 0.5))%R.

(* ================================================================== *)
(** * analyze_word *)

(** The report of [analyze_word].  Left out are the keys that no property
    below reads and whose computation is total: the resonance pair, the
    first-letter impulse, the four [R_*] scores, [resonator_max] and
    [q_bar]. *)
Record Analysis : Type := {
  a_raw : pystr;
  a_phrase_used : pystr;
  a_norm : pystr;
  a_l1 : Z;
  a_l2c : Z;
  a_w : Q;
  a_C : R;
  a_Hm : Q;
  a_Z : R;
  a_q_total : R;
  a_fii : R;
  a_cluster_code : pystr;
  a_cluster_ru : pystr;
  a_cluster_name : pystr;
  a_cluster_advice : pystr;
  a_fractal : pystr * Z * Z * qfloat * pystr;
  a_fii_bar : pystr;
  a_fii_category : pystr
}.

Section AnalyzeWord.

(** The date phraser, first component of [parse_date_phrase]: a total
    function of the input text that no property below depends on. *)
Variable parse_date_phrase : pystr -> option pystr.

(** [src = phrase if phrase else raw_input] *)
Definition phrase_used (raw_input : pystr) : pystr :=
  match parse_date_phrase raw_input with
  | Some (c :: p) => c :: p
  | _ => raw_input
  end.

(** [analyze_word(raw_input)]; [None] is the empty dict. *)
Definition analyze_word (cfg : Config) (raw_input : pystr) : result (option Analysis) :=
  let src := phrase_used raw_input in
  let '(norm, l1) := calc_l1_from_string src in
  if l1 =? 0 then Ok None
  else
    r <-? calc_l2c_from_l1 l1 ;;
    match r with
    | (Some l2c, _, _, false) =>
      m <-? metrics cfg l1 l2c ;;
      let '(w, C, Hm, Z) := m in
      let q_total := q_total_of Z C (Q2R Hm) in
      let fii := fii_of Z C (Q2R Hm) in
      let '(cluster_code, cluster_ru) := cluster_by_w w in
      adv <-? dict_getitem CLUSTER_ADVICES cluster_code ;;
      let '(cluster_name, advice) := adv in
      fr <-? fractal_unfold cfg l1 ;;
      let '(fii_b, fii_cat) := fii_bar fii in
      Ok (Some {| a_raw := raw_input;
                  a_phrase_used := src;
                  a_norm := default [] norm;
                  a_l1 := l1;
                  a_l2c := l2c;
                  a_w := w;
                  a_C := C;
                  a_Hm := Hm;
                  a_Z := Z;
                  a_q_total := q_total;
                  a_fii := fii;
                  a_cluster_code := cluster_code;
                  a_cluster_ru := cluster_ru;
                  a_cluster_name := cluster_name;
                  a_cluster_advice := advice;
                  a_fractal := fr;
                  a_fii_bar := fii_b;
                  a_fii_category := fii_cat |})
    | _ => Ok None
    end.

End AnalyzeWord.

(* ================================================================== *)
(** * Library rows *)

Inductive pyfloat : Type :=
| FFin (x : R)
| FInf (negative : bool)
| FNaN.

(** The values a cell of the library table can hold. *)
Inductive pyval : Type :=
| VNone
| VBool (b : bool)
| VInt (z : Z)
| VFloat (f : pyfloat)
| VStr (s : pystr).

(** One row of the library table, on the columns of [LIB_COLS].  The text
    columns hold a string or a missing value ([None] here, NaN in pandas). *)
Record Row : Type := {
  col_word : option pystr;
  col_sphere : option pystr;
  col_tone : option pystr;
  col_allowed : pyval;
  col_field : option pystr;
  col_role : option pystr;
  col_notes : option pystr;
  col_l1 : pyval;
  col_l2c : pyval;
  col_w : pyval;
  col_C : pyval;
  col_Hm : pyval;
  col_Z : pyval
}.

Definition str_eqb (a b : pystr) : bool := bool_decide (a = b).

(** [parse_bool(x)] *)
Definition parse_bool (x : pyval) : bool :=
  match x with
  | VBool b => b
  | VInt z => negb (z =? 0)
  | VFloat (FFin v) => if Req_dec_T v 0 then false else true
  | VFloat _ => true
  | VNone => false
  | VStr x =>
    let s := lower (strip x) in
    existsb (str_eqb s) [U "true"; U "1"; U "yes"; U "y"; U "да"]
  end.

(** [x or ""] and [(x or "")] on an optional string *)
Definition or_empty (x : option pystr) : pystr := default [] x.

(** [force_recalc_row(word, sphere, tone, allowed, notes, l1, l2c, field, role)] *)
Definition force_recalc_row (cfg : Config) (word sphere tone : pystr) (allowed : pyval)
    (notes : option pystr) (l1 l2c : option Z) (field role : option pystr) : result Row :=
  let l1 := match l1 with
            | None => snd (calc_l1_from_string word)
            | Some v => v
            end in
  l2c <-? (match l2c with
           | Some v => Ok (Some v)
           | None =>
             r <-? calc_l2c_from_l1 l1 ;;
             match r with
             | (Some v, _, _, false) => Ok (Some v)
             | _ => Ok None
             end
           end) ;;
  match l2c with
  | None =>
    Ok {| col_word := Some word;
          col_sphere := Some sphere;
          col_tone := Some tone;
          col_allowed := allowed;
          col_notes := Some (or_empty notes);
          col_l1 := VNone;
          col_l2c := VNone;
          col_w := VNone;
          col_C := VNone;
          col_Hm := VNone;
          col_Z := VNone;
          col_field := Some (or_empty field);
          col_role := Some (or_empty role) |}
  | Some l2c =>
    m <-? metrics cfg l1 l2c ;;
    let '(w, C, Hm, Z) := m in
    let notes_str := match notes with
                     | None => []
                     | Some s => strip s
                     end in
    let notes_str := if str_eqb (lower notes_str) (U "nan") then [] else notes_str in
    Ok {| col_word := Some word;
          col_sphere := Some sphere;
          col_tone := Some tone;
          col_allowed := VBool (parse_bool allowed);
          col_field := Some (strip (or_empty field));
          col_role := Some (strip (or_empty role));
          col_notes := Some notes_str;
          col_l1 := VInt l1;
          col_l2c := VInt l2c;
          col_w := VFloat (FFin (Q2R w));
          col_C := VFloat (FFin C);
          col_Hm := VFloat (FFin (Q2R Hm));
          col_Z := VFloat (FFin Z) |}
  end.

(* ================================================================== *)
(** * soft_dedup *)

Abbreviation key := (pystr * pystr * pystr)%type.

(** The group key of a row; a row with a missing key cell is in no group
    ([groupby] drops it). *)
Definition row_key (r : Row) : option key :=
  match col_word r, col_sphere r, col_tone r with
  | Some w, Some s, Some t => Some (w, s, t)
  | _, _, _ => None
  end.

(** Python's order on strings: lexicographic on code points *)
Fixpoint str_leb (a b : pystr) : bool :=
  match a, b with
  | [], _ => true
  | _ :: _, [] => false
  | x :: a', y :: b' =>
    if (x <? y)%N then true
    else if (y <? x)%N then false
    else str_leb a' b'
  end.

Definition key_leb (k1 k2 : key) : bool :=
  let '(w1, s1, t1) := k1 in
  let '(w2, s2, t2) := k2 in
  if str_eqb w1 w2
  then (if str_eqb s1 s2 then str_leb t1 t2 else str_leb s1 s2)
  else str_leb w1 w2.

(** Insertion of a key into an ascending list of distinct keys *)
Fixpoint insert_key (k : key) (l : list key) : list key :=
  match l with
  | [] => [k]
  | k' :: r =>
    if bool_decide (k = k') then l
    else if key_leb k k' then k :: l
    else k' :: insert_key k r
  end.

(** The distinct keys of the table in ascending order *)
Definition group_keys (df : list Row) : list key :=
  fold_right insert_key [] (omap row_key df).

(** [df.groupby(["word", "sphere", "tone"], as_index=False)], as the loop
    sees it: the groups in ascending key order, each with its rows in
    table order. *)
Definition groupby (df : list Row) : list (key * list Row) :=
  map (fun k => (k, List.filter (fun r => bool_decide (row_key r = Some k)) df))
      (group_keys df).

(** The cell text that [uniq_notes] and [pick_first_nonempty] read:
    [""] for a missing value, the stripped string otherwise. *)
Definition cell_text (x : option pystr) : pystr :=
  match x with
  | None => []
  | Some s => strip s
  end.

(** The loop of [uniq_notes], with the values collected so far *)
Fixpoint uniq_notes_loop (series : list (option pystr)) (out : list pystr) : list pystr :=
  match series with
  | [] => out
  | x :: rest =>
    let s := cell_text x in
    match s with
    | [] => uniq_notes_loop rest out
    | _ => if bool_decide (s ∈ out) then uniq_notes_loop rest out
           else uniq_notes_loop rest (out ++ [s])
    end
  end.

Definition uniq_notes (series : list (option pystr)) (sep : pystr) : pystr :=
  join sep (uniq_notes_loop series []).

Fixpoint pick_first_nonempty (series : list (option pystr)) : pystr :=
  match series with
  | [] => []
  | x :: rest =>
    match cell_text x with
    | [] => pick_first_nonempty rest
    | s => s
    end
  end.

Definition nonempty_or_none (s : pystr) : option pystr :=
  match s with
  | [] => None
  | _ => Some s
  end.

(** The body of the loop over the groups: [None] for [continue]. *)
Definition dedup_group (cfg : Config) (k : key) (group : list Row) : result (option Row) :=
  let '(word, sphere, tone) := k in
  let word_norm := match word with
                   | [] => []
                   | _ => normalize (upper (strip word))
                   end in
  match word_norm with
  | [] => Ok None
  | _ =>
    let allowed_vals := map (fun r => parse_bool (col_allowed r)) group in
    let allowed := existsb (fun b : bool => b) allowed_vals in
    let field := pick_first_nonempty (map col_field group) in
    let role := pick_first_nonempty (map col_role group) in
    let notes := uniq_notes (map col_notes group) (U " | ") in
    row <-? force_recalc_row cfg word_norm
              (match sphere with [] => U "прочее" | _ => strip sphere end)
              (match tone with [] => U "neutral" | _ => strip tone end)
              (VBool allowed) (Some notes) None None
              (nonempty_or_none field) (nonempty_or_none role) ;;
    Ok (Some row)
  end.

Fixpoint dedup_loop (cfg : Config) (groups : list (key * list Row)) (deduped_rows : list Row)
  : result (list Row) :=
  match groups with
  | [] => Ok deduped_rows
  | (k, group) :: rest =>
    o <-? dedup_group cfg k group ;;
    match o with
    | None => dedup_loop cfg rest deduped_rows
    | Some row => dedup_loop cfg rest (deduped_rows ++ [row])
    end
  end.

(** [soft_dedup(df)], on a table that has the columns of [LIB_COLS] *)
Definition soft_dedup (cfg : Config) (df : list Row) : result (list Row) :=
  match df with
  | [] => Ok df
  | _ => dedup_loop cfg (groupby df) []
  end.

(** The six derived cells [(l1, l2c, w, C, Hm, Z)] as [force_recalc_row]
    computes them from a word when no stored code is passed: the pipeline
    [calc_l1_from_string], [calc_l2c_from_l1], [metrics], and six empty
    cells when [calc_l2c_from_l1] reports the code out of range. *)
Definition derived_fields (cfg : Config) (word : pystr)
  : result (pyval * pyval * pyval * pyval * pyval * pyval) :=
  let '(_, l1) := calc_l1_from_string word in
  r <-? calc_l2c_from_l1 l1 ;;
  match r with
  | (Some l2c, _, _, false) =>
    m <-? metrics cfg l1 l2c ;;
    let '(w, C, Hm, Z) := m in
    Ok (VInt l1, VInt l2c, VFloat (FFin (Q2R w)), VFloat (FFin C),
        VFloat (FFin (Q2R Hm)), VFloat (FFin Z))
  | _ => Ok (VNone, VNone, VNone, VNone, VNone, VNone)
  end.

Definition row_derived (r : Row) : pyval * pyval * pyval * pyval * pyval * pyval :=
  (col_l1 r, col_l2c r, col_w r, col_C r, col_Hm r, col_Z r).

(** Two tables that differ at most in the six derived columns *)
Definition same_source_columns (r1 r2 : Row) : Prop :=
  col_word r1 = col_word r2 /\ col_sphere r1 = col_sphere r2 /\
  col_tone r1 = col_tone r2 /\ col_allowed r1 = col_allowed r2 /\
  col_field r1 = col_field r2 /\ col_role r1 = col_role r2 /\
  col_notes r1 = col_notes r2.

(* ================================================================== *)
(** * Library index *)

Record IndexState : Type := {
  INDEX_L1 : gmap Z (list pystr);
  INDEX_L2C : gmap Z (list pystr);
  INDEX_READY : bool
}.

(** Truncation toward zero, [int(x)] on a finite float *)
Definition R_trunc (x : R) : Z :=
  if Rle_dec 0 x then Int_part x else - Int_part (- x).

(** [pd.isna(v)] with the [is not None] test before it *)
Definition is_missing (v : pyval) : bool :=
  match v with
  | VNone => true
  | VFloat FNaN => true
  | _ => false
  end.

(** [str(r.get('word', ''))]: a missing cell prints as [nan]. *)
Definition word_text (x : option pystr) : pystr :=
  match x with
  | None => U "nan"
  | Some s => s
  end.

(** The two steps on one index: create the entry, then append the word
    when it is not there yet. *)
Definition index_add (idx : gmap Z (list pystr)) (code : Z) (word : pystr)
  : gmap Z (list pystr) :=
  let idx := match idx !! code with
             | None => <[code := []]> idx
             | Some _ => idx
             end in
  match idx !! code with
  | Some ws => if bool_decide (word ∈ ws) then idx else <[code := ws ++ [word]]> idx
  | None => idx
  end.

Section Index.

(** [float(s)] on a string, Python's parser of float literals: a parameter
    of the model. *)
Variable float_of_str : pystr -> result pyfloat.

(** [float(v)]; an integer converts exactly. *)
Definition py_float (v : pyval) : result pyfloat :=
  match v with
  | VNone => Raise TypeError
  | VBool b => Ok (FFin (if b then 1 else 0)%R)
  | VInt z => Ok (FFin (IZR z))
  | VFloat f => Ok f
  | VStr s => float_of_str s
  end.

(** [int(f)] on a float *)
Definition py_int (f : pyfloat) : result Z :=
  match f with
  | FFin x => Ok (R_trunc x)
  | FInf _ => Raise OverflowError
  | FNaN => Raise ValueError
  end.

(** [int(float(v))] *)
Definition int_float (v : pyval) : result Z :=
  f <-? py_float v ;; py_int f.

(** One [try] block of the loop body: the index after it.  An exception
    is swallowed and leaves the index as it was. *)
Definition index_try (idx : gmap Z (list pystr)) (v : pyval) (word : pystr)
  : gmap Z (list pystr) :=
  if is_missing v then idx
  else
    match int_float v with
    | Ok code => index_add idx code word
    | Raise _ => idx
    end.

(** The body of the loop over the rows *)
Definition index_row (st : IndexState) (r : Row) : IndexState :=
  let word := upper (word_text (col_word r)) in
  match word with
  | [] => st
  | _ =>
    {| INDEX_L1 := index_try (INDEX_L1 st) (col_l1 r) word;
       INDEX_L2C := index_try (INDEX_L2C st) (col_l2c r) word;
       INDEX_READY := INDEX_READY st |}
  end.

(** [rebuild_indexes(df)]: the global state after the call.  The state
    before the call is not read, both maps are cleared first. *)
Definition rebuild_indexes (df : list Row) : IndexState :=
  let st := {| INDEX_L1 := ∅; INDEX_L2C := ∅; INDEX_READY := false |} in
  match df with
  | [] => st
  | _ =>
    let st := fold_left index_row df st in
    {| INDEX_L1 := INDEX_L1 st; INDEX_L2C := INDEX_L2C st; INDEX_READY := true |}
  end.

End Index.

(* ================================================================== *)
(** * Auxiliary definitions of the proofs *)

(** The code of a spelled-out text, as [calc_l2c_from_l1] computes it *)
Definition words_code (s : pystr) : Z :=
  kryon_sum (normalize (strip_spaces_hyphens s)).

(** Both genders of the speller succeed at [n] with a code in [1, 440]. *)
Definition speller_check (n : Z) : bool :=
  match _number_to_words_0_999 n false, _number_to_words_0_999 n true with
  | Ok a, Ok b =>
    (1 <=? words_code a) && (words_code a <=? 440)
    && (1 <=? words_code b) && (words_code b <=? 440)
  | _, _ => false
  end.

(** The current code and the next [n - 1] codes of the recurrence
    [l1 := l2c] all lie in [0, 999999]. *)
Fixpoint chain_in_range (n : nat) (l1 : Z) : bool :=
  match n with
  | O => true
  | S n' =>
    (0 <=? l1) && (l1 <=? 999999)
    && match calc_l2c_from_l1 l1 with
       | Ok (Some l2c, _, _, _) => chain_in_range n' l2c
       | _ => false
       end
  end.

Definition sigma_nonzero (cfg : Config) : Prop := ~ (sigma_Z cfg == 0)%Q.

(** [APP_CFG] after [set_cfg_values(0, 0.75, None)]: the function stores
    [float(sigma)] as it is given. *)
Definition ZERO_SIGMA_CONFIG : Config :=
  {| sigma_Z := 0; resonator_threshold := 0.75 |}.

(** The word of the row is a non-empty normalized word, and the derived
    cells of the row are [derived_fields] of this word. *)
Definition recomputed (cfg : Config) (row : Row) : Prop :=
  exists wd,
    col_word row = Some wd /\ wd <> [] /\ normalize wd = wd
    /\ derived_fields cfg wd = Ok (row_derived row).

(** A library row as an import builds it, before any code is computed *)
Definition imported_row (word notes : string) : Row :=
  {| col_word := Some (U word);
     col_sphere := Some (U "природа");
     col_tone := Some (U "neutral");
     col_allowed := VBool true;
     col_field := Some [];
     col_role := Some [];
     col_notes := Some (U notes);
     col_l1 := VNone;
     col_l2c := VNone;
     col_w := VNone;
     col_C := VNone;
     col_Hm := VNone;
     col_Z := VNone |}.

(** Two entries with the same key and different notes *)
Definition same_key_rows : list Row :=
  [imported_row "СВЕТ" "первая"; imported_row "СВЕТ" "вторая"].

(** Two entries whose words differ only by a character that [normalize]
    removes *)
Definition punctuated_rows : list Row :=
  [imported_row "СВЕТ" "a"; imported_row "СВЕТ!" "b"].

(** A word of 30304 letters [Я], whose code is 1000032 *)
Definition long_word : pystr := repeat (ch "Я") (Z.to_nat 30304).

Definition long_word_rows : list Row :=
  [{| col_word := Some long_word;
      col_sphere := Some (U "природа");
      col_tone := Some (U "neutral");
      col_allowed := VBool true;
      col_field := Some [];
      col_role := Some [];
      col_notes := Some [];
      col_l1 := VNone;
      col_l2c := VNone;
      col_w := VNone;
      col_C := VNone;
      col_Hm := VNone;
      col_Z := VNone |}].

Definition no_derived : pyval * pyval * pyval * pyval * pyval * pyval :=
  (VNone, VNone, VNone, VNone, VNone, VNone).

(** A row with stored codes: an integer [l1] and an [l2c] that is text *)
Definition indexed_row : Row :=
  {| col_word := Some (U "свет");
     col_sphere := Some (U "природа");
     col_tone := Some (U "neutral");
     col_allowed := VBool true;
     col_field := Some [];
     col_role := Some [];
     col_notes := Some [];
     col_l1 := VInt 48;
     col_l2c := VStr (U "?");
     col_w := VNone;
     col_C := VNone;
     col_Hm := VNone;
     col_Z := VNone |}.

(** A float parser that accepts no string *)
Definition reject_all_strings (s : pystr) : result pyfloat := Raise ValueError.

Definition in_unit (x : R) : Prop := (0 <= x <= 1)%R.

(* ================================================================== *)
(** * Definitions of the further properties *)

(** Both genders of the speller give a code of at least 9 at [n]. *)
Definition speller_check_low (n : Z) : bool :=
  match _number_to_words_0_999 n false, _number_to_words_0_999 n true with
  | Ok a, Ok b => (9 <=? words_code a) && (9 <=? words_code b)
  | _, _ => false
  end.

(** [s.split(" ")]: the pieces between the spaces *)
Fixpoint split_spaces (s : pystr) : list pystr :=
  match s with
  | [] => [[]]
  | c :: r =>
    if (c =? 0x20)%N then [] :: split_spaces r
    else
      match split_spaces r with
      | [] => [[c]]
      | w :: ws => (c :: w) :: ws
      end
  end.

(** A non-empty word of alphabet letters *)
Definition is_letter_word (w : pystr) : bool :=
  negb (bool_decide (w = [])) && forallb is_kryon_letter w.

Definition letter_word (w : pystr) : Prop :=
  w <> [] /\ Forall (fun c => is_kryon_letter c = true) w.

(** The text of [n] in both genders is made of letter words separated by
    single spaces. *)
Definition speller_check_shape (n : Z) : bool :=
  match _number_to_words_0_999 n false, _number_to_words_0_999 n true with
  | Ok a, Ok b =>
    forallb is_letter_word (split_spaces a)
    && bool_decide (join (U " ") (split_spaces a) = a)
    && forallb is_letter_word (split_spaces b)
    && bool_decide (join (U " ") (split_spaces b) = b)
  | _, _ => false
  end.

(** [sum(...)] of the codes of a list of words *)
Definition words_sum (ws : list pystr) : Z :=
  fold_right (fun w acc => kryon_sum w + acc) 0 ws.

(** The parts of [metrics], named: the ratio under the cosine, [C], the
    relative distance of [w] to a target, [Hm], and the Gaussian factor
    of [Z]. *)
Definition metric_ratio (l1 l2c : Z) : Q :=
  inject_Z (Z.abs (l2c - l1)) / inject_Z (l2c + l1).

Definition metric_C (l1 l2c : Z) : R :=
  (cos (PI / 2 * Q2R (metric_ratio l1 l2c)) ^ 2)%R.

Definition target_dist (w t : Q) : Q := Qabs (w - t) / t.

Definition metric_Hm (w : Q) : Q :=
  Qmax 0 (Qmin 1 (1 - Qmin_seq (target_dist w targets_hd)
                               (map (target_dist w) targets_tl))).

Definition metric_bell (sigma w : Q) : R :=
  exp (- (Q2R ((w - 2) / sigma)) ^ 2).


(** [classify_initial(v)]: the type, action and description of the first
    letter's code, [(None, None, None)] for a missing or foreign code. *)
Definition classify_initial (v : option Z) : option pystr * option pystr * option pystr :=
  match v with
  | None => (None, None, None)
  | Some v =>
    if v =? 0 then (None, None, None)
    else
      let v_int := v in
      if (1 <=? v_int) && (v_int <=? 7)
      then (Some (U "Активная"), Some (U "импульс наружу"), Some (U "запуск"))
      else if (8 <=? v_int) && (v_int <=? 16)
      then (Some (U "Гармоничная"), Some (U "равновесие"), Some (U "стабилизация"))
      else if (17 <=? v_int) && (v_int <=? 22)
      then (Some (U "Переходная"), Some (U "сдвиг"), Some (U "адаптация"))
      else if (23 <=? v_int) && (v_int <=? 25)
      then (Some (U "Турбулентная"), Some (U "напряжение"), Some (U "пик"))
      else if (26 <=? v_int) && (v_int <=? 33)
      then (Some (U "Инверсная"), Some (U "внутренняя работа"), Some (U "возврат к ядру"))
      else (None, None, None)
  end.

(** [first_char = norm[:1] if norm else ""] of [analyze_word] *)
Definition first_char (norm : option pystr) : pystr :=
  match norm with
  | Some (c :: r) => firstn 1 (c :: r)
  | _ => []
  end.

(** [first_val = KRYON_MAP.get(first_char, None)]: the keys of the map are
    the strings of one letter. *)
Definition first_val (first_char : pystr) : option Z :=
  match first_char with
  | [c] => KRYON_MAP !! c
  | _ => None
  end.

(** [t, d, m = classify_initial(first_val)] of [analyze_word] *)
Definition first_impulse (norm : option pystr) : option pystr * option pystr * option pystr :=
  classify_initial (first_val (first_char norm)).

(** The verdict of [fractal_unfold] as a function of the two counters *)
Definition breath_verdict (inhale exhale : Z) : pystr :=
  let R :=
    if exhale =? 0 then (if 0 <? inhale then QInf else QFin 1.0)
    else QFin (inject_Z inhale / inject_Z exhale) in
  if qf_gt R 1.05 then U "слово раскрывается"
  else if qf_lt R 0.95 then U "слово стабилизирует поле"
  else U "слово в равновесии".


(** [q_bar(q, length)] *)
Definition q_bar (q : R) (length : Z) : pystr :=
  let filled := Z.max 0 (Z.min length (py_round (q * IZR length))) in
  repeat (ch "▰") (Z.to_nat filled) ++ repeat (ch "▱") (Z.to_nat (length - filled)).

(** [fmt_bar(value, n)] *)
Definition fmt_bar (value : R) (n : Z) : pystr :=
  let v := Rmax 0.0 (Rmin 1.0 value) in
  let filled := py_round (v * IZR n) in
  repeat (ch "▰") (Z.to_nat filled) ++ repeat (ch "▱") (Z.to_nat (n - filled)).

(** [axis_line_for_w(w)]: the axis of 41 characters with the three cluster
    borders and the marker of [w]. *)
Definition axis_line_for_w (w : Q) : pystr :=
  let min_w := 1.0%Q in
  let max_w := 3.6%Q in
  let width := 40 in
  let w_clamped := Qmin (Qmax w min_w) max_w in
  let pos :=
    py_round (Q2R ((w_clamped - min_w) / (max_w - min_w) * inject_Z width)%Q) in
  let mark := fun val : Q =>
    py_round (Q2R ((val - min_w) / (max_w - min_w) * inject_Z width)%Q) in
  let m_phi := mark 1.6%Q in
  let m_e := mark 2.7%Q in
  let m_epi := mark 3.2%Q in
  let axis_chars := repeat (ch "─") (Z.to_nat (width + 1)) in
  let axis_chars :=
    fold_left (fun acc idx =>
                 if (0 <=? idx) && (idx <=? width)
                 then <[Z.to_nat idx := ch "│"]> acc else acc)
              [m_phi; m_e; m_epi] axis_chars in
  let axis_chars :=
    if (0 <=? pos) && (pos <=? width)
    then <[Z.to_nat pos := ch "●"]> axis_chars else axis_chars in
  axis_chars.

(** Truth value of [x and x.strip()] on an optional string *)
Definition nonblank (x : option pystr) : bool :=
  match x with
  | Some (c :: r) => match strip (c :: r) with [] => false | _ => true end
  | _ => false
  end.

(** [resolve_sphere(sphere_choice, create_new, new_sphere)] *)
Definition resolve_sphere (sphere_choice : option pystr) (create_new : bool)
    (new_sphere : option pystr) : pystr :=
  if create_new && nonblank new_sphere then strip (or_empty new_sphere)
  else if nonblank sphere_choice then strip (or_empty sphere_choice)
  else U "прочее".

(** The position on the axis of [axis_line_for_w] before rounding:
    [(x - min_w) / (max_w - min_w) * width] *)
Definition axis_scale (x : Q) : Q := ((x - 1.0) / (3.6 - 1.0) * inject_Z 40)%Q.

(** The axis with its three borders and no marker *)
Definition axis_borders : pystr :=
  repeat (ch "─") 9 ++ [ch "│"] ++ repeat (ch "─") 16 ++ [ch "│"]
  ++ repeat (ch "─") 7 ++ [ch "│"] ++ repeat (ch "─") 6.

(** No white space at either end *)
Definition trimmed (s : pystr) : Prop :=
  match s with [] => True | c :: _ => is_space c = false end
  /\ match rev s with [] => True | c :: _ => is_space c = false end.


(* ------------------------------------------------------------------ *)
(** ** Resonance pairs *)

Definition RESONANCE_PAIRS : gmap (pystr * pystr) (pystr * pystr * pystr) :=
  list_to_map
    [((U "phi", U "rt2"),
      (U "φ–√2", U "Harmony ↔ Duality",
       U "Единство через различие — гармония, рождающаяся из двух полюсов."));
     ((U "phi", U "e"), (U "φ–e", U "Harmony ↔ Growth", U "Переход гармонии в движение"));
     ((U "e", U "pi"), (U "e–π", U "Growth ↔ Cycle", U "Прорыв и кульминация"));
     ((U "pi", U "rt2"), (U "π–√2", U "Cycle ↔ Transition", U "Завершение и тишина"));
     ((U "phi", U "pi"), (U "φ–π", U "Harmony ↔ Cycle", U "Покой и полнота"));
     ((U "e", U "rt2"), (U "e–√2", U "Growth ↔ Threshold", U "Метаморфоза"))].

(** [sorted(items, key=lambda x: x[1], reverse=True)]: the stable sort in
    descending order of the value, by insertion; an item goes behind the
    items of the same value that came before it. *)
Fixpoint insert_desc (x : pystr * R) (l : list (pystr * R)) : list (pystr * R) :=
  match l with
  | [] => [x]
  | y :: r => if Rlt_dec (snd y) (snd x) then x :: l else y :: insert_desc x r
  end.

Definition sorted_desc (items : list (pystr * R)) : list (pystr * R) :=
  fold_left (fun acc x => insert_desc x acc) items [].

(** [l.index(x)], with [ValueError] when [x] is not in [l] *)
Fixpoint list_index (l : list pystr) (x : pystr) : result Z :=
  match l with
  | [] => Raise ValueError
  | y :: r => if str_eqb y x then Ok 0 else (i <-? list_index r x ;; Ok (i + 1))
  end.

(** The items of the dict [values] of [resonance_pair], in insertion order *)
Definition resonance_values (w : Q) : list (pystr * R) :=
  let r_phi := exp (- Q2R (Qabs (w - 1.618))) in
  let r_e := exp (- Q2R (Qabs (w - 2.718))) in
  let r_pi := exp (- Q2R (Qabs (w - 3.142))) in
  let r_rt2 := exp (- Q2R (Qabs (w - 1.414))) in
  [(U "phi", r_phi); (U "e", r_e); (U "pi", r_pi); (U "rt2", r_rt2)].

(** [resonance_pair(w, threshold)] returns [(name, en, ru, r_pair)]. *)
Definition resonance_pair (w : Q) (threshold : Q) : result (pystr * pystr * pystr * R) :=
  let values := resonance_values w in
  let top := firstn 2 (sorted_desc values) in
  kv1 <-? getitem top 0 ;;
  kv2 <-? getitem top 1 ;;
  let '(k1, v1) := kv1 in
  let '(k2, v2) := kv2 in
  i1 <-? list_index [U "phi"; U "e"; U "pi"; U "rt2"] k1 ;;
  i2 <-? list_index [U "phi"; U "e"; U "pi"; U "rt2"] k2 ;;
  let pair_key := if i2 <? i1 then (k2, k1) else (k1, k2) in
  let r_pair := sqrt (v1 * v2) in
  if Rlt_dec r_pair (Q2R threshold) then Ok ([], [], [], r_pair)
  else
    let '(name, en, ru) := default ([], [], []) (RESONANCE_PAIRS !! pair_key) in
    Ok (name, en, ru, r_pair).


(* ------------------------------------------------------------------ *)
(** ** Dates *)

(** [d[k]] on a dict with integer keys, with [KeyError] *)
Definition int_getitem {V : Type} (d : gmap Z V) (k : Z) : result V :=
  match d !! k with
  | Some v => Ok v
  | None => Raise KeyError
  end.

Definition ORD_DAY : gmap Z pystr :=
  list_to_map
    [(1, U "ПЕРВОЕ"); (2, U "ВТОРОЕ"); (3, U "ТРЕТЬЕ"); (4, U "ЧЕТВЁРТОЕ");
     (5, U "ПЯТОЕ"); (6, U "ШЕСТОЕ"); (7, U "СЕДЬМОЕ"); (8, U "ВОСЬМОЕ");
     (9, U "ДЕВЯТОЕ"); (10, U "ДЕСЯТОЕ"); (11, U "ОДИННАДЦАТОЕ"); (12, U "ДВЕНАДЦАТОЕ");
     (13, U "ТРИНАДЦАТОЕ"); (14, U "ЧЕТЫРНАДЦАТОЕ"); (15, U "ПЯТНАДЦАТОЕ");
     (16, U "ШЕСТНАДЦАТОЕ"); (17, U "СЕМНАДЦАТОЕ"); (18, U "ВОСЕМНАДЦАТОЕ");
     (19, U "ДЕВЯТНАДЦАТОЕ"); (20, U "ДВАДЦАТОЕ"); (21, U "ДВАДЦАТЬ ПЕРВОЕ");
     (22, U "ДВАДЦАТЬ ВТОРОЕ"); (23, U "ДВАДЦАТЬ ТРЕТЬЕ"); (24, U "ДВАДЦАТЬ ЧЕТВЁРТОЕ");
     (25, U "ДВАДЦАТЬ ПЯТОЕ"); (26, U "ДВАДЦАТЬ ШЕСТОЕ"); (27, U "ДВАДЦАТЬ СЕДЬМОЕ");
     (28, U "ДВАДЦАТЬ ВОСЬМОЕ"); (29, U "ДВАДЦАТЬ ДЕВЯТОЕ"); (30, U "ТРИДЦАТОЕ");
     (31, U "ТРИДЦАТЬ ПЕРВОЕ")].

Definition MONTHS_GEN : gmap Z pystr :=
  list_to_map
    [(1, U "ЯНВАРЯ"); (2, U "ФЕВРАЛЯ"); (3, U "МАРТА"); (4, U "АПРЕЛЯ"); (5, U "МАЯ");
     (6, U "ИЮНЯ"); (7, U "ИЮЛЯ"); (8, U "АВГУСТА"); (9, U "СЕНТЯБРЯ");
     (10, U "ОКТЯБРЯ"); (11, U "НОЯБРЯ"); (12, U "ДЕКАБРЯ")].

Definition ORD_UNIT_GEN_M : gmap Z pystr :=
  list_to_map
    [(1, U "ПЕРВОГО"); (2, U "ВТОРОГО"); (3, U "ТРЕТЬЕГО"); (4, U "ЧЕТВЁРТОГО");
     (5, U "ПЯТОГО"); (6, U "ШЕСТОГО"); (7, U "СЕДЬМОГО"); (8, U "ВОСЬМОГО");
     (9, U "ДЕВЯТОГО")].

Definition ORD_TEEN_GEN_M : gmap Z pystr :=
  list_to_map
    [(10, U "ДЕСЯТОГО"); (11, U "ОДИННАДЦАТОГО"); (12, U "ДВЕНАДЦАТОГО");
     (13, U "ТРИНАДЦАТОГО"); (14, U "ЧЕТЫРНАДЦАТОГО"); (15, U "ПЯТНАДЦАТОГО");
     (16, U "ШЕСТНАДЦАТОГО"); (17, U "СЕМНАДЦАТОГО"); (18, U "ВОСЕМНАДЦАТОГО");
     (19, U "ДЕВЯТНАДЦАТОГО")].

Definition TENS_CARD : gmap Z pystr :=
  list_to_map
    [(2, U "ДВАДЦАТЬ"); (3, U "ТРИДЦАТЬ"); (4, U "СОРОК"); (5, U "ПЯТЬДЕСЯТ");
     (6, U "ШЕСТЬДЕСЯТ"); (7, U "СЕМЬДЕСЯТ"); (8, U "ВОСЕМЬДЕСЯТ"); (9, U "ДЕВЯНОСТО")].

Definition TENS_ORD_GEN_M : gmap Z pystr :=
  list_to_map
    [(2, U "ДВАДЦАТОГО"); (3, U "ТРИДЦАТОГО"); (4, U "СОРОКОВОГО");
     (5, U "ПЯТИДЕСЯТОГО"); (6, U "ШЕСТИДЕСЯТОГО"); (7, U "СЕМИДЕСЯТОГО");
     (8, U "ВОСЬМИДЕСЯТОГО"); (9, U "ДЕВЯНОСТОГО")].

Definition HUND_ORD_GEN_M : gmap Z pystr :=
  list_to_map
    [(1, U "СОТОГО"); (2, U "ДВУХСОТОГО"); (3, U "ТРЁХСОТОГО"); (4, U "ЧЕТЫРЁХСОТОГО");
     (5, U "ПЯТИСОТОГО"); (6, U "ШЕСТИСОТОГО"); (7, U "СЕМИСОТОГО");
     (8, U "ВОСЬМИСОТОГО"); (9, U "ДЕВЯТИСОТОГО")].

(** [is_leap(y)] *)
Definition is_leap (y : Z) : bool :=
  (y mod 400 =? 0) || ((y mod 4 =? 0) && negb (y mod 100 =? 0)).

(** [days_in_month(m, y)] *)
Definition days_in_month (m y : Z) : Z :=
  if existsb (Z.eqb m) [1; 3; 5; 7; 8; 10; 12] then 31
  else if existsb (Z.eqb m) [4; 6; 9; 11] then 30
  else if is_leap y then 29 else 28.

(** [last2_to_ordinal_gen_m(n)] *)
Definition last2_to_ordinal_gen_m (n : Z) : result pystr :=
  if (10 <=? n) && (n <=? 19) then int_getitem ORD_TEEN_GEN_M n
  else
    let t := n / 10 in
    let u := n mod 10 in
    if t =? 0 then Ok (default [] (ORD_UNIT_GEN_M !! u))
    else if u =? 0 then Ok (default [] (TENS_ORD_GEN_M !! t))
    else
      a <-? int_getitem TENS_CARD t ;;
      b <-? int_getitem ORD_UNIT_GEN_M u ;;
      Ok (a ++ U " " ++ b).

(** [thousands_phrase(th)] *)
Definition thousands_phrase (th : Z) : result pystr :=
  if th =? 1 then Ok (U "ОДНА ТЫСЯЧА")
  else if th =? 2 then Ok (U "ДВЕ ТЫСЯЧИ")
  else
    base <-? getitem [[]; U "ОДНА"; U "ДВЕ"; U "ТРИ"; U "ЧЕТЫРЕ"; U "ПЯТЬ"; U "ШЕСТЬ";
                      U "СЕМЬ"; U "ВОСЕМЬ"; U "ДЕВЯТЬ"] th ;;
    let tail := if (th =? 3) || (th =? 4) then U "ТЫСЯЧИ" else U "ТЫСЯЧ" in
    Ok (base ++ U " " ++ tail).

(** [date_to_phrase_official(d, m, y)] *)
Definition date_to_phrase_official (d m y : Z) : result pystr :=
  day <-? int_getitem ORD_DAY d ;;
  month <-? int_getitem MONTHS_GEN m ;;
  let th := y / 1000 in
  let h := (y mod 1000) / 100 in
  let last2 := y mod 100 in
  if y =? 2000 then Ok (day ++ U " " ++ month ++ U " " ++ U "ДВУХТЫСЯЧНОГО ГОДА")
  else
    tp <-? thousands_phrase th ;;
    let parts := [tp] in
    if last2 =? 0 then
      parts <-? (if negb (h =? 0)
                 then (tp' <-? thousands_phrase th ;;
                       hh <-? int_getitem HUND_ORD_GEN_M h ;;
                       Ok [tp'; hh])
                 else Ok parts) ;;
      Ok (day ++ U " " ++ month ++ U " " ++ join (U " ") parts ++ U " " ++ U "ГОДА")
    else
      parts <-? (if negb (h =? 0)
                 then (hh <-? int_getitem HUND_ORD_GEN_M h ;; Ok (parts ++ [hh]))
                 else Ok parts) ;;
      l2 <-? last2_to_ordinal_gen_m last2 ;;
      let parts := parts ++ [l2] in
      Ok (day ++ U " " ++ month ++ U " " ++ join (U " ") parts ++ U " " ++ U "ГОДА").

(** The test of [parse_date_phrase] on the three numbers of a matched date *)
Definition valid_date (d mo y : Z) : bool :=
  (1000 <=? y) && (y <=? 9999) && (1 <=? mo) && (mo <=? 12)
  && (1 <=? d) && (d <=? days_in_month mo y).

(** The part of the phrase of [date_to_phrase_official] that follows the
    month: the year and the closing [ГОДА] *)
Definition year_phrase (y : Z) : result pystr :=
  let th := y / 1000 in
  let h := (y mod 1000) / 100 in
  let last2 := y mod 100 in
  if y =? 2000 then Ok (U "ДВУХТЫСЯЧНОГО ГОДА")
  else
    tp <-? thousands_phrase th ;;
    let parts := [tp] in
    if last2 =? 0 then
      parts <-? (if negb (h =? 0)
                 then (tp' <-? thousands_phrase th ;;
                       hh <-? int_getitem HUND_ORD_GEN_M h ;;
                       Ok [tp'; hh])
                 else Ok parts) ;;
      Ok (join (U " ") parts ++ U " " ++ U "ГОДА")
    else
      parts <-? (if negb (h =? 0)
                 then (hh <-? int_getitem HUND_ORD_GEN_M h ;; Ok (parts ++ [hh]))
                 else Ok parts) ;;
      l2 <-? last2_to_ordinal_gen_m last2 ;;
      let parts := parts ++ [l2] in
      Ok (join (U " ") parts ++ U " " ++ U "ГОДА").

(** The parts of the year that follow the thousands in [year_phrase], as
    a function of [y % 1000] *)
Definition year_tail (r : Z) : result (list pystr) :=
  let h := r / 100 in
  let last2 := r mod 100 in
  if last2 =? 0 then
    (if negb (h =? 0) then (hh <-? int_getitem HUND_ORD_GEN_M h ;; Ok [hh]) else Ok [])
  else
    ps <-? (if negb (h =? 0) then (hh <-? int_getitem HUND_ORD_GEN_M h ;; Ok [hh])
            else Ok []) ;;
    l2 <-? last2_to_ordinal_gen_m last2 ;;
    Ok (ps ++ [l2]).

(** The checks of the date tables: a phrase is made of letter words
    separated by single spaces, and its code lies in the given range. *)
Definition phrase_check (lo hi : Z) (p : result pystr) : bool :=
  match p with
  | Ok s =>
    forallb is_letter_word (split_spaces s)
    && (lo <=? kryon_sum (normalize s)) && (kryon_sum (normalize s) <=? hi)
  | Raise _ => false
  end.

Definition thousands_check (th : Z) : bool :=
  phrase_check (if th =? 2 then 150 else 164) 240 (thousands_phrase th).

Definition tail_check (r : Z) : bool :=
  match year_tail r with
  | Ok ps => forallb (fun p => forallb is_letter_word (split_spaces p)) ps
             && ((r =? 0) || (14 <=? words_sum (map normalize ps)))
             && (0 <=? words_sum (map normalize ps))
             && (words_sum (map normalize ps) <=? 536)
  | Raise _ => false
  end.


(* ------------------------------------------------------------------ *)
(** ** Reading the index *)

(** What the entries of an index say about the rows they were built from:
    every entry is a non-empty list without repetition, and each of its
    words is the uppercased word of a row whose cell converts to the key *)
Definition index_sound (float_of_str : pystr -> result pyfloat) (col : Row -> pyval)
    (rows : list Row) (idx : gmap Z (list pystr)) : Prop :=
  forall V ws,
    idx !! V = Some ws ->
    ws <> [] /\ NoDup ws
    /\ forall w, w ∈ ws ->
         exists r, r ∈ rows /\ upper (word_text (col_word r)) = w /\ w <> []
                   /\ is_missing (col r) = false
                   /\ int_float float_of_str (col r) = Ok V.

(** [l[:n]], with Python's negative bound *)
Definition slice_to {A : Type} (l : list A) (n : Z) : list A :=
  if 0 <=? n then firstn (Z.to_nat n) l
  else firstn (Z.to_nat (Z.of_nat (length l) + n)) l.

(** A cell of a row of [csv.DictReader] as [r.get(key, default)] sees it:
    the column is not in the header, the row is too short for it, or it
    holds a string. *)
Inductive csv_cell : Type :=
| CellAbsent
| CellNone
| CellStr (s : pystr).

(** A row of the personal file, on the three columns that are read *)
Record PersonalRow : Type := {
  p_text : csv_cell;
  p_l1 : csv_cell;
  p_l2c : csv_cell
}.

(** [str(r.get('text', ''))] *)
Definition cell_str (c : csv_cell) : pystr :=
  match c with
  | CellAbsent => []
  | CellNone => U "None"
  | CellStr s => s
  end.

(** [r.get(key, 0)] *)
Definition cell_code (c : csv_cell) : pyval :=
  match c with
  | CellAbsent => VInt 0
  | CellNone => VNone
  | CellStr s => VStr s
  end.

(** The loop over an entry of the index in [_collect_matches_by_code],
    with its [break]: the pair [(out, seen)] after it. *)
Fixpoint collect_index (ws : list pystr) (current : pystr) (limit : Z)
    (out : list pystr) (seen : gset pystr) : list pystr * gset pystr :=
  match ws with
  | [] => (out, seen)
  | w :: rest =>
    if negb (str_eqb w current) && negb (bool_decide (w ∈ seen)) then
      let out := out ++ [w] in
      let seen := {[w]} ∪ seen in
      if limit <=? Z.of_nat (length out) then (out, seen)
      else collect_index rest current limit out seen
    else collect_index rest current limit out seen
  end.

Section Matches.

Variable float_of_str : pystr -> result pyfloat.

(** One step of the loop over the personal file; an exception of a
    conversion ends the step and keeps what was appended before it. *)
Definition collect_personal (l1 l2c : Z) (current : pystr)
    (acc : (list pystr * gset pystr) * (list pystr * gset pystr)) (r : PersonalRow)
  : (list pystr * gset pystr) * (list pystr * gset pystr) :=
  let '((out_l1, seen_l1), (out_l2c, seen_l2c)) := acc in
  let w := upper (cell_str (p_text r)) in
  match w with
  | [] => acc
  | _ =>
    if str_eqb w current then acc
    else
      match int_float float_of_str (cell_code (p_l1 r)) with
      | Raise _ => acc
      | Ok c1 =>
        let '(out_l1, seen_l1) :=
          if (c1 =? l1) && negb (bool_decide (w ∈ seen_l1))
          then (out_l1 ++ [w], {[w]} ∪ seen_l1) else (out_l1, seen_l1) in
        match int_float float_of_str (cell_code (p_l2c r)) with
        | Raise _ => ((out_l1, seen_l1), (out_l2c, seen_l2c))
        | Ok c2 =>
          let '(out_l2c, seen_l2c) :=
            if (c2 =? l2c) && negb (bool_decide (w ∈ seen_l2c))
            then (out_l2c ++ [w], {[w]} ∪ seen_l2c) else (out_l2c, seen_l2c) in
          ((out_l1, seen_l1), (out_l2c, seen_l2c))
        end
      end
  end.

(** [_collect_matches_by_code(res, limit_l1, limit_l2c)] on the index state
    [st]; [personal] holds the rows of the personal file, [None] when the
    file is not there. *)
Definition _collect_matches_by_code (st : IndexState) (personal : option (list PersonalRow))
    (res : Analysis) (limit_l1 limit_l2c : Z) : list pystr * list pystr :=
  let l1 := a_l1 res in
  let l2c := a_l2c res in
  let current := upper (a_norm res) in
  let s1 : list pystr * gset pystr := ([], ∅) in
  let s2 : list pystr * gset pystr := ([], ∅) in
  let s1 :=
    if INDEX_READY st then
      match INDEX_L1 st !! l1 with
      | Some ws => collect_index ws current limit_l1 (fst s1) (snd s1)
      | None => s1
      end
    else s1 in
  let s2 :=
    if INDEX_READY st then
      match INDEX_L2C st !! l2c with
      | Some ws => collect_index ws current limit_l2c (fst s2) (snd s2)
      | None => s2
      end
    else s2 in
  let acc :=
    match personal with
    | Some rows => fold_left (collect_personal l1 l2c current) rows (s1, s2)
    | None => (s1, s2)
    end in
  (slice_to (fst (fst acc)) limit_l1, slice_to (fst (snd acc)) limit_l2c).

End Matches.

(** The invariant of the two collectors: the list has no repetition, does
    not hold the current word, and [seen] is the set of its words. *)
Definition collected (current : pystr) (s : list pystr * gset pystr) : Prop :=
  NoDup (fst s) /\ (current ∉ fst s) /\ (forall w, w ∈ snd s <-> w ∈ fst s).


(* ------------------------------------------------------------------ *)
(** ** Adding words to the library *)

(** [re.split] on a pattern [[...]+]: the pieces between the maximal runs
    of separators; [in_run] tells that the last character was one. *)
Fixpoint split_runs (sep : N -> bool) (s : pystr) (cur : pystr) (in_run : bool)
  : list pystr :=
  match s with
  | [] => [cur]
  | c :: r =>
    if sep c then
      (if in_run then split_runs sep r cur true else cur :: split_runs sep r [] true)
    else split_runs sep r (cur ++ [c]) false
  end.

(** The class [[\n,;]] *)
Definition is_word_separator (c : N) : bool :=
  ((c =? 0x0A) || (c =? 0x2C) || (c =? 0x3B))%N.

(** [items = [normalize(x) for x in re.split(r"[\n,;]+", raw_text) if normalize(x)]] *)
Definition word_items (raw_text : pystr) : list pystr :=
  omap (fun x => match normalize x with [] => None | w => Some w end)
       (split_runs is_word_separator raw_text [] false).

(** The loop of [add_words_to_library] that builds the rows *)
Fixpoint word_rows (cfg : Config) (sphere_name : pystr) (items : list pystr)
    (rows : list Row) : result (list Row) :=
  match items with
  | [] => Ok rows
  | w :: rest =>
    row <-? force_recalc_row cfg w sphere_name (U "neutral") (VBool true) (Some [])
              None None None None ;;
    word_rows cfg sphere_name rest (rows ++ [row])
  end.

(** The rows that [add_words_to_library] builds from the text and the
    resolved sphere, before they are merged into the library *)
Definition add_words_rows (cfg : Config) (raw_text : pystr) (sphere_choice : option pystr)
    (create_new : bool) (new_sphere : option pystr) : result (list Row) :=
  let items := word_items raw_text in
  let sphere_name := resolve_sphere sphere_choice create_new new_sphere in
  word_rows cfg sphere_name items [].


(* ------------------------------------------------------------------ *)
(** ** Slugs *)

(** The transliteration table [m] of [slugify]; its keys are strings of
    one letter. *)
Definition SLUG_MAP : gmap N pystr :=
  list_to_map
    [(ch "А", U "A"); (ch "Б", U "B"); (ch "В", U "V"); (ch "Г", U "G"); (ch "Д", U "D");
     (ch "Е", U "E"); (ch "Ё", U "E"); (ch "Ж", U "Zh"); (ch "З", U "Z");
     (ch "И", U "I"); (ch "Й", U "Y"); (ch "К", U "K"); (ch "Л", U "L"); (ch "М", U "M");
     (ch "Н", U "N"); (ch "О", U "O"); (ch "П", U "P"); (ch "Р", U "R"); (ch "С", U "S");
     (ch "Т", U "T"); (ch "У", U "U"); (ch "Ф", U "F"); (ch "Х", U "H"); (ch "Ц", U "C");
     (ch "Ч", U "Ch"); (ch "Ш", U "Sh"); (ch "Щ", U "Sch"); (ch "Ы", U "Y");
     (ch "Э", U "E"); (ch "Ю", U "Yu"); (ch "Я", U "Ya"); (ch "Ь", []); (ch "Ъ", [])].

(** The class [[A-Za-z0-9]] *)
Definition is_ascii_alnum (c : N) : bool :=
  ((0x41 <=? c) && (c <=? 0x5A) || (0x61 <=? c) && (c <=? 0x7A)
   || (0x30 <=? c) && (c <=? 0x39))%N.

(** [re.sub(r"[^A-Za-z0-9]+", "-", t)]: every maximal run of other
    characters becomes one hyphen; [in_run] tells that the last character
    was one of them. *)
Fixpoint sub_runs (t : pystr) (in_run : bool) : pystr :=
  match t with
  | [] => []
  | c :: r =>
    if is_ascii_alnum c then c :: sub_runs r false
    else if in_run then sub_runs r true
    else 0x2D%N :: sub_runs r true
  end.

Fixpoint lstrip_hyphens (s : pystr) : pystr :=
  match s with
  | [] => []
  | c :: r => if (c =? 0x2D)%N then lstrip_hyphens r else s
  end.

(** [s.strip("-")] *)
Definition strip_hyphens (s : pystr) : pystr :=
  rev (lstrip_hyphens (rev (lstrip_hyphens s))).

(** [slugify(title)] *)
Definition slugify (title : pystr) : pystr :=
  let t := List.concat (map (fun c => default [c] (SLUG_MAP !! upper_cp c)) title) in
  let t := lower (strip_hyphens (sub_runs t false)) in
  match t with
  | [] => U "sphere"
  | _ => t
  end.

(** The characters of a slug: small Latin letters, digits and the hyphen *)
Definition is_slug_char (c : N) : bool :=
  ((0x61 <=? c) && (c <=? 0x7A) || (0x30 <=? c) && (c <=? 0x39) || (c =? 0x2D))%N.

Fixpoint no_double_hyphen (s : pystr) : bool :=
  match s with
  | a :: ((b :: _) as r) => negb ((a =? 0x2D) && (b =? 0x2D))%N && no_double_hyphen r
  | _ => true
  end.

(** A slug: not empty, made of slug characters, with no hyphen at either
    end and no two hyphens in a row *)
Definition slug_shape (s : pystr) : Prop :=
  s <> [] /\ Forall (fun c => is_slug_char c = true) s
  /\ hd 0%N s <> 0x2D%N /\ List.last s 0%N <> 0x2D%N
  /\ no_double_hyphen s = true.

(* ------------------------------------------------------------------ *)
(** ** The whole report of [analyze_word] *)

(** The keys of the report that [Analysis] does not carry: the resonance
    pair, the bar of [q_total], the first letter with its code and
    impulse, the four resonances and the strongest of them. *)
Record AnalysisRest : Type := {
  a_res_pair_code : pystr;
  a_res_pair_en : pystr;
  a_res_pair_ru : pystr;
  a_res_pair_value : R;
  a_q_bar : pystr;
  a_first_char : pystr;
  a_first_val : option Z;
  a_first_impulse : option pystr * option pystr * option pystr;
  a_R_phi : R;
  a_R_e : R;
  a_R_pi : R;
  a_R_rt2 : R;
  a_resonator_max : pystr * R
}.

(** [max(items, key=lambda x: x[1])]: the first item of the greatest
    value, with the best item so far *)
Fixpoint max_item (best : pystr * R) (items : list (pystr * R)) : pystr * R :=
  match items with
  | [] => best
  | x :: rest => if Rlt_dec (snd best) (snd x) then max_item x rest else max_item best rest
  end.

(** [analyze_word(raw_input)] with all the keys of its report, in the order
    of the source; [None] is the empty dict.  The pair
    [(r_max_label, values[r_max_label])] is the item that [max] returns,
    the labels being distinct. *)
Definition analyze_word_report (parse_date_phrase : pystr -> option pystr) (cfg : Config)
    (raw_input : pystr) : result (option (Analysis * AnalysisRest)) :=
  let src := phrase_used parse_date_phrase raw_input in
  let '(norm, l1) := calc_l1_from_string src in
  if l1 =? 0 then Ok None
  else
    r <-? calc_l2c_from_l1 l1 ;;
    match r with
    | (Some l2c, _, _, false) =>
      m <-? metrics cfg l1 l2c ;;
      let '(w, C, Hm, Z) := m in
      let q_total := q_total_of Z C (Q2R Hm) in
      let fii := fii_of Z C (Q2R Hm) in
      let '(cluster_code, cluster_ru) := cluster_by_w w in
      adv <-? dict_getitem CLUSTER_ADVICES cluster_code ;;
      let '(cluster_name, advice) := adv in
      let th := resonator_threshold cfg in
      rp <-? resonance_pair w th ;;
      let '(pair_code, pair_en, pair_ru, r_pair) := rp in
      fr <-? fractal_unfold cfg l1 ;;
      let '(fii_b, fii_cat) := fii_bar fii in
      let q_b := q_bar q_total 10 in
      let fc := first_char norm in
      let fv := first_val fc in
      let tdm := classify_initial fv in
      let R_phi := exp (- Q2R (Qabs (w - 1.618))) in
      let R_e := exp (- Q2R (Qabs (w - 2.718))) in
      let R_pi := exp (- Q2R (Qabs (w - 3.142))) in
      let R_rt2 := exp (- Q2R (Qabs (w - 1.414))) in
      let r_max := max_item (U "φ", R_phi) [(U "e", R_e); (U "π", R_pi); (U "√2", R_rt2)] in
      Ok (Some ({| a_raw := raw_input;
                   a_phrase_used := src;
                   a_norm := default [] norm;
                   a_l1 := l1;
                   a_l2c := l2c;
                   a_w := w;
                   a_C := C;
                   a_Hm := Hm;
                   a_Z := Z;
                   a_q_total := q_total;
                   a_fii := fii;
                   a_cluster_code := cluster_code;
                   a_cluster_ru := cluster_ru;
                   a_cluster_name := cluster_name;
                   a_cluster_advice := advice;
                   a_fractal := fr;
                   a_fii_bar := fii_b;
                   a_fii_category := fii_cat |},
                {| a_res_pair_code := pair_code;
                   a_res_pair_en := pair_en;
                   a_res_pair_ru := pair_ru;
                   a_res_pair_value := r_pair;
                   a_q_bar := q_b;
                   a_first_char := fc;
                   a_first_val := fv;
                   a_first_impulse := tdm;
                   a_R_phi := R_phi;
                   a_R_e := R_e;
                   a_R_pi := R_pi;
                   a_R_rt2 := R_rt2;
                   a_resonator_max := r_max |}))
    | _ => Ok None
    end.

(* ================================================================== *)
(** * The number speller and [calc_l2c_from_l1] *)

Lemma kryon_sum_app (a b : pystr) : kryon_sum (a ++ b) = kryon_sum a + kryon_sum b.
Proof.
  unfold kryon_sum. induction a as [|c a IH]; cbn [app fold_right]; lia.
Qed.

Lemma words_code_app (a b : pystr) : words_code (a ++ b) = words_code a + words_code b.
Proof.
  unfold words_code, normalize, strip_spaces_hyphens, upper.
  rewrite List.filter_app, List.map_app, List.filter_app.
  apply kryon_sum_app.
Qed.

Lemma words_code_space : words_code (U " ") = 0.
Proof. reflexivity. Qed.

Lemma speller_check_all (k : nat) : (k < 1000)%nat -> speller_check (Z.of_nat k) = true.
Proof.
  assert (H : forallb (fun k => speller_check (Z.of_nat k)) (List.seq 0 1000) = true)
    by (vm_compute; reflexivity).
  rewrite forallb_forall in H.
  intros Hk. apply H. apply in_seq. lia.
Qed.

Lemma speller_ok (n : Z) (f : bool) :
  0 <= n <= 999 ->
  exists s, _number_to_words_0_999 n f = Ok s /\ 1 <= words_code s <= 440.
Proof.
  intros Hn.
  pose proof (speller_check_all (Z.to_nat n)) as H.
  rewrite Z2Nat.id in H by lia.
  specialize (H ltac:(lia)). unfold speller_check in H.
  destruct (_number_to_words_0_999 n false) as [a|] eqn:Ea; [|discriminate].
  destruct (_number_to_words_0_999 n true) as [b|] eqn:Eb; [|discriminate].
  rewrite !andb_true_iff, !Z.leb_le in H.
  destruct f; [exists b | exists a]; (split; [assumption | lia]).
Qed.

Lemma number_to_words_ok (n : Z) :
  0 <= n <= 999999 ->
  exists s, number_to_words_ru_0_999999 n = Ok s /\ 1 <= words_code s <= 1016.
Proof.
  intros Hn. unfold number_to_words_ru_0_999999.
  destruct (Z.eqb_spec n 0) as [->|Hn0].
  { exists (U "НОЛЬ"). split; [reflexivity|]. vm_compute. split; discriminate. }
  destruct (Z.ltb_spec n 1000) as [Hlt|Hge].
  { destruct (speller_ok n false ltac:(lia)) as (s & -> & Hs). exists s. split; [done|lia]. }
  set (tw := if _ : bool then U "ТЫСЯЧ" else _).
  assert (Htw : 1 <= words_code tw <= 136).
  { subst tw. repeat match goal with
                     | |- context [if ?b then _ else _] => destruct b
                     end; vm_compute; split; discriminate. }
  clearbody tw.
  assert (HT : 0 <= n / 1000 <= 999) by (Z.div_mod_to_equations; lia).
  assert (HR : 0 <= n mod 1000 <= 999) by (Z.div_mod_to_equations; lia).
  destruct (speller_ok (n / 1000) true HT) as (a & -> & Ha).
  cbn [rbind].
  destruct (Z.ltb_spec 0 (n mod 1000)) as [Hpos|Hzero].
  - destruct (speller_ok (n mod 1000) false HR) as (c & -> & Hc).
    cbn [rbind app join].
    eexists. split; [reflexivity|].
    rewrite !words_code_app, words_code_space. lia.
  - cbn [rbind join].
    eexists. split; [reflexivity|].
    rewrite !words_code_app, words_code_space. lia.
Qed.

Lemma calc_l2c_ok (l1 : Z) :
  0 <= l1 <= 999999 ->
  exists l2c words glued,
    calc_l2c_from_l1 l1 = Ok (Some l2c, Some words, Some glued, false)
    /\ 1 <= l2c <= 1016.
Proof.
  intros Hl. unfold calc_l2c_from_l1.
  destruct (Z.ltb_spec l1 0); [lia|].
  destruct (Z.ltb_spec 999999 l1); [lia|].
  cbn [orb].
  destruct (number_to_words_ok l1 Hl) as (s & -> & Hs).
  cbn [rbind]. do 3 eexists. split; [reflexivity|]. exact Hs.
Qed.

Lemma calc_l2c_out_of_range (l1 : Z) :
  l1 < 0 \/ 999999 < l1 -> calc_l2c_from_l1 l1 = Ok (None, None, None, true).
Proof.
  intros Hl. unfold calc_l2c_from_l1.
  destruct (Z.ltb_spec l1 0); [reflexivity|].
  destruct (Z.ltb_spec 999999 l1); [reflexivity|lia].
Qed.

(* ================================================================== *)
(** * The letter code *)

Lemma KRYON_MAP_values (c : N) (v : Z) : KRYON_MAP !! c = Some v -> 1 <= v <= 33.
Proof.
  intros H. apply elem_of_list_to_map_2 in H.
  assert (HF : Forall (fun q : N * Z => 1 <= q.2 <= 33)
                 [(ch "А",1);(ch "Б",2);(ch "В",3);(ch "Г",4);(ch "Д",5);(ch "Е",6);(ch "Ё",7);
                  (ch "Ж",8);(ch "З",9);(ch "И",10);(ch "Й",11);
                  (ch "К",12);(ch "Л",13);(ch "М",14);(ch "Н",15);(ch "О",16);(ch "П",17);
                  (ch "Р",18);(ch "С",19);(ch "Т",20);(ch "У",21);
                  (ch "Ф",22);(ch "Х",23);(ch "Ц",24);(ch "Ч",25);(ch "Ш",26);(ch "Щ",27);
                  (ch "Ь",28);(ch "Ы",29);(ch "Ъ",30);(ch "Э",31);(ch "Ю",32);(ch "Я",33)]).
  { repeat (constructor; [cbn [snd]; lia|]). constructor. }
  rewrite Forall_forall in HF. exact (HF (c, v) H).
Qed.

Lemma kryon_bounds (c : N) : 0 <= kryon c <= 33.
Proof.
  unfold kryon. destruct (KRYON_MAP !! c) as [v|] eqn:E; unfold default, from_option, Datatypes.id.
  - apply KRYON_MAP_values in E. lia.
  - lia.
Qed.

Lemma kryon_sum_nonneg (s : pystr) : 0 <= kryon_sum s.
Proof.
  unfold kryon_sum. induction s as [|c s IH]; cbn [fold_right]; [lia|].
  pose proof (kryon_bounds c). lia.
Qed.

Lemma kryon_letter_positive (c : N) : is_kryon_letter c = true -> 1 <= kryon c.
Proof.
  assert (Hall : forallb (fun k => 1 <=? kryon (0x410 + N.of_nat k)) (List.seq 0 32) = true)
    by (vm_compute; reflexivity).
  rewrite forallb_forall in Hall.
  unfold is_kryon_letter. change (ch "А") with 0x410%N. change (ch "Я") with 0x42F%N.
  change (ch "Ё") with 0x401%N.
  intros H. apply orb_true_iff in H as [H|H].
  - apply andb_true_iff in H as [H1 H2].
    apply N.leb_le in H1. apply N.leb_le in H2.
    specialize (Hall (N.to_nat (c - 0x410)) ltac:(apply in_seq; lia)).
    rewrite N2Nat.id in Hall.
    replace (0x410 + (c - 0x410))%N with c in Hall by lia.
    apply Z.leb_le in Hall. exact Hall.
  - apply N.eqb_eq in H. subst c. vm_compute. discriminate.
Qed.

Lemma normalize_letters (t : pystr) : Forall (fun c => is_kryon_letter c = true) (normalize t).
Proof.
  unfold normalize. apply Forall_forall. intros c Hc.
  apply list_elem_of_In, filter_In in Hc. tauto.
Qed.

Lemma kryon_sum_positive (s : pystr) :
  s <> [] -> Forall (fun c => is_kryon_letter c = true) s -> 1 <= kryon_sum s.
Proof.
  intros Hne HF. destruct s as [|c s]; [congruence|].
  inversion HF as [|? ? Hc Hs]; subst.
  unfold kryon_sum. cbn [fold_right].
  pose proof (kryon_letter_positive c Hc).
  pose proof (kryon_sum_nonneg s) as Hs'. unfold kryon_sum in Hs'. lia.
Qed.

Lemma calc_l1_nonneg (s : pystr) : 0 <= snd (calc_l1_from_string s).
Proof.
  unfold calc_l1_from_string.
  destruct (normalize s) as [|c r] eqn:E; cbn [snd]; [lia|].
  apply kryon_sum_nonneg.
Qed.

(* ================================================================== *)
(** * Metrics *)

Lemma metrics_ok (cfg : Config) (l1 l2c : Z) :
  sigma_nonzero cfg -> l1 <> 0 -> l2c + l1 <> 0 ->
  exists C Hm Zv,
    metrics cfg l1 l2c = Ok ((inject_Z l2c / inject_Z l1)%Q, C, Hm, Zv)
    /\ in_unit C /\ (0 <= Hm <= 1)%Q /\ in_unit Zv.
Proof.
  intros Hs H1 H2. unfold metrics.
  destruct (Z.eqb_spec l1 0) as [?|_]; [contradiction|].
  destruct (Z.eqb_spec (l2c + l1) 0) as [?|_]; [contradiction|].
  destruct (Qeq_bool (sigma_Z cfg) 0) eqn:E.
  { apply Qeq_bool_iff in E. contradiction. }
  do 3 eexists. split; [reflexivity|]. split; [|split].
  - unfold in_unit.
    match goal with |- (0 <= cos ?x ^ 2 <= 1)%R => pose proof (COS_bound x) end.
    nra.
  - split.
    + apply Q.le_max_l.
    + apply Q.max_lub; [discriminate|apply Q.le_min_l].
  - unfold in_unit. split.
    + apply Rmax_l.
    + apply Rmax_lub; [lra|apply Rmin_l].
Qed.

Lemma metrics_zero_l1 (cfg : Config) (l2c : Z) : metrics cfg 0 l2c = Raise ZeroDivisionError.
Proof. reflexivity. Qed.

(* ================================================================== *)
(** * The unfolding loop *)

Lemma unfold_loop_full (cfg : Config) (n : nat) :
  sigma_nonzero cfg ->
  forall (l1 : Z) (acc : list Q),
    1 <= l1 <= 999999 ->
    exists ws, unfold_loop cfg n l1 acc = Ok ws /\ length ws = (length acc + n)%nat.
Proof.
  intros Hs. induction n as [|n IH]; intros l1 acc Hl.
  - exists acc. split; [reflexivity|lia].
  - cbn [unfold_loop].
    destruct (calc_l2c_ok l1 ltac:(lia)) as (l2c & words & glued & -> & Hl2c).
    cbn [rbind].
    destruct (metrics_ok cfg l1 l2c Hs ltac:(lia) ltac:(lia)) as (C & Hm & Zv & -> & _).
    cbn [rbind].
    destruct (IH l2c (acc ++ [(inject_Z l2c / inject_Z l1)%Q]) ltac:(lia))
      as (ws & Hws & Hlen).
    exists ws. split; [exact Hws|].
    rewrite Hlen, length_app. cbn [length]. lia.
Qed.

Lemma unfold_loop_bound (cfg : Config) (n : nat) :
  forall (l1 : Z) (acc ws : list Q),
    unfold_loop cfg n l1 acc = Ok ws ->
    (length acc <= length ws <= length acc + n)%nat.
Proof.
  induction n as [|n IH]; intros l1 acc ws H.
  - cbn [unfold_loop] in H. injection H as <-. lia.
  - cbn [unfold_loop] in H.
    destruct (calc_l2c_from_l1 l1) as [[[[o1 o2] o3] b]|e]; cbn [rbind] in H;
      [|discriminate].
    destruct o1 as [l2c|]; [|injection H as <-; lia].
    destruct b; [injection H as <-; lia|].
    destruct (metrics cfg l1 l2c) as [[[[w C] Hm] Zv]|e]; cbn [rbind] in H;
      [|discriminate].
    apply IH in H. rewrite length_app in H. cbn [length] in H. lia.
Qed.


Lemma chain_in_range_head (n : nat) (l1 : Z) :
  chain_in_range (S n) l1 = true -> 0 <= l1 <= 999999.
Proof.
  cbn [chain_in_range]. rewrite !andb_true_iff, !Z.leb_le. tauto.
Qed.

Lemma default_sigma_nonzero : sigma_nonzero DEFAULT_CONFIG.
Proof. intros H. vm_compute in H. discriminate H. Qed.

Lemma cluster_advice_ok (w : Q) :
  exists adv, dict_getitem CLUSTER_ADVICES (fst (cluster_by_w w)) = Ok adv.
Proof.
  unfold cluster_by_w, dict_getitem.
  repeat match goal with
         | |- context [if ?b then (_, _) else _] => destruct b
         end; cbn [fst];
    match goal with
    | |- context [CLUSTER_ADVICES !! ?k] =>
      destruct (CLUSTER_ADVICES !! k) as [adv|] eqn:E;
        [exists adv; reflexivity | vm_compute in E; discriminate E]
    end.
Qed.

Lemma fractal_unfold_ok (cfg : Config) (l1 : Z) :
  sigma_nonzero cfg -> 1 <= l1 <= 999999 ->
  exists fr, fractal_unfold cfg l1 = Ok fr.
Proof.
  intros Hs Hl. unfold fractal_unfold, fractal_w_values.
  destruct (unfold_loop_full cfg 12 Hs l1 [] Hl) as (ws & -> & _).
  cbn [rbind]. destruct ws; eexists; reflexivity.
Qed.

Lemma analyze_word_total (pdp : pystr -> option pystr) (cfg : Config) (raw : pystr) :
  sigma_nonzero cfg ->
  exists o, analyze_word pdp cfg raw = Ok o
    /\ (snd (calc_l1_from_string (phrase_used pdp raw)) = 0 -> o = None)
    /\ (1 <= snd (calc_l1_from_string (phrase_used pdp raw)) <= 999999 ->
        exists res, o = Some res
          /\ a_l1 res = snd (calc_l1_from_string (phrase_used pdp raw))).
Proof.
  intros Hs. unfold analyze_word.
  pose proof (calc_l1_nonneg (phrase_used pdp raw)) as Hnn.
  destruct (calc_l1_from_string (phrase_used pdp raw)) as [norm l1].
  cbn [snd] in *.
  destruct (Z.eqb_spec l1 0) as [->|Hne].
  { exists None. split; [reflexivity|]. split; [reflexivity|lia]. }
  destruct (Z_le_gt_dec l1 999999) as [Hle|Hgt].
  - destruct (calc_l2c_ok l1 ltac:(lia)) as (l2c & words & glued & -> & Hl2c).
    cbn [rbind].
    destruct (metrics_ok cfg l1 l2c Hs ltac:(lia) ltac:(lia)) as (C & Hm & Zv & -> & _).
    cbn [rbind].
    destruct (cluster_advice_ok (inject_Z l2c / inject_Z l1)%Q) as (adv & Hadv).
    destruct (cluster_by_w (inject_Z l2c / inject_Z l1)%Q) as [code ru].
    cbn [fst] in Hadv. rewrite Hadv. cbn [rbind].
    destruct adv as [cname advice].
    destruct (fractal_unfold_ok cfg l1 Hs ltac:(lia)) as (fr & ->).
    cbn [rbind].
    destruct (fii_bar _) as [fii_b fii_cat].
    eexists. split; [reflexivity|]. split; [lia|].
    intros _. eexists. split; reflexivity.
  - rewrite calc_l2c_out_of_range by lia. cbn [rbind].
    exists None. split; [reflexivity|]. split; [lia|lia].
Qed.

Lemma metrics_zero_sigma (cfg : Config) (l1 l2c : Z) :
  (sigma_Z cfg == 0)%Q -> l1 <> 0 -> l2c + l1 <> 0 ->
  metrics cfg l1 l2c = Raise ZeroDivisionError.
Proof.
  intros Hs H1 H2. unfold metrics.
  replace (l1 =? 0) with false by (symmetry; apply Z.eqb_neq, H1).
  replace (l2c + l1 =? 0) with false by (symmetry; apply Z.eqb_neq, H2).
  cbv zeta. apply Qeq_bool_iff in Hs. rewrite Hs. reflexivity.
Qed.

Lemma analyze_word_zero_sigma (pdp : pystr -> option pystr) (cfg : Config) (raw : pystr) :
  (sigma_Z cfg == 0)%Q ->
  1 <= snd (calc_l1_from_string (phrase_used pdp raw)) <= 999999 ->
  analyze_word pdp cfg raw = Raise ZeroDivisionError.
Proof.
  intros Hs Hl. unfold analyze_word.
  destruct (calc_l1_from_string (phrase_used pdp raw)) as [norm l1].
  cbn [snd] in Hl.
  replace (l1 =? 0) with false by (symmetry; apply Z.eqb_neq; lia).
  destruct (calc_l2c_ok l1 ltac:(lia)) as (l2c & words & glued & -> & Hl2c).
  cbn [rbind].
  rewrite (metrics_zero_sigma cfg l1 l2c Hs ltac:(lia) ltac:(lia)). reflexivity.
Qed.

(* ================================================================== *)
(** * The encoding engine on in-range codes *)

(** C1, at a configuration that refutes it: [set_cfg_values] stores
    [float(sigma)] without a check, and under [sigma_Z = 0] the in-range
    code 42 of the word [МИР] is spelled, but [metrics] raises
    [ZeroDivisionError] instead of returning the four metrics, and so does
    [analyze_word]. *)
Theorem encoding_engine_zero_sigma :
  0 <= 42 <= 999999
  /\ calc_l1_from_string (U "МИР") = (Some (U "МИР"), 42)
  /\ (exists l2c words glued,
        calc_l2c_from_l1 42 = Ok (Some l2c, Some words, Some glued, false)
        /\ metrics ZERO_SIGMA_CONFIG 42 l2c = Raise ZeroDivisionError
        /\ ~ (exists w C Hm Zv, metrics ZERO_SIGMA_CONFIG 42 l2c = Ok (w, C, Hm, Zv)))
  /\ analyze_word (fun _ => None) ZERO_SIGMA_CONFIG (U "МИР") = Raise ZeroDivisionError.
Proof.
  assert (E1 : calc_l1_from_string (U "МИР") = (Some (U "МИР"), 42))
    by (vm_compute; reflexivity).
  assert (Hz : (sigma_Z ZERO_SIGMA_CONFIG == 0)%Q) by reflexivity.
  split; [lia|]. split; [exact E1|]. split.
  - destruct (calc_l2c_ok 42 ltac:(lia)) as (l2c & words & glued & Hc & Hr).
    exists l2c, words, glued. split; [exact Hc|].
    pose proof (metrics_zero_sigma ZERO_SIGMA_CONFIG 42 l2c Hz ltac:(lia) ltac:(lia)) as E.
    split; [exact E|]. intros (w & C & Hm & Zv & F). rewrite E in F. discriminate F.
  - apply analyze_word_zero_sigma; [exact Hz|].
    change (phrase_used (fun _ : pystr => None) (U "МИР")) with (U "МИР").
    rewrite E1. cbn [snd]. lia.
Qed.

(** C1, amended.  For every [l1] with [0 <= l1 <= 999999] the encoding
    engine ends in one of these ways: [calc_l2c_from_l1] returns an [l2c],
    and then for [l1 = 0] the division [w = l2c / l1] of [metrics] fails
    with [ZeroDivisionError] (the DivisionUndefined error); for every
    [l1 >= 1] the four metrics are returned when the configured [sigma_Z],
    the other divisor of [metrics], is not zero, and [ZeroDivisionError]
    is raised when it is zero.  In [analyze_word] the case [l1 = 0] is
    answered with the empty result before [metrics] is reached; under a
    non-zero [sigma_Z] the call never raises, and under [sigma_Z = 0] it
    raises [ZeroDivisionError] for every [l1 >= 1]. *)
Theorem encoding_engine_outcome (cfg : Config) (l1 : Z) :
  0 <= l1 <= 999999 ->
  exists l2c words glued,
    calc_l2c_from_l1 l1 = Ok (Some l2c, Some words, Some glued, false)
    /\ (l1 = 0 -> metrics cfg l1 l2c = Raise ZeroDivisionError)
    /\ (sigma_nonzero cfg -> 1 <= l1 ->
        exists w C Hm Zv, metrics cfg l1 l2c = Ok (w, C, Hm, Zv))
    /\ (sigma_nonzero cfg ->
        forall pdp raw,
          snd (calc_l1_from_string (phrase_used pdp raw)) = l1 ->
          exists o, analyze_word pdp cfg raw = Ok o
            /\ (l1 = 0 -> o = None)
            /\ (1 <= l1 -> exists res, o = Some res /\ a_l1 res = l1))
    /\ ((sigma_Z cfg == 0)%Q -> 1 <= l1 ->
        metrics cfg l1 l2c = Raise ZeroDivisionError)
    /\ ((sigma_Z cfg == 0)%Q ->
        forall pdp raw,
          snd (calc_l1_from_string (phrase_used pdp raw)) = l1 ->
          (l1 = 0 -> analyze_word pdp cfg raw = Ok None)
          /\ (1 <= l1 -> analyze_word pdp cfg raw = Raise ZeroDivisionError)).
Proof.
  intros Hl.
  destruct (calc_l2c_ok l1 Hl) as (l2c & words & glued & Hc & Hl2c).
  exists l2c, words, glued. split; [exact Hc|]. split; [|split; [|split; [|split]]].
  - intros ->. apply metrics_zero_l1.
  - intros Hs H1.
    destruct (metrics_ok cfg l1 l2c Hs ltac:(lia) ltac:(lia)) as (C & Hm & Zv & Hm' & _).
    eauto.
  - intros Hs pdp raw Hsrc.
    destruct (analyze_word_total pdp cfg raw Hs) as (o & Ho & H0 & H1).
    rewrite Hsrc in H0, H1.
    exists o. split; [exact Ho|]. split; [exact H0|].
    intros Hge. apply H1. lia.
  - intros Hz H1. apply metrics_zero_sigma; [exact Hz|lia|lia].
  - intros Hz pdp raw Hsrc. split.
    + intros ->. unfold analyze_word.
      destruct (calc_l1_from_string (phrase_used pdp raw)) as [norm l1'].
      cbn [snd] in Hsrc. subst l1'. reflexivity.
    + intros H1. apply analyze_word_zero_sigma; [exact Hz|]. rewrite Hsrc. lia.
Qed.

Lemma encoding_engine_outcome_witness :
  exists l2c w C Hm Zv,
    calc_l2c_from_l1 111 = Ok (Some l2c, Some (U "СТО ОДИННАДЦАТЬ"),
                               Some (U "СТООДИННАДЦАТЬ"), false)
    /\ metrics DEFAULT_CONFIG 111 l2c = Ok (w, C, Hm, Zv).
Proof.
  destruct (encoding_engine_outcome DEFAULT_CONFIG 111 ltac:(lia))
    as (l2c & words & glued & Hc & _ & Hm & _).
  destruct (Hm default_sigma_nonzero ltac:(lia)) as (w & C & Hm' & Zv & E).
  exists l2c, w, C, Hm', Zv. split; [|exact E].
  rewrite Hc.
  assert (E2 : calc_l2c_from_l1 111
               = Ok (Some 195, Some (U "СТО ОДИННАДЦАТЬ"), Some (U "СТООДИННАДЦАТЬ"), false))
    by (vm_compute; reflexivity).
  rewrite E2 in Hc. injection Hc as <- <- <-. reflexivity.
Defined.

(** C2.  [calc_l2c_from_l1] returns a successful result (flag [False], a
    defined [l2c]) for every [l1] with [0 <= l1 <= 999999], and the
    out-of-range result [(None, None, None, True)] for [l1 = 1000000] and
    for [l1 = -1]; in neither case is an exception raised. *)
Theorem calc_l2c_from_l1_boundary (l1 : Z) :
  (0 <= l1 <= 999999 ->
   exists l2c words glued,
     calc_l2c_from_l1 l1 = Ok (Some l2c, Some words, Some glued, false))
  /\ (l1 = 1000000 \/ l1 = -1 ->
      calc_l2c_from_l1 l1 = Ok (None, None, None, true)).
Proof.
  split.
  - intros Hl. destruct (calc_l2c_ok l1 Hl) as (l2c & words & glued & Hc & _). eauto.
  - intros H. apply calc_l2c_out_of_range. lia.
Qed.

Lemma calc_l2c_from_l1_boundary_witness :
  (exists l2c words glued,
     calc_l2c_from_l1 999999 = Ok (Some l2c, Some words, Some glued, false))
  /\ calc_l2c_from_l1 1000000 = Ok (None, None, None, true)
  /\ calc_l2c_from_l1 (-1) = Ok (None, None, None, true).
Proof.
  split; [|split].
  - apply (proj1 (calc_l2c_from_l1_boundary 999999)). lia.
  - apply (proj2 (calc_l2c_from_l1_boundary 1000000)). left. reflexivity.
  - apply (proj2 (calc_l2c_from_l1_boundary (-1))). right. reflexivity.
Defined.

(** C8, at a configuration that refutes it: under [sigma_Z = 0], which
    [set_cfg_values] stores without a check, [metrics(111, 195)] raises
    [ZeroDivisionError] and returns no [C], [Hm] and [Z]. *)
Theorem metrics_zero_sigma_raises :
  1 <= 111 /\ 0 <= 195
  /\ metrics ZERO_SIGMA_CONFIG 111 195 = Raise ZeroDivisionError
  /\ ~ (exists w C Hm Zv,
          metrics ZERO_SIGMA_CONFIG 111 195 = Ok (w, C, Hm, Zv)
          /\ (0 <= C <= 1)%R /\ (0 <= Hm <= 1)%Q /\ (0 <= Zv <= 1)%R).
Proof.
  assert (E : metrics ZERO_SIGMA_CONFIG 111 195 = Raise ZeroDivisionError).
  { apply metrics_zero_sigma; [reflexivity|lia|lia]. }
  split; [lia|]. split; [lia|]. split; [exact E|].
  intros (w & C & Hm & Zv & F & _). rewrite E in F. discriminate F.
Qed.

(** C8, amended.  Under exact arithmetic, for all integers [l1 >= 1] and
    [l2c >= 0]: when the configured [sigma_Z] is not zero the call
    [metrics(l1, l2c)] returns, and its [C], [Hm] and [Z] lie in [0, 1];
    when [sigma_Z] is zero the call raises [ZeroDivisionError]; and
    whatever the configuration, a [C], [Hm] and [Z] that are returned lie
    in [0, 1]. *)
Theorem metrics_unit_range (cfg : Config) (l1 l2c : Z) :
  1 <= l1 ->
  0 <= l2c ->
  (sigma_nonzero cfg ->
   exists w C Hm Zv,
     metrics cfg l1 l2c = Ok (w, C, Hm, Zv)
     /\ (0 <= C <= 1)%R /\ (0 <= Hm <= 1)%Q /\ (0 <= Zv <= 1)%R)
  /\ ((sigma_Z cfg == 0)%Q -> metrics cfg l1 l2c = Raise ZeroDivisionError)
  /\ (forall w C Hm Zv,
        metrics cfg l1 l2c = Ok (w, C, Hm, Zv) ->
        (0 <= C <= 1)%R /\ (0 <= Hm <= 1)%Q /\ (0 <= Zv <= 1)%R).
Proof.
  intros H1 H2.
  assert (Hok : sigma_nonzero cfg ->
                exists w C Hm Zv,
                  metrics cfg l1 l2c = Ok (w, C, Hm, Zv)
                  /\ (0 <= C <= 1)%R /\ (0 <= Hm <= 1)%Q /\ (0 <= Zv <= 1)%R).
  { intros Hs.
    destruct (metrics_ok cfg l1 l2c Hs ltac:(lia) ltac:(lia))
      as (C & Hm & Zv & E & HC & HH & HZ).
    exists (inject_Z l2c / inject_Z l1)%Q, C, Hm, Zv. auto. }
  split; [exact Hok|]. split.
  - intros Hz. apply metrics_zero_sigma; [exact Hz|lia|lia].
  - intros w C Hm Zv E.
    destruct (Qeq_dec (sigma_Z cfg) 0) as [Hz|Hs].
    + rewrite (metrics_zero_sigma cfg l1 l2c Hz ltac:(lia) ltac:(lia)) in E.
      discriminate E.
    + destruct (Hok Hs) as (w' & C' & Hm' & Zv' & E' & R).
      rewrite E in E'. injection E' as <- <- <- <-. exact R.
Qed.

Lemma metrics_unit_range_witness :
  exists w C Hm Zv,
    metrics DEFAULT_CONFIG 111 195 = Ok (w, C, Hm, Zv)
    /\ (0 <= C <= 1)%R /\ (0 <= Hm <= 1)%Q /\ (0 <= Zv <= 1)%R.
Proof.
  destruct (metrics_unit_range DEFAULT_CONFIG 111 195 ltac:(lia) ltac:(lia)) as (H & _).
  apply H. exact default_sigma_nonzero.
Defined.

(* ================================================================== *)
(** * Fractal unfolding *)

(** C6, at the input that refutes it: the code 0 and every later code of
    the recurrence lie in [0, 999999], yet [fractal_unfold(0)] does not
    append 12 values: its first call of [metrics] raises. *)
Lemma fractal_unfold_zero_raises :
  chain_in_range 12 0 = true
  /\ fractal_w_values DEFAULT_CONFIG 0 = Raise ZeroDivisionError
  /\ ~ (exists ws, fractal_w_values DEFAULT_CONFIG 0 = Ok ws /\ length ws = 12%nat).
Proof.
  split; [vm_compute; reflexivity|].
  assert (H : fractal_w_values DEFAULT_CONFIG 0 = Raise ZeroDivisionError)
    by (vm_compute; reflexivity).
  split; [exact H|].
  intros (ws & Hws & _). rewrite H in Hws. discriminate Hws.
Qed.

(** C6, amended.  [fractal_unfold] runs its loop at most 12 times, so a
    W-sequence it produces has at most 12 points; and when the initial
    [l1] is at least 1 and it and every intermediate L2C lie in
    [0, 999999], under a non-zero [sigma_Z], exactly 12 values are
    appended. *)
Theorem fractal_unfold_steps (cfg : Config) (l1 : Z) :
  (forall ws, fractal_w_values cfg l1 = Ok ws -> (length ws <= 12)%nat)
  /\ (sigma_nonzero cfg -> 1 <= l1 -> chain_in_range 12 l1 = true ->
      exists ws, fractal_w_values cfg l1 = Ok ws /\ length ws = 12%nat).
Proof.
  split.
  - intros ws H. apply unfold_loop_bound in H. cbn [length] in H. lia.
  - intros Hs H1 Hc. apply chain_in_range_head in Hc.
    destruct (unfold_loop_full cfg 12 Hs l1 [] ltac:(lia)) as (ws & Hws & Hlen).
    exists ws. split; [exact Hws|]. rewrite Hlen. reflexivity.
Qed.

Lemma fractal_unfold_steps_witness :
  exists ws, fractal_w_values DEFAULT_CONFIG 111 = Ok ws /\ length ws = 12%nat.
Proof.
  apply (proj2 (fractal_unfold_steps DEFAULT_CONFIG 111)).
  - exact default_sigma_nonzero.
  - lia.
  - vm_compute. reflexivity.
Defined.



(* ================================================================== *)
(** * Clusters *)

Lemma Qlt_bool_iff (x y : Q) : Qlt_bool x y = true <-> (x < y)%Q.
Proof.
  unfold Qlt_bool. rewrite negb_true_iff. split.
  - intros H. apply Qnot_le_lt. intros Hle. apply Qle_bool_iff in Hle. congruence.
  - intros H. destruct (Qle_bool y x) eqn:E; [|reflexivity].
    apply Qle_bool_iff in E. exfalso. exact (Qlt_not_le _ _ H E).
Qed.

Lemma bin_test (lo hi w : Q) :
  Qle_bool lo w && Qlt_bool w hi = true <-> (lo <= w /\ w < hi)%Q.
Proof. rewrite andb_true_iff, Qle_bool_iff, Qlt_bool_iff. reflexivity. Qed.

Lemma bin_test_false (lo hi w : Q) :
  Qle_bool lo w && Qlt_bool w hi = false <-> (w < lo \/ hi <= w)%Q.
Proof.
  rewrite andb_false_iff. split.
  - intros [H|H].
    + left. apply Qnot_le_lt. intros Hle. apply Qle_bool_iff in Hle. congruence.
    + right. apply Qnot_lt_le. intros Hlt. apply Qlt_bool_iff in Hlt. congruence.
  - intros [H|H].
    + left. destruct (Qle_bool lo w) eqn:E; [|reflexivity].
      apply Qle_bool_iff in E. exfalso. exact (Qlt_not_le _ _ H E).
    + right. destruct (Qlt_bool w hi) eqn:E; [|reflexivity].
      apply Qlt_bool_iff in E. exfalso. exact (Qlt_not_le _ _ E H).
Qed.

(** The four equivalences of a bin statement, once the branch taken is
    known: an equation between two labels is decided by evaluation, a
    condition on [w] by linear arithmetic. *)
Ltac solve_bins :=
  split; [|split; [|split]]; split; intros H;
  first [ reflexivity
        | (vm_compute in H; discriminate H)
        | (exfalso; Lqa.lra)
        | Lqa.lra ].

(** What [cluster_by_w] computes: the three inner bins are as stated, and
    ["pi"] is the answer on [3.2, oo) and also on every [w < 1.0]. *)
Lemma cluster_by_w_bins (w : Q) :
  (fst (cluster_by_w w) = U "phi" <-> (1.0 <= w /\ w < 1.6)%Q)
  /\ (fst (cluster_by_w w) = U "e" <-> (1.6 <= w /\ w < 2.7)%Q)
  /\ (fst (cluster_by_w w) = U "e-pi" <-> (2.7 <= w /\ w < 3.2)%Q)
  /\ (fst (cluster_by_w w) = U "pi" <-> (w < 1.0 \/ 3.2 <= w)%Q).
Proof.
  unfold cluster_by_w.
  destruct (Qle_bool 1.0 w && Qlt_bool w 1.6) eqn:E1.
  { apply bin_test in E1. cbn [fst]. solve_bins. }
  apply bin_test_false in E1.
  destruct (Qle_bool 1.6 w && Qlt_bool w 2.7) eqn:E2.
  { apply bin_test in E2. cbn [fst]. solve_bins. }
  apply bin_test_false in E2.
  destruct (Qle_bool 2.7 w && Qlt_bool w 3.2) eqn:E3.
  { apply bin_test in E3. cbn [fst]. solve_bins. }
  apply bin_test_false in E3. cbn [fst]. solve_bins.
Qed.

(** C5, at the input where the code leaves the stated bins: [w = 0.5] is
    below every bin, and [cluster_by_w] answers ["pi"], which the claim
    reserves for [w >= 3.2]; [clusters_from_w] answers ["phi"] there.  Such
    a [w] is met in an analysis: the code 500 has [l2c = 153]. *)
Theorem cluster_by_w_below_one :
  fst (cluster_by_w 0.5) = U "pi"
  /\ ~ (3.2 <= 0.5)%Q
  /\ clusters_from_w 0.5 = U "phi"
  /\ (exists words glued C Hm Zv,
        calc_l2c_from_l1 500 = Ok (Some 153, Some words, Some glued, false)
        /\ metrics DEFAULT_CONFIG 500 153 = Ok ((inject_Z 153 / inject_Z 500)%Q, C, Hm, Zv)
        /\ fst (cluster_by_w (inject_Z 153 / inject_Z 500)) = U "pi").
Proof.
  split; [vm_compute; reflexivity|]. split; [|split; [vm_compute; reflexivity|]].
  - intros H. vm_compute in H. apply H. reflexivity.
  - destruct (metrics_ok DEFAULT_CONFIG 500 153 default_sigma_nonzero
                ltac:(lia) ltac:(lia)) as (C & Hm & Zv & E & _).
    exists (U "ПЯТЬСОТ"), (U "ПЯТЬСОТ"), C, Hm, Zv.
    split; [vm_compute; reflexivity|]. split; [exact E|vm_compute; reflexivity].
Qed.

(* ================================================================== *)
(** * FII *)

Lemma metrics_result_range (cfg : Config) (l1 l2c : Z) (w : Q) (C : R) (Hm : Q) (Zv : R) :
  metrics cfg l1 l2c = Ok (w, C, Hm, Zv) ->
  in_unit C /\ in_unit (Q2R Hm) /\ in_unit Zv.
Proof.
  intros H.
  assert (H1 : l1 <> 0).
  { intros ->. rewrite metrics_zero_l1 in H. discriminate H. }
  assert (H2 : l2c + l1 <> 0).
  { intros E. unfold metrics in H.
    destruct (l1 =? 0); [discriminate H|]. rewrite E in H. discriminate H. }
  assert (Hs : sigma_nonzero cfg).
  { intros E. unfold metrics in H.
    destruct (l1 =? 0); [discriminate H|].
    destruct (l2c + l1 =? 0); [discriminate H|].
    apply Qeq_bool_iff in E. rewrite E in H. discriminate H. }
  destruct (metrics_ok cfg l1 l2c Hs H1 H2) as (C' & Hm' & Zv' & E & HC & HH & HZ).
  rewrite E in H. injection H as <- <- <- <-.
  split; [exact HC|]. split; [|exact HZ].
  unfold in_unit. destruct HH as [Hlo Hhi].
  apply Qreals.Qle_Rle in Hlo. apply Qreals.Qle_Rle in Hhi.
  rewrite RMicromega.Q2R_0 in Hlo. rewrite RMicromega.Q2R_1 in Hhi. lra.
Qed.

Lemma fii_of_range (Zv C Hm : R) :
  in_unit Zv -> in_unit C -> in_unit Hm -> (-5 <= fii_of Zv C Hm <= 5)%R.
Proof. unfold in_unit, fii_of, q_total_of. intros. lra. Qed.

Lemma fii_bar_middle (fii : R) :
  (-5 <= fii <= 5)%R ->
  snd (fii_bar fii) <> CAT_DESTROYER /\ snd (fii_bar fii) <> CAT_RESONATOR.
Proof.
  intros H. unfold fii_bar. cbn [snd].
  destruct (Rle_dec fii (-6)); [lra|].
  destruct (Rle_dec fii (-2)).
  { split; intros E; vm_compute in E; discriminate E. }
  destruct (Rlt_dec fii 2).
  { split; intros E; vm_compute in E; discriminate E. }
  destruct (Rlt_dec fii 6); [|lra].
  split; intros E; vm_compute in E; discriminate E.
Qed.

(** C9.  For [Z], [C], [Hm] in [0, 1] the composite
    [FII = 10 * (0.4 Z + 0.3 Q + 0.2 C + 0.1 Hm - 0.5)] with
    [Q = (Z + C + Hm) / 3] lies in [-5, 5], so [fii_bar] gives neither the
    category [Разрушитель] nor [Резонатор]; every report of
    [analyze_word] has such an FII and such a category. *)
Theorem fii_never_extreme (Zv C Hm : R) :
  (0 <= Zv <= 1)%R -> (0 <= C <= 1)%R -> (0 <= Hm <= 1)%R ->
  (-5 <= fii_of Zv C Hm <= 5)%R
  /\ snd (fii_bar (fii_of Zv C Hm)) <> CAT_DESTROYER
  /\ snd (fii_bar (fii_of Zv C Hm)) <> CAT_RESONATOR
  /\ (forall pdp cfg raw res,
        analyze_word pdp cfg raw = Ok (Some res) ->
        a_fii res = fii_of (a_Z res) (a_C res) (Q2R (a_Hm res))
        /\ (-5 <= a_fii res <= 5)%R
        /\ a_fii_category res = snd (fii_bar (a_fii res))
        /\ a_fii_category res <> CAT_DESTROYER
        /\ a_fii_category res <> CAT_RESONATOR).
Proof.
  intros HZ HC HH.
  pose proof (fii_of_range Zv C Hm HZ HC HH) as Hr.
  split; [exact Hr|].
  destruct (fii_bar_middle _ Hr) as [Hd Hres].
  split; [exact Hd|]. split; [exact Hres|].
  intros pdp cfg raw res H. unfold analyze_word in H.
  destruct (calc_l1_from_string (phrase_used pdp raw)) as [norm l1].
  destruct (l1 =? 0); [discriminate H|].
  destruct (calc_l2c_from_l1 l1) as [[[[o1 o2] o3] b]|e]; cbn [rbind] in H;
    [|discriminate H].
  destruct o1 as [l2c|]; [|discriminate H].
  destruct b; [discriminate H|].
  destruct (metrics cfg l1 l2c) as [[[[w C'] Hm'] Zv']|e] eqn:Em; cbn [rbind] in H;
    [|discriminate H].
  apply metrics_result_range in Em as (HC' & HH' & HZ').
  destruct (cluster_by_w w) as [code ru].
  destruct (dict_getitem CLUSTER_ADVICES code) as [[cname advice]|e]; cbn [rbind] in H;
    [|discriminate H].
  destruct (fractal_unfold cfg l1) as [fr|e]; cbn [rbind] in H; [|discriminate H].
  destruct (fii_bar (fii_of Zv' C' (Q2R Hm'))) as [fii_b fii_cat] eqn:Eb.
  injection H as <-. cbn [a_fii a_Z a_C a_Hm a_fii_category].
  pose proof (fii_of_range Zv' C' (Q2R Hm') HZ' HC' HH') as Hr'.
  destruct (fii_bar_middle _ Hr') as [Hd' Hres'].
  rewrite Eb in *. cbn [snd] in *. auto.
Qed.

Lemma fii_never_extreme_witness :
  (-5 <= fii_of 1 1 1 <= 5)%R
  /\ snd (fii_bar (fii_of 1 1 1)) <> CAT_DESTROYER
  /\ snd (fii_bar (fii_of 1 1 1)) <> CAT_RESONATOR
  /\ (forall pdp cfg raw res,
        analyze_word pdp cfg raw = Ok (Some res) ->
        a_fii res = fii_of (a_Z res) (a_C res) (Q2R (a_Hm res))
        /\ (-5 <= a_fii res <= 5)%R
        /\ a_fii_category res = snd (fii_bar (a_fii res))
        /\ a_fii_category res <> CAT_DESTROYER
        /\ a_fii_category res <> CAT_RESONATOR).
Proof.
  apply (fii_never_extreme 1 1 1); lra.
Defined.

(* ================================================================== *)
(** * The library index *)

Lemma index_add_member (idx : gmap Z (list pystr)) (code : Z) (word : pystr) :
  exists ws, index_add idx code word !! code = Some ws /\ word ∈ ws.
Proof.
  unfold index_add. destruct (idx !! code) as [ws|] eqn:E.
  - rewrite E. case_bool_decide as Hin.
    + exists ws. split; [exact E|exact Hin].
    + exists (ws ++ [word]). rewrite lookup_insert_eq. split; [reflexivity|].
      apply elem_of_app. right. apply list_elem_of_singleton. reflexivity.
  - rewrite lookup_insert_eq. case_bool_decide as Hin.
    + exists []. rewrite lookup_insert_eq. split; [reflexivity|exact Hin].
    + exists ([] ++ [word]). rewrite lookup_insert_eq. split; [reflexivity|].
      apply list_elem_of_singleton. reflexivity.
Qed.

Lemma index_add_preserve (idx : gmap Z (list pystr)) (code : Z) (word : pystr)
    (c : Z) (w : pystr) (ws : list pystr) :
  idx !! c = Some ws -> w ∈ ws ->
  exists ws', index_add idx code word !! c = Some ws' /\ w ∈ ws'.
Proof.
  intros Hc Hw. unfold index_add.
  destruct (decide (code = c)) as [->|Hne].
  - rewrite Hc. cbv beta iota. rewrite Hc. case_bool_decide as Hin.
    + exists ws. split; [exact Hc|exact Hw].
    + exists (ws ++ [word]). rewrite lookup_insert_eq. split; [reflexivity|].
      apply elem_of_app. left. exact Hw.
  - destruct (idx !! code) as [ws0|] eqn:E.
    + rewrite E. case_bool_decide as Hin.
      * exists ws. split; [exact Hc|exact Hw].
      * exists ws. rewrite lookup_insert_ne by exact Hne. split; [exact Hc|exact Hw].
    + rewrite lookup_insert_eq. case_bool_decide as Hin.
      * exists ws. rewrite lookup_insert_ne by exact Hne. split; [exact Hc|exact Hw].
      * exists ws. rewrite !lookup_insert_ne by exact Hne. split; [exact Hc|exact Hw].
Qed.

Lemma R_trunc_IZR (z : Z) : R_trunc (IZR z) = z.
Proof.
  unfold R_trunc. destruct (Rle_dec 0 (IZR z)) as [H|H].
  - symmetry. apply Int_part_spec. lra.
  - rewrite <- opp_IZR.
    assert (E : - z = Int_part (IZR (- z))) by (apply Int_part_spec; lra).
    lia.
Qed.

Section IndexFacts.

Variable float_of_str : pystr -> result pyfloat.

Lemma int_float_int (z : Z) : int_float float_of_str (VInt z) = Ok z.
Proof. unfold int_float, py_float, py_int. cbn [rbind]. rewrite R_trunc_IZR. reflexivity. Qed.

Lemma index_try_member (idx : gmap Z (list pystr)) (v : pyval) (word : pystr) (V : Z) :
  is_missing v = false -> int_float float_of_str v = Ok V ->
  exists ws, index_try float_of_str idx v word !! V = Some ws /\ word ∈ ws.
Proof.
  intros Hm Hv. unfold index_try. rewrite Hm, Hv. apply index_add_member.
Qed.

Lemma index_try_preserve (idx : gmap Z (list pystr)) (v : pyval) (word : pystr)
    (c : Z) (w : pystr) (ws : list pystr) :
  idx !! c = Some ws -> w ∈ ws ->
  exists ws', index_try float_of_str idx v word !! c = Some ws' /\ w ∈ ws'.
Proof.
  intros Hc Hw. unfold index_try.
  destruct (is_missing v); [eauto|].
  destruct (int_float float_of_str v) as [code|e]; [|eauto].
  apply (index_add_preserve idx code word c w ws Hc Hw).
Qed.

Lemma index_try_skip (idx : gmap Z (list pystr)) (v : pyval) (word : pystr) :
  is_missing v = true \/ (exists e, int_float float_of_str v = Raise e) ->
  index_try float_of_str idx v word = idx.
Proof.
  intros [H|[e H]]; unfold index_try.
  - rewrite H. reflexivity.
  - rewrite H. destruct (is_missing v); reflexivity.
Qed.

Lemma index_row_preserve (st : IndexState) (r : Row) (c : Z) (w : pystr) :
  ((exists ws, INDEX_L1 st !! c = Some ws /\ w ∈ ws) ->
   exists ws, INDEX_L1 (index_row float_of_str st r) !! c = Some ws /\ w ∈ ws)
  /\ ((exists ws, INDEX_L2C st !! c = Some ws /\ w ∈ ws) ->
      exists ws, INDEX_L2C (index_row float_of_str st r) !! c = Some ws /\ w ∈ ws).
Proof.
  unfold index_row.
  destruct (upper (word_text (col_word r))) as [|x word]; [tauto|].
  cbn [INDEX_L1 INDEX_L2C].
  split; intros (ws & Hc & Hw); eapply index_try_preserve; eassumption.
Qed.

Lemma fold_index_preserve (df : list Row) (c : Z) (w : pystr) :
  forall st : IndexState,
    ((exists ws, INDEX_L1 st !! c = Some ws /\ w ∈ ws) ->
     exists ws, INDEX_L1 (fold_left (index_row float_of_str) df st) !! c = Some ws /\ w ∈ ws)
    /\ ((exists ws, INDEX_L2C st !! c = Some ws /\ w ∈ ws) ->
        exists ws, INDEX_L2C (fold_left (index_row float_of_str) df st) !! c = Some ws
                   /\ w ∈ ws).
Proof.
  induction df as [|a df IH]; intros st; cbn [fold_left]; [tauto|].
  destruct (IH (index_row float_of_str st a)) as [IH1 IH2].
  destruct (index_row_preserve st a c w) as [P1 P2].
  split; intros H; auto.
Qed.

Lemma fold_index_member (df : list Row) (r : Row) :
  r ∈ df ->
  upper (word_text (col_word r)) <> [] ->
  forall st : IndexState,
    (forall V, is_missing (col_l1 r) = false ->
               int_float float_of_str (col_l1 r) = Ok V ->
               exists ws, INDEX_L1 (fold_left (index_row float_of_str) df st) !! V = Some ws
                          /\ upper (word_text (col_word r)) ∈ ws)
    /\ (forall V, is_missing (col_l2c r) = false ->
                  int_float float_of_str (col_l2c r) = Ok V ->
                  exists ws, INDEX_L2C (fold_left (index_row float_of_str) df st) !! V = Some ws
                             /\ upper (word_text (col_word r)) ∈ ws).
Proof.
  intros Hin Hne. induction df as [|a df IH]; intros st.
  { apply elem_of_nil in Hin. contradiction. }
  cbn [fold_left]. apply elem_of_cons in Hin as [<-|Hin].
  - split; intros V Hm Hv;
      apply (fold_index_preserve df V (upper (word_text (col_word r)))
               (index_row float_of_str st r));
      unfold index_row;
      destruct (upper (word_text (col_word r))) as [|x word] eqn:E; try congruence;
      cbn [INDEX_L1 INDEX_L2C]; apply index_try_member; assumption.
  - apply (IH Hin).
Qed.

End IndexFacts.

(** C7.  After [rebuild_indexes(df)], for every row of [df] whose
    (uppercased) word is not empty and whose [l1] cell converts to the
    integer [V] by [int(float(.))], the uppercased word is in
    [INDEX_L1[V]], and likewise for [l2c] and [INDEX_L2C]; the rebuild
    reaches its end ([INDEX_READY] is set) whatever the other rows hold; a
    cell that is missing or fails to convert leaves its index as it was. *)
Theorem rebuild_indexes_consistent (float_of_str : pystr -> result pyfloat)
    (df : list Row) (r : Row) :
  r ∈ df ->
  upper (word_text (col_word r)) <> [] ->
  INDEX_READY (rebuild_indexes float_of_str df) = true
  /\ (forall V, is_missing (col_l1 r) = false ->
                int_float float_of_str (col_l1 r) = Ok V ->
                exists ws, INDEX_L1 (rebuild_indexes float_of_str df) !! V = Some ws
                           /\ upper (word_text (col_word r)) ∈ ws)
  /\ (forall V, is_missing (col_l2c r) = false ->
                int_float float_of_str (col_l2c r) = Ok V ->
                exists ws, INDEX_L2C (rebuild_indexes float_of_str df) !! V = Some ws
                           /\ upper (word_text (col_word r)) ∈ ws)
  /\ (forall st r',
        (is_missing (col_l1 r') = true
         \/ (exists e, int_float float_of_str (col_l1 r') = Raise e)) ->
        INDEX_L1 (index_row float_of_str st r') = INDEX_L1 st)
  /\ (forall st r',
        (is_missing (col_l2c r') = true
         \/ (exists e, int_float float_of_str (col_l2c r') = Raise e)) ->
        INDEX_L2C (index_row float_of_str st r') = INDEX_L2C st).
Proof.
  intros Hin Hne.
  assert (Hdf : df <> []).
  { intros ->. apply elem_of_nil in Hin. contradiction. }
  unfold rebuild_indexes. destruct df as [|a df]; [congruence|].
  cbn [INDEX_READY INDEX_L1 INDEX_L2C].
  destruct (fold_index_member float_of_str (a :: df) r Hin Hne
              {| INDEX_L1 := ∅; INDEX_L2C := ∅; INDEX_READY := false |}) as [H1 H2].
  split; [reflexivity|]. split; [exact H1|]. split; [exact H2|].
  split; intros st r' H; unfold index_row;
    destruct (upper (word_text (col_word r'))) as [|x word]; try reflexivity;
    cbn [INDEX_L1 INDEX_L2C]; apply index_try_skip; exact H.
Qed.

Lemma rebuild_indexes_consistent_witness :
  exists ws,
    INDEX_L1 (rebuild_indexes reject_all_strings [indexed_row]) !! 48 = Some ws
    /\ U "СВЕТ" ∈ ws.
Proof.
  assert (Hin : indexed_row ∈ [indexed_row]) by (apply list_elem_of_singleton; reflexivity).
  assert (Hne : upper (word_text (col_word indexed_row)) <> []).
  { intros E. vm_compute in E. discriminate E. }
  destruct (rebuild_indexes_consistent reject_all_strings [indexed_row] indexed_row Hin Hne)
    as (_ & H1 & _).
  apply (H1 48).
  - reflexivity.
  - apply int_float_int.
Defined.

(* ================================================================== *)
(** * Deduplication *)

Lemma kryon_letter_forall (P : N -> bool) :
  forallb (fun k => P (0x410 + N.of_nat k)%N) (List.seq 0 32) = true ->
  P 0x401%N = true ->
  forall c, is_kryon_letter c = true -> P c = true.
Proof.
  intros Hall H401 c. rewrite forallb_forall in Hall.
  unfold is_kryon_letter. change (ch "А") with 0x410%N. change (ch "Я") with 0x42F%N.
  change (ch "Ё") with 0x401%N.
  intros H. apply orb_true_iff in H as [H|H].
  - apply andb_true_iff in H as [H1 H2].
    apply N.leb_le in H1. apply N.leb_le in H2.
    specialize (Hall (N.to_nat (c - 0x410)) ltac:(apply in_seq; lia)).
    rewrite N2Nat.id in Hall.
    replace (0x410 + (c - 0x410))%N with c in Hall by lia.
    exact Hall.
  - apply N.eqb_eq in H. subst c. exact H401.
Qed.

Lemma upper_cp_kryon (c : N) : is_kryon_letter c = true -> upper_cp c = c.
Proof.
  intros H. apply N.eqb_eq. revert c H.
  apply (kryon_letter_forall (fun c => (upper_cp c =? c)%N)); vm_compute; reflexivity.
Qed.

Lemma normalize_fixed (s : pystr) :
  Forall (fun c => is_kryon_letter c = true) s -> normalize s = s.
Proof.
  unfold normalize, upper. induction 1 as [|c s Hc Hs IH]; [reflexivity|].
  cbn [map List.filter]. rewrite (upper_cp_kryon c Hc), Hc. f_equal. exact IH.
Qed.

Lemma normalize_idem (t : pystr) : normalize (normalize t) = normalize t.
Proof. apply normalize_fixed, normalize_letters. Qed.

Lemma calc_l1_letters (word : pystr) :
  word <> [] -> Forall (fun c => is_kryon_letter c = true) word ->
  calc_l1_from_string word = (Some word, kryon_sum word) /\ 1 <= kryon_sum word.
Proof.
  intros Hne HF. unfold calc_l1_from_string. rewrite (normalize_fixed word HF).
  split; [destruct word; [congruence|reflexivity]|].
  apply kryon_sum_positive; assumption.
Qed.

Lemma force_recalc_row_spec (cfg : Config) (word sphere tone : pystr) (allowed : pyval)
    (notes field role : option pystr) :
  sigma_nonzero cfg ->
  word <> [] -> Forall (fun c => is_kryon_letter c = true) word ->
  exists row,
    force_recalc_row cfg word sphere tone allowed notes None None field role = Ok row
    /\ col_word row = Some word
    /\ derived_fields cfg word = Ok (row_derived row).
Proof.
  intros Hs Hne HF.
  destruct (calc_l1_letters word Hne HF) as [E Hpos].
  unfold force_recalc_row, derived_fields. rewrite E. cbn [snd].
  destruct (Z_le_gt_dec (kryon_sum word) 999999) as [Hle|Hgt].
  - destruct (calc_l2c_ok (kryon_sum word) ltac:(lia)) as (l2c & words & glued & -> & Hl2c).
    cbn [rbind].
    destruct (metrics_ok cfg (kryon_sum word) l2c Hs ltac:(lia) ltac:(lia))
      as (C & Hm & Zv & -> & _).
    cbn [rbind].
    eexists. split; [reflexivity|]. split; reflexivity.
  - rewrite calc_l2c_out_of_range by lia. cbn [rbind].
    eexists. split; [reflexivity|]. split; reflexivity.
Qed.

Lemma dedup_group_spec (cfg : Config) (k : key) (group : list Row) :
  sigma_nonzero cfg ->
  exists o, dedup_group cfg k group = Ok o
    /\ forall row, o = Some row -> recomputed cfg row.
Proof.
  intros Hs. destruct k as [[word sphere] tone]. unfold dedup_group.
  set (word_norm := match word with [] => [] | _ => normalize (upper (strip word)) end).
  assert (HF : Forall (fun c => is_kryon_letter c = true) word_norm).
  { subst word_norm. destruct word; [constructor|apply normalize_letters]. }
  clearbody word_norm.
  destruct word_norm as [|c wn].
  { exists None. split; [reflexivity|]. intros row H. discriminate H. }
  match goal with
  | |- context [force_recalc_row cfg ?w ?s ?t ?a ?n None None ?f ?r] =>
    destruct (force_recalc_row_spec cfg w s t a n f r Hs ltac:(discriminate) HF)
      as (row & -> & Hw & Hd)
  end.
  cbn [rbind]. exists (Some row). split; [reflexivity|].
  intros row' [= <-]. exists (c :: wn).
  split; [exact Hw|]. split; [discriminate|]. split; [apply normalize_fixed, HF|exact Hd].
Qed.

Lemma dedup_loop_spec (cfg : Config) (groups : list (key * list Row)) :
  sigma_nonzero cfg ->
  forall acc : list Row,
    Forall (recomputed cfg) acc ->
    exists out, dedup_loop cfg groups acc = Ok out /\ Forall (recomputed cfg) out.
Proof.
  intros Hs. induction groups as [|[k g] groups IH]; intros acc Hacc.
  - exists acc. split; [reflexivity|exact Hacc].
  - cbn [dedup_loop].
    destruct (dedup_group_spec cfg k g Hs) as (o & -> & Ho). cbn [rbind].
    destruct o as [row|].
    + apply IH. apply Forall_app. split; [exact Hacc|].
      constructor; [apply Ho; reflexivity|constructor].
    + apply IH. exact Hacc.
Qed.

Lemma same_source_key (r r' : Row) : same_source_columns r r' -> row_key r = row_key r'.
Proof.
  intros (Hw & Hs & Ht & _). unfold row_key. rewrite Hw, Hs, Ht. reflexivity.
Qed.

Lemma same_source_keys (df df' : list Row) :
  Forall2 same_source_columns df df' -> omap row_key df = omap row_key df'.
Proof.
  induction 1 as [|r r' df df' Hr Hdf IH]; [reflexivity|].
  cbn [omap list_omap]. rewrite (same_source_key r r' Hr), IH. reflexivity.
Qed.

Lemma same_source_filter (k : key) (df df' : list Row) :
  Forall2 same_source_columns df df' ->
  Forall2 same_source_columns
    (List.filter (fun r => bool_decide (row_key r = Some k)) df)
    (List.filter (fun r => bool_decide (row_key r = Some k)) df').
Proof.
  induction 1 as [|r r' df df' Hr Hdf IH]; [constructor|].
  cbn [List.filter]. rewrite (same_source_key r r' Hr).
  destruct (bool_decide (row_key r' = Some k)); [constructor; assumption|exact IH].
Qed.

Lemma same_source_columns_maps (g g' : list Row) :
  Forall2 same_source_columns g g' ->
  map col_allowed g = map col_allowed g'
  /\ map col_field g = map col_field g'
  /\ map col_role g = map col_role g'
  /\ map col_notes g = map col_notes g'.
Proof.
  induction 1 as [|r r' g g' Hr Hg (IHa & IHf & IHr & IHn)]; [auto|].
  destruct Hr as (_ & _ & _ & Ha & Hf & Hro & Hn).
  cbn [map]. rewrite Ha, Hf, Hro, Hn, IHa, IHf, IHr, IHn. auto.
Qed.

Lemma dedup_group_same (cfg : Config) (k : key) (g g' : list Row) :
  Forall2 same_source_columns g g' -> dedup_group cfg k g = dedup_group cfg k g'.
Proof.
  intros H. destruct (same_source_columns_maps g g' H) as (Ha & Hf & Hr & Hn).
  unfold dedup_group. destruct k as [[word sphere] tone].
  rewrite <- (map_map col_allowed parse_bool g), <- (map_map col_allowed parse_bool g').
  rewrite Ha, Hf, Hr, Hn. reflexivity.
Qed.

Lemma dedup_loop_same (cfg : Config) (df df' : list Row) (keys : list key) :
  Forall2 same_source_columns df df' ->
  forall acc,
    dedup_loop cfg
      (map (fun k => (k, List.filter (fun r => bool_decide (row_key r = Some k)) df)) keys) acc
    = dedup_loop cfg
        (map (fun k => (k, List.filter (fun r => bool_decide (row_key r = Some k)) df')) keys)
        acc.
Proof.
  intros H. induction keys as [|k keys IH]; intros acc; [reflexivity|].
  cbn [map dedup_loop].
  rewrite (dedup_group_same cfg k _ _ (same_source_filter k df df' H)).
  destruct (dedup_group cfg k _) as [[row|]|e]; cbn [rbind]; auto.
Qed.

Lemma soft_dedup_same (cfg : Config) (df df' : list Row) :
  Forall2 same_source_columns df df' -> soft_dedup cfg df = soft_dedup cfg df'.
Proof.
  intros H. unfold soft_dedup, groupby, group_keys.
  rewrite (same_source_keys df df' H).
  destruct H as [|r r' df df' Hr Hdf]; [reflexivity|].
  apply dedup_loop_same. constructor; assumption.
Qed.

Lemma derived_fields_cases (cfg : Config) (wd : pystr)
    (d : pyval * pyval * pyval * pyval * pyval * pyval) :
  derived_fields cfg wd = Ok d ->
  let l1 := snd (calc_l1_from_string wd) in
  (0 <= l1 <= 999999 ->
   exists l2c words glued w C Hm Zv,
     calc_l2c_from_l1 l1 = Ok (Some l2c, Some words, Some glued, false)
     /\ metrics cfg l1 l2c = Ok (w, C, Hm, Zv)
     /\ d = (VInt l1, VInt l2c, VFloat (FFin (Q2R w)), VFloat (FFin C),
             VFloat (FFin (Q2R Hm)), VFloat (FFin Zv)))
  /\ (999999 < l1 -> d = no_derived).
Proof.
  unfold derived_fields.
  destruct (calc_l1_from_string wd) as [norm l1]. cbn [snd]. intros H. split.
  - intros Hl.
    destruct (calc_l2c_ok l1 Hl) as (l2c & words & glued & E & _).
    rewrite E in H. cbn [rbind] in H.
    destruct (metrics cfg l1 l2c) as [[[[w C] Hm] Zv]|e] eqn:Em; cbn [rbind] in H;
      [|discriminate H].
    injection H as <-. exists l2c, words, glued, w, C, Hm, Zv. auto.
  - intros Hl. rewrite calc_l2c_out_of_range in H by lia. cbn [rbind] in H.
    injection H as <-. reflexivity.
Qed.

(** C3, amended.  Under a non-zero [sigma_Z], [soft_dedup] returns, and
    every row of its result has a normalized word and derived cells that
    depend on this word alone: when the code [l1] of the word is at most
    999999, the cells are [l1], the [l2c] of [calc_l2c_from_l1(l1)] and the
    [w], [C], [Hm], [Z] of [metrics(l1, l2c)]; when the code is larger, all
    six cells are empty.  No derived cell of the input reaches the output:
    two inputs that differ only in their derived columns have the same
    output. *)
Theorem soft_dedup_recomputes (cfg : Config) (df : list Row) :
  sigma_nonzero cfg ->
  exists out,
    soft_dedup cfg df = Ok out
    /\ (forall row, row ∈ out ->
        exists wd,
          col_word row = Some wd /\ normalize wd = wd
          /\ (snd (calc_l1_from_string wd) <= 999999 ->
              exists l2c words glued w C Hm Zv,
                calc_l2c_from_l1 (snd (calc_l1_from_string wd))
                = Ok (Some l2c, Some words, Some glued, false)
                /\ metrics cfg (snd (calc_l1_from_string wd)) l2c = Ok (w, C, Hm, Zv)
                /\ row_derived row
                   = (VInt (snd (calc_l1_from_string wd)), VInt l2c,
                      VFloat (FFin (Q2R w)), VFloat (FFin C),
                      VFloat (FFin (Q2R Hm)), VFloat (FFin Zv)))
          /\ (999999 < snd (calc_l1_from_string wd) -> row_derived row = no_derived))
    /\ (forall df', Forall2 same_source_columns df df' -> soft_dedup cfg df' = Ok out).
Proof.
  intros Hs.
  assert (H : exists out, soft_dedup cfg df = Ok out /\ Forall (recomputed cfg) out).
  { unfold soft_dedup. destruct df as [|r df].
    - exists []. split; [reflexivity|constructor].
    - apply dedup_loop_spec; [exact Hs|constructor]. }
  destruct H as (out & Hout & HF).
  exists out. split; [exact Hout|]. split.
  - intros row Hin. rewrite Forall_forall in HF.
    destruct (HF row Hin) as (wd & Hw & _ & Hn & Hd).
    exists wd. split; [exact Hw|]. split; [exact Hn|].
    destruct (derived_fields_cases cfg wd _ Hd) as [Hin_range Hout_range].
    split; [|exact Hout_range].
    intros Hle. apply Hin_range. pose proof (calc_l1_nonneg wd). lia.
  - intros df' Hsame. rewrite <- (soft_dedup_same cfg df df' Hsame). exact Hout.
Qed.

Lemma soft_dedup_recomputes_witness :
  exists out,
    soft_dedup DEFAULT_CONFIG same_key_rows = Ok out
    /\ (forall row, row ∈ out ->
        exists wd,
          col_word row = Some wd /\ normalize wd = wd
          /\ (snd (calc_l1_from_string wd) <= 999999 ->
              exists l2c words glued w C Hm Zv,
                calc_l2c_from_l1 (snd (calc_l1_from_string wd))
                = Ok (Some l2c, Some words, Some glued, false)
                /\ metrics DEFAULT_CONFIG (snd (calc_l1_from_string wd)) l2c
                   = Ok (w, C, Hm, Zv)
                /\ row_derived row
                   = (VInt (snd (calc_l1_from_string wd)), VInt l2c,
                      VFloat (FFin (Q2R w)), VFloat (FFin C),
                      VFloat (FFin (Q2R Hm)), VFloat (FFin Zv)))
          /\ (999999 < snd (calc_l1_from_string wd) -> row_derived row = no_derived))
    /\ (forall df', Forall2 same_source_columns same_key_rows df' ->
                    soft_dedup DEFAULT_CONFIG df' = Ok out).
Proof.
  apply (soft_dedup_recomputes DEFAULT_CONFIG same_key_rows).
  exact default_sigma_nonzero.
Defined.

(** The scenario of two entries with one key: one row is left, and its
    notes are the two notes joined by [" | "]. *)
Lemma soft_dedup_merges_notes :
  exists row,
    soft_dedup DEFAULT_CONFIG same_key_rows = Ok [row]
    /\ col_notes row = Some (U "первая | вторая")
    /\ col_l1 row = VInt 48.
Proof.
  eexists. split; [vm_compute; reflexivity|]. split; reflexivity.
Qed.

(** C4, at an input that refutes it.  The two words [СВЕТ] and [СВЕТ!]
    are two groups of the first pass, which emits one row for each, both
    with the word [СВЕТ] and the same sphere and tone; the second pass
    puts these two rows in one group and emits a single row. *)
Theorem soft_dedup_second_pass_merges :
  exists out1 out2,
    soft_dedup DEFAULT_CONFIG punctuated_rows = Ok out1
    /\ soft_dedup DEFAULT_CONFIG out1 = Ok out2
    /\ map row_key out1
       = [Some (U "СВЕТ", U "природа", U "neutral");
          Some (U "СВЕТ", U "природа", U "neutral")]
    /\ length out2 = 1%nat
    /\ out2 <> out1.
Proof.
  eexists. eexists.
  split; [vm_compute; reflexivity|].
  split; [vm_compute; reflexivity|].
  split; [reflexivity|]. split; [reflexivity|].
  intros E. apply (f_equal (@length Row)) in E. cbn [length] in E. discriminate E.
Qed.

(* ------------------------------------------------------------------ *)
(** ** A word whose code is out of range *)

Lemma kryon_not_space (c : N) : is_kryon_letter c = true -> is_space c = false.
Proof.
  intros H. apply negb_true_iff. revert c H.
  apply (kryon_letter_forall (fun c => negb (is_space c))); vm_compute; reflexivity.
Qed.

Lemma lstrip_letters (s : pystr) :
  Forall (fun c => is_kryon_letter c = true) s -> lstrip s = s.
Proof.
  intros H. destruct H as [|c s Hc Hs]; [reflexivity|].
  cbn [lstrip]. rewrite (kryon_not_space c Hc). reflexivity.
Qed.

Lemma strip_letters (s : pystr) :
  Forall (fun c => is_kryon_letter c = true) s -> strip s = s.
Proof.
  intros H. unfold strip. rewrite (lstrip_letters s H).
  rewrite lstrip_letters by (apply Forall_rev; exact H).
  apply rev_involutive.
Qed.

Lemma upper_letters (s : pystr) :
  Forall (fun c => is_kryon_letter c = true) s -> upper s = s.
Proof.
  unfold upper. induction 1 as [|c s Hc Hs IH]; [reflexivity|].
  cbn [map]. rewrite (upper_cp_kryon c Hc), IH. reflexivity.
Qed.

Lemma soft_dedup_single (cfg : Config) (r : Row) (wd sphere tone : pystr) :
  sigma_nonzero cfg ->
  row_key r = Some (wd, sphere, tone) ->
  wd <> [] -> Forall (fun c => is_kryon_letter c = true) wd ->
  exists row,
    soft_dedup cfg [r] = Ok [row]
    /\ col_word row = Some wd
    /\ derived_fields cfg wd = Ok (row_derived row).
Proof.
  intros Hs Hk Hne HF.
  unfold soft_dedup, groupby, group_keys.
  cbn [omap list_omap]. rewrite Hk.
  cbn [fold_right insert_key map List.filter]. rewrite Hk.
  rewrite bool_decide_eq_true_2 by reflexivity.
  cbn [dedup_loop]. unfold dedup_group.
  destruct wd as [|c w0]; [congruence|].
  rewrite (strip_letters _ HF), (upper_letters _ HF), (normalize_fixed _ HF).
  match goal with
  | |- context [force_recalc_row cfg ?w ?s ?t ?a ?n None None ?f ?ro] =>
    destruct (force_recalc_row_spec cfg w s t a n f ro Hs Hne HF) as (row & -> & Hw & Hd)
  end.
  cbn [rbind app]. exists row. auto.
Qed.

Lemma kryon_sum_repeat (c : N) (n : nat) :
  kryon_sum (repeat c n) = kryon c * Z.of_nat n.
Proof.
  unfold kryon_sum. induction n as [|n IH]; [cbn; lia|].
  cbn [repeat fold_right]. rewrite IH. lia.
Qed.

Lemma long_word_letters : Forall (fun c => is_kryon_letter c = true) long_word.
Proof.
  apply Forall_forall. intros c Hc. apply list_elem_of_In in Hc.
  apply repeat_spec in Hc. subst c. reflexivity.
Qed.

Lemma long_word_code : kryon_sum long_word = 1000032.
Proof.
  unfold long_word. rewrite kryon_sum_repeat, Z2Nat.id by lia. reflexivity.
Qed.

Lemma long_word_nonempty : long_word <> [].
Proof.
  intros E. pose proof long_word_code as H. rewrite E in H. discriminate H.
Qed.

(** C3, at an input that refutes it: for a word of 30304 letters the
    rerun of [calc_l1_from_string] gives the code 1000032, while the row
    that [soft_dedup] returns for this word has an empty [l1] cell (and its
    five other derived cells are empty too). *)
Lemma soft_dedup_long_word :
  exists row,
    soft_dedup DEFAULT_CONFIG long_word_rows = Ok [row]
    /\ col_word row = Some long_word
    /\ snd (calc_l1_from_string long_word) = 1000032
    /\ col_l1 row = VNone
    /\ col_l1 row <> VInt (snd (calc_l1_from_string long_word)).
Proof.
  destruct (soft_dedup_single DEFAULT_CONFIG
              (List.hd indexed_row long_word_rows) long_word (U "природа") (U "neutral")
              default_sigma_nonzero eq_refl long_word_nonempty long_word_letters)
    as (row & Hrow & Hw & Hd).
  exists row. split; [exact Hrow|]. split; [exact Hw|].
  destruct (calc_l1_letters long_word long_word_nonempty long_word_letters) as [E _].
  assert (Hcode : snd (calc_l1_from_string long_word) = 1000032).
  { rewrite E. cbn [snd]. apply long_word_code. }
  split; [exact Hcode|].
  destruct (derived_fields_cases DEFAULT_CONFIG long_word _ Hd) as [_ Hout].
  specialize (Hout ltac:(lia)).
  assert (Hl1 : col_l1 row = VNone).
  { unfold row_derived, no_derived in Hout. congruence. }
  split; [exact Hl1|]. rewrite Hl1. discriminate.
Qed.

(* ================================================================== *)
(** * Further properties: text and letter codes *)

(** Every test of [upper_cp] fails on the code point at hand. *)
Ltac upper_test_fails :=
  match goal with
  | |- context [if ?b then _ else _] =>
    let E := fresh "E" in
    destruct b eqn:E;
    [ exfalso;
      rewrite ?orb_true_iff, ?andb_true_iff, ?N.leb_le, ?N.eqb_eq in E; lia
    | clear E ]
  end.

Lemma upper_cp_fixed_low (v : N) : (v < 0x61)%N -> upper_cp v = v.
Proof. intros H. unfold upper_cp. repeat upper_test_fails. reflexivity. Qed.

Lemma upper_cp_fixed_mid (v : N) : (0x7A < v < 0x430)%N -> upper_cp v = v.
Proof. intros H. unfold upper_cp. repeat upper_test_fails. reflexivity. Qed.

Lemma upper_cp_idem (c : N) : upper_cp (upper_cp c) = upper_cp c.
Proof.
  assert (H : upper_cp c = c \/ (upper_cp c < 0x61)%N \/ (0x7A < upper_cp c < 0x430)%N).
  { unfold upper_cp.
    repeat match goal with
           | |- context [if ?b then _ else _] =>
             let E := fresh "E" in
             destruct b eqn:E;
             [ rewrite ?orb_true_iff, ?andb_true_iff, ?N.leb_le, ?N.eqb_eq in E;
               right; lia
             | clear E ]
           end.
    left. reflexivity. }
  destruct H as [H|[H|H]].
  - rewrite H. exact H.
  - apply upper_cp_fixed_low. exact H.
  - apply upper_cp_fixed_mid. exact H.
Qed.

Lemma normalize_app (a b : pystr) : normalize (a ++ b) = normalize a ++ normalize b.
Proof. unfold normalize, upper. rewrite List.map_app, List.filter_app. reflexivity. Qed.

(** X1.  [normalize] keeps nothing but the 33 capital letters of the
    alphabet, is not changed by a second application or by an [upper()]
    before it, and works letter by letter: the normal form of a
    concatenation is the concatenation of the normal forms. *)
Theorem normalize_canonical (t u : pystr) :
  Forall (fun c => is_kryon_letter c = true) (normalize t)
  /\ normalize (normalize t) = normalize t
  /\ normalize (upper t) = normalize t
  /\ normalize (t ++ u) = normalize t ++ normalize u
  /\ (length (normalize t) <= length t)%nat.
Proof.
  split; [apply normalize_letters|]. split; [apply normalize_idem|].
  split; [|split; [apply normalize_app|]].
  - unfold normalize, upper. rewrite List.map_map.
    f_equal. apply List.map_ext. intros c. apply upper_cp_idem.
  - unfold normalize, upper.
    etransitivity; [apply List.filter_length_le|]. rewrite List.length_map. reflexivity.
Qed.

Lemma kryon_sum_bounds (s : pystr) :
  Forall (fun c => is_kryon_letter c = true) s ->
  Z.of_nat (length s) <= kryon_sum s <= 33 * Z.of_nat (length s).
Proof.
  unfold kryon_sum. induction 1 as [|c s Hc Hs IH]; [cbn; lia|].
  cbn [fold_right length].
  pose proof (kryon_letter_positive c Hc). pose proof (kryon_bounds c). lia.
Qed.

(** X2.  [calc_l1_from_string] answers [(None, 0)] exactly when the text
    has no letter of the alphabet; otherwise it answers the normalized
    text with a code that is at least the number of its letters and at
    most 33 times that number.  So the code 0 always means "no letters". *)
Theorem calc_l1_from_string_code (s : pystr) :
  (normalize s = [] -> calc_l1_from_string s = (None, 0))
  /\ (normalize s <> [] ->
      exists l1,
        calc_l1_from_string s = (Some (normalize s), l1)
        /\ 1 <= Z.of_nat (length (normalize s)) <= l1
        /\ l1 <= 33 * Z.of_nat (length (normalize s)))
  /\ (snd (calc_l1_from_string s) = 0 <-> normalize s = []).
Proof.
  pose proof (kryon_sum_bounds (normalize s) (normalize_letters s)) as Hb.
  unfold calc_l1_from_string.
  destruct (normalize s) as [|c w] eqn:E.
  - split; [reflexivity|]. split; [congruence|]. cbn [snd]. tauto.
  - cbn [length] in Hb.
    split; [discriminate|]. split.
    + intros _. eexists. split; [reflexivity|]. cbn [length]. lia.
    + cbn [snd]. split; [lia|discriminate].
Qed.

Lemma calc_l1_from_string_code_witness :
  exists l1,
    calc_l1_from_string (U "Гармония!") = (Some (normalize (U "Гармония!")), l1)
    /\ 1 <= Z.of_nat (length (normalize (U "Гармония!"))) <= l1
    /\ l1 <= 33 * Z.of_nat (length (normalize (U "Гармония!"))).
Proof.
  apply (proj1 (proj2 (calc_l1_from_string_code (U "Гармония!")))).
  intros E. vm_compute in E. discriminate E.
Defined.

(* ================================================================== *)
(** * Further properties: the spelled-out number *)

Lemma speller_check_low_all (k : nat) :
  (k < 1000)%nat -> speller_check_low (Z.of_nat k) = true.
Proof.
  assert (H : forallb (fun k => speller_check_low (Z.of_nat k)) (List.seq 0 1000) = true)
    by (vm_compute; reflexivity).
  rewrite forallb_forall in H.
  intros Hk. apply H. apply in_seq. lia.
Qed.

Lemma speller_low (n : Z) (f : bool) (s : pystr) :
  0 <= n <= 999 -> _number_to_words_0_999 n f = Ok s -> 9 <= words_code s.
Proof.
  intros Hn Hs.
  pose proof (speller_check_low_all (Z.to_nat n)) as H.
  rewrite Z2Nat.id in H by lia.
  specialize (H ltac:(lia)). unfold speller_check_low in H.
  destruct (_number_to_words_0_999 n false) as [a|] eqn:Ea; [|discriminate].
  destruct (_number_to_words_0_999 n true) as [b|] eqn:Eb; [|discriminate].
  rewrite !andb_true_iff, !Z.leb_le in H.
  destruct f; rewrite Hs in *; [injection Eb as ->|injection Ea as ->]; lia.
Qed.

Lemma number_to_words_low (n : Z) (s : pystr) :
  0 <= n <= 999999 -> number_to_words_ru_0_999999 n = Ok s -> 9 <= words_code s.
Proof.
  intros Hn. unfold number_to_words_ru_0_999999.
  destruct (Z.eqb_spec n 0) as [->|Hn0].
  { intros [= <-]. vm_compute. discriminate. }
  destruct (Z.ltb_spec n 1000) as [Hlt|Hge].
  { apply speller_low. lia. }
  set (tw := if _ : bool then U "ТЫСЯЧ" else _).
  assert (Htw : 0 <= words_code tw).
  { unfold words_code. apply kryon_sum_nonneg. }
  clearbody tw.
  assert (HT : 0 <= n / 1000 <= 999) by (Z.div_mod_to_equations; lia).
  assert (HR : 0 <= n mod 1000 <= 999) by (Z.div_mod_to_equations; lia).
  destruct (_number_to_words_0_999 (n / 1000) true) as [a|e] eqn:Ea; cbn [rbind];
    [|discriminate].
  pose proof (speller_low _ _ _ HT Ea) as Ha.
  destruct (Z.ltb_spec 0 (n mod 1000)) as [Hpos|Hzero].
  - destruct (_number_to_words_0_999 (n mod 1000) false) as [c|e] eqn:Ec; cbn [rbind];
      [|discriminate].
    assert (Hc : 0 <= words_code c) by (unfold words_code; apply kryon_sum_nonneg).
    change ([a; tw] ++ [c]) with [a; tw; c]. cbn [join]. intros E.
    assert (Es : s = a ++ U " " ++ tw ++ U " " ++ c) by congruence.
    rewrite Es, !words_code_app, words_code_space. lia.
  - cbn [rbind join]. intros E.
    assert (Es : s = a ++ U " " ++ tw) by congruence.
    rewrite Es, !words_code_app, words_code_space. lia.
Qed.

(** X3.  For every [l1] in [0, 999999] the code [l2c] of the spelled-out
    number lies in [9, 1016].  So one step of the recurrence [l1 := l2c]
    brings any code down to at most 1016, and for every [l1] above 1016 the
    ratio [w = l2c / l1] is below 1, where [cluster_by_w] answers ["pi"]. *)
Theorem l2c_contraction (l1 : Z) :
  0 <= l1 <= 999999 ->
  exists l2c words glued,
    calc_l2c_from_l1 l1 = Ok (Some l2c, Some words, Some glued, false)
    /\ 9 <= l2c <= 1016
    /\ (1016 < l1 ->
        l2c < l1
        /\ (inject_Z l2c / inject_Z l1 < 1)%Q
        /\ fst (cluster_by_w (inject_Z l2c / inject_Z l1)) = U "pi").
Proof.
  intros Hl.
  destruct (calc_l2c_ok l1 Hl) as (l2c & words & glued & Hc & Hhi).
  exists l2c, words, glued. split; [exact Hc|].
  assert (Hlo : 9 <= l2c).
  { unfold calc_l2c_from_l1 in Hc.
    destruct ((l1 <? 0) || (999999 <? l1)); [discriminate Hc|].
    destruct (number_to_words_ru_0_999999 l1) as [s|e] eqn:Es; cbn [rbind] in Hc;
      [|discriminate Hc].
    injection Hc as <- _ _. apply (number_to_words_low l1 s Hl Es). }
  split; [lia|]. intros Hbig.
  assert (Hw : (inject_Z l2c / inject_Z l1 < 1)%Q).
  { apply Qlt_shift_div_r.
    - change (inject_Z 0 < inject_Z l1)%Q. rewrite <- Zlt_Qlt. lia.
    - rewrite Qmult_1_l. rewrite <- Zlt_Qlt. lia. }
  split; [lia|]. split; [exact Hw|].
  apply (cluster_by_w_bins (inject_Z l2c / inject_Z l1)). left. Lqa.lra.
Qed.

Lemma l2c_contraction_witness :
  exists l2c words glued,
    calc_l2c_from_l1 999999 = Ok (Some l2c, Some words, Some glued, false)
    /\ 9 <= l2c <= 1016
    /\ l2c < 999999
    /\ (inject_Z l2c / inject_Z 999999 < 1)%Q
    /\ fst (cluster_by_w (inject_Z l2c / inject_Z 999999)) = U "pi".
Proof.
  destruct (l2c_contraction 999999 ltac:(lia)) as (l2c & words & glued & Hc & Hb & Hbig).
  destruct (Hbig ltac:(lia)) as (H1 & H2 & H3).
  exists l2c, words, glued. auto.
Defined.

(* ------------------------------------------------------------------ *)
(** ** The two cluster functions *)

Lemma Qle_bool_false (x y : Q) : Qle_bool x y = false <-> (y < x)%Q.
Proof.
  split.
  - intros H. apply Qnot_le_lt. intros Hle. apply Qle_bool_iff in Hle. congruence.
  - intros H. destruct (Qle_bool x y) eqn:E; [|reflexivity].
    apply Qle_bool_iff in E. exfalso. exact (Qlt_not_le _ _ H E).
Qed.

Lemma Qlt_bool_false (x y : Q) : Qlt_bool x y = false <-> (y <= x)%Q.
Proof.
  unfold Qlt_bool. rewrite negb_false_iff. apply Qle_bool_iff.
Qed.

(** Case analysis on every comparison of a cluster function, each turned
    into an inequality. *)
Ltac split_tests :=
  repeat match goal with
         | |- context [Qle_bool ?a ?b] =>
           let E := fresh "E" in
           destruct (Qle_bool a b) eqn:E;
           [apply Qle_bool_iff in E | apply Qle_bool_false in E]
         | |- context [Qlt_bool ?a ?b] =>
           let E := fresh "E" in
           destruct (Qlt_bool a b) eqn:E;
           [apply Qlt_bool_iff in E | apply Qlt_bool_false in E]
         end.

(** X4.  The four-bin [cluster_by_w] and the five-bin [clusters_from_w]
    give the same label except in two places: below 1.0, where the first
    says ["pi"] and the second ["phi"], and on the band [1.214, 1.614],
    which the second calls ["rt2"]. *)
Theorem cluster_variants_differ (w : Q) :
  (clusters_from_w w = fst (cluster_by_w w)
   <-> ~ (w < 1.0 \/ (1.214 <= w /\ w <= 1.614))%Q)
  /\ ((w < 1.0)%Q -> fst (cluster_by_w w) = U "pi" /\ clusters_from_w w = U "phi")
  /\ ((1.214 <= w /\ w <= 1.614)%Q -> clusters_from_w w = U "rt2").
Proof.
  unfold clusters_from_w, cluster_by_w.
  split_tests; cbn [andb fst];
    (split; [split; [intros H; try (vm_compute in H; discriminate H);
                     intros [?|[? ?]]; Lqa.lra
                    |intros H; try reflexivity; exfalso; apply H; Lqa.lra]
            |split; [intros ?; try (exfalso; Lqa.lra); split; reflexivity
                    |intros [? ?]; try (exfalso; Lqa.lra); reflexivity]]).
Qed.

Lemma cluster_variants_differ_witness :
  (fst (cluster_by_w 0.5) = U "pi" /\ clusters_from_w 0.5 = U "phi")
  /\ clusters_from_w 1.5 = U "rt2".
Proof.
  split.
  - apply (proj1 (proj2 (cluster_variants_differ 0.5))). reflexivity.
  - apply (proj2 (proj2 (cluster_variants_differ 1.5))). split; discriminate.
Defined.

(* ------------------------------------------------------------------ *)
(** ** The shape of the spelled-out text *)

Lemma is_letter_word_spec (w : pystr) : is_letter_word w = true -> letter_word w.
Proof.
  unfold is_letter_word, letter_word. rewrite andb_true_iff, negb_true_iff.
  intros [H1 H2]. split.
  - intros ->. rewrite bool_decide_eq_true_2 in H1 by reflexivity. discriminate H1.
  - apply Forall_forall. intros c Hc. rewrite forallb_forall in H2.
    apply H2, list_elem_of_In, Hc.
Qed.

Lemma letter_words_spec (ws : list pystr) :
  forallb is_letter_word ws = true -> Forall letter_word ws.
Proof.
  intros H. apply Forall_forall. intros w Hw. rewrite forallb_forall in H.
  apply is_letter_word_spec, H, list_elem_of_In, Hw.
Qed.

Lemma split_spaces_nonempty (s : pystr) : split_spaces s <> [].
Proof.
  destruct s as [|c r]; cbn [split_spaces]; [discriminate|].
  destruct (c =? 0x20)%N; [discriminate|].
  destruct (split_spaces r); discriminate.
Qed.

Lemma speller_check_shape_all (k : nat) :
  (k < 1000)%nat -> speller_check_shape (Z.of_nat k) = true.
Proof.
  assert (H : forallb (fun k => speller_check_shape (Z.of_nat k)) (List.seq 0 1000) = true)
    by (vm_compute; reflexivity).
  rewrite forallb_forall in H.
  intros Hk. apply H. apply in_seq. lia.
Qed.

Lemma speller_shape (n : Z) (f : bool) (s : pystr) :
  0 <= n <= 999 -> _number_to_words_0_999 n f = Ok s ->
  exists ws, ws <> [] /\ Forall letter_word ws /\ s = join (U " ") ws.
Proof.
  intros Hn Hs.
  pose proof (speller_check_shape_all (Z.to_nat n)) as H.
  rewrite Z2Nat.id in H by lia.
  specialize (H ltac:(lia)). unfold speller_check_shape in H.
  destruct (_number_to_words_0_999 n false) as [a|] eqn:Ea; [|discriminate].
  destruct (_number_to_words_0_999 n true) as [b|] eqn:Eb; [|discriminate].
  rewrite !andb_true_iff in H. destruct H as [[[Ha1 Ha2] Hb1] Hb2].
  apply bool_decide_eq_true_1 in Ha2. apply bool_decide_eq_true_1 in Hb2.
  exists (split_spaces s).
  split; [apply split_spaces_nonempty|].
  destruct f; rewrite Hs in *; [injection Eb as ->|injection Ea as ->];
    (split; [apply letter_words_spec; assumption|congruence]).
Qed.

Lemma join_app (sep : pystr) (x y : list pystr) :
  x <> [] -> y <> [] -> join sep (x ++ y) = join sep x ++ sep ++ join sep y.
Proof.
  intros Hx Hy. induction x as [|a x IH]; [congruence|].
  destruct x as [|b x].
  - cbn [app join]. destruct y; [congruence|reflexivity].
  - change ((a :: b :: x) ++ y) with (a :: (b :: x) ++ y).
    change (join sep (a :: (b :: x) ++ y))
      with (a ++ sep ++ join sep ((b :: x) ++ y)).
    rewrite IH by discriminate.
    change (join sep (a :: b :: x)) with (a ++ sep ++ join sep (b :: x)).
    rewrite <- !app_assoc. reflexivity.
Qed.

Lemma number_to_words_shape (n : Z) (s : pystr) :
  0 <= n <= 999999 -> number_to_words_ru_0_999999 n = Ok s ->
  exists ws, ws <> [] /\ Forall letter_word ws /\ s = join (U " ") ws.
Proof.
  intros Hn. unfold number_to_words_ru_0_999999.
  destruct (Z.eqb_spec n 0) as [->|Hn0].
  { intros [= <-]. exists [U "НОЛЬ"]. split; [discriminate|]. split; [|reflexivity].
    apply letter_words_spec. vm_compute. reflexivity. }
  destruct (Z.ltb_spec n 1000) as [Hlt|Hge].
  { apply speller_shape. lia. }
  set (tw := if _ : bool then U "ТЫСЯЧ" else _).
  assert (Htw : letter_word tw).
  { apply is_letter_word_spec. subst tw.
    repeat match goal with
           | |- context [if ?b then _ else _] => destruct b
           end; vm_compute; reflexivity. }
  clearbody tw.
  assert (HT : 0 <= n / 1000 <= 999) by (Z.div_mod_to_equations; lia).
  assert (HR : 0 <= n mod 1000 <= 999) by (Z.div_mod_to_equations; lia).
  destruct (_number_to_words_0_999 (n / 1000) true) as [a|e] eqn:Ea; cbn [rbind];
    [|discriminate].
  destruct (speller_shape _ _ _ HT Ea) as (wa & Hwa & Fa & ->).
  destruct (Z.ltb_spec 0 (n mod 1000)) as [Hpos|Hzero].
  - destruct (_number_to_words_0_999 (n mod 1000) false) as [c|e] eqn:Ec; cbn [rbind];
      [|discriminate].
    destruct (speller_shape _ _ _ HR Ec) as (wc & Hwc & Fc & ->).
    change ([join (U " ") wa; tw] ++ [join (U " ") wc])
      with [join (U " ") wa; tw; join (U " ") wc].
    cbn [join]. intros E.
    exists (wa ++ [tw] ++ wc).
    split; [destruct wa; [congruence|discriminate]|].
    split; [rewrite !Forall_app; repeat split; auto|].
    rewrite (join_app (U " ") wa ([tw] ++ wc) Hwa ltac:(discriminate)).
    rewrite (join_app (U " ") [tw] wc ltac:(discriminate) Hwc).
    cbn [join]. congruence.
  - cbn [rbind join]. intros E.
    exists (wa ++ [tw]).
    split; [destruct wa; [congruence|discriminate]|].
    split; [rewrite !Forall_app; repeat split; auto|].
    rewrite (join_app (U " ") wa [tw] Hwa ltac:(discriminate)).
    cbn [join]. congruence.
Qed.

Lemma kryon_not_separator (c : N) :
  is_kryon_letter c = true -> negb (is_space c || (c =? 0x2D)%N) = true.
Proof.
  revert c.
  apply (kryon_letter_forall (fun c => negb (is_space c || (c =? 0x2D)%N)));
    vm_compute; reflexivity.
Qed.

Lemma glue_letters (w : pystr) :
  Forall (fun c => is_kryon_letter c = true) w ->
  normalize (strip_spaces_hyphens w) = w.
Proof.
  intros H.
  assert (E : strip_spaces_hyphens w = w).
  { unfold strip_spaces_hyphens. induction H as [|c w Hc Hw IH]; [reflexivity|].
    cbn [List.filter]. rewrite (kryon_not_separator c Hc), IH. reflexivity. }
  rewrite E. apply normalize_fixed, H.
Qed.

Lemma glue_app (a b : pystr) :
  normalize (strip_spaces_hyphens (a ++ b))
  = normalize (strip_spaces_hyphens a) ++ normalize (strip_spaces_hyphens b).
Proof.
  unfold strip_spaces_hyphens. rewrite List.filter_app. apply normalize_app.
Qed.

Lemma glue_join (ws : list pystr) :
  Forall letter_word ws ->
  normalize (strip_spaces_hyphens (join (U " ") ws)) = List.concat ws.
Proof.
  induction 1 as [|w ws [_ Hw] Hws IH]; [reflexivity|].
  destruct ws as [|w' ws].
  - cbn [join List.concat]. rewrite app_nil_r. apply glue_letters, Hw.
  - change (join (U " ") (w :: w' :: ws)) with (w ++ U " " ++ join (U " ") (w' :: ws)).
    rewrite !glue_app, IH, (glue_letters w Hw). reflexivity.
Qed.

Lemma kryon_sum_concat (ws : list pystr) : kryon_sum (List.concat ws) = words_sum ws.
Proof.
  induction ws as [|w ws IH]; [reflexivity|].
  cbn [List.concat]. rewrite kryon_sum_app, IH. reflexivity.
Qed.

(** X5.  For every [l1] in [0, 999999] the spelled-out text that
    [calc_l2c_from_l1] returns is a list of non-empty words of alphabet
    letters joined by single spaces; the glued string is the concatenation
    of these words (nothing but the spaces is removed), and [l2c] is the
    sum of the codes of the words. *)
Theorem spelled_text_shape (l1 : Z) :
  0 <= l1 <= 999999 ->
  exists l2c words glued ws,
    calc_l2c_from_l1 l1 = Ok (Some l2c, Some words, Some glued, false)
    /\ ws <> []
    /\ Forall (fun w => w <> [] /\ Forall (fun c => is_kryon_letter c = true) w) ws
    /\ words = join (U " ") ws
    /\ glued = List.concat ws
    /\ l2c = words_sum ws.
Proof.
  intros Hl.
  destruct (calc_l2c_ok l1 Hl) as (l2c & words & glued & Hc & _).
  pose proof Hc as Hc'. unfold calc_l2c_from_l1 in Hc'.
  destruct ((l1 <? 0) || (999999 <? l1)); [discriminate Hc'|].
  destruct (number_to_words_ru_0_999999 l1) as [s|e] eqn:Es; cbn [rbind] in Hc';
    [|discriminate Hc'].
  injection Hc' as El2c Ewords Eglued. subst s.
  destruct (number_to_words_shape l1 words Hl Es) as (ws & Hne & HF & Ej).
  exists l2c, words, glued, ws.
  split; [exact Hc|]. split; [exact Hne|]. split; [exact HF|]. split; [exact Ej|].
  assert (Eg : glued = List.concat ws).
  { rewrite <- Eglued, Ej. apply glue_join, HF. }
  split; [exact Eg|].
  rewrite <- El2c, Eglued, Eg. apply kryon_sum_concat.
Qed.

Lemma spelled_text_shape_witness :
  exists l2c words glued ws,
    calc_l2c_from_l1 21512 = Ok (Some l2c, Some words, Some glued, false)
    /\ ws <> []
    /\ Forall (fun w => w <> [] /\ Forall (fun c => is_kryon_letter c = true) w) ws
    /\ words = join (U " ") ws
    /\ glued = List.concat ws
    /\ l2c = words_sum ws.
Proof.
  apply (spelled_text_shape 21512). lia.
Defined.

(* ================================================================== *)
(** * Further properties: the metrics *)

Lemma metrics_parts (cfg : Config) (l1 l2c : Z) :
  sigma_nonzero cfg -> 1 <= l1 -> 0 <= l2c ->
  metrics cfg l1 l2c
  = Ok ((inject_Z l2c / inject_Z l1)%Q,
        metric_C l1 l2c,
        metric_Hm (inject_Z l2c / inject_Z l1),
        Rmax 0 (Rmin 1 (metric_C l1 l2c
                        * Q2R (metric_Hm (inject_Z l2c / inject_Z l1))
                        * metric_bell (sigma_Z cfg) (inject_Z l2c / inject_Z l1)))).
Proof.
  intros Hs H1 H2. unfold metrics.
  destruct (Z.eqb_spec l1 0) as [?|_]; [lia|].
  destruct (Z.eqb_spec (l2c + l1) 0) as [?|_]; [lia|].
  destruct (Qeq_bool (sigma_Z cfg) 0) eqn:E.
  { apply Qeq_bool_iff in E. contradiction. }
  unfold metric_C, metric_ratio, metric_Hm, target_dist, metric_bell.
  lazy beta zeta. reflexivity.
Qed.

Lemma metric_C_unit (l1 l2c : Z) : (0 <= metric_C l1 l2c <= 1)%R.
Proof.
  unfold metric_C.
  match goal with |- (0 <= cos ?x ^ 2 <= 1)%R => pose proof (COS_bound x) end.
  nra.
Qed.

Lemma metric_Hm_unit (w : Q) : (0 <= Q2R (metric_Hm w) <= 1)%R.
Proof.
  assert (H : (0 <= metric_Hm w <= 1)%Q).
  { unfold metric_Hm. split.
    - apply Q.le_max_l.
    - apply Q.max_lub; [discriminate|apply Q.le_min_l]. }
  destruct H as [Hlo Hhi].
  apply Qreals.Qle_Rle in Hlo. apply Qreals.Qle_Rle in Hhi.
  rewrite RMicromega.Q2R_0 in Hlo. rewrite RMicromega.Q2R_1 in Hhi. lra.
Qed.

Lemma metric_bell_unit (sigma w : Q) : (0 < metric_bell sigma w <= 1)%R.
Proof.
  unfold metric_bell. split; [apply exp_pos|].
  set (x := Q2R ((w - 2) / sigma)).
  assert (Hx : (- x ^ 2 <= 0)%R) by (pose proof (pow2_ge_0 x); lra).
  destruct Hx as [Hlt|Heq].
  - apply exp_increasing in Hlt. rewrite exp_0 in Hlt. lra.
  - rewrite Heq, exp_0. lra.
Qed.

(** X6.  In [metrics] the clamp of [Z] never acts: for [l1 >= 1],
    [l2c >= 0] and a non-zero [sigma_Z], [Z] is exactly the product
    [C * Hm * exp(-((w - 2) / sigma)^2)], whose last factor lies in
    (0, 1].  Hence [Z <= C], [Z <= Hm], and [Z] is zero exactly when [C]
    or [Hm] is. *)
Theorem metrics_Z_is_product (cfg : Config) (l1 l2c : Z) :
  sigma_nonzero cfg -> 1 <= l1 -> 0 <= l2c ->
  exists w C Hm Zv,
    metrics cfg l1 l2c = Ok (w, C, Hm, Zv)
    /\ (Zv = C * Q2R Hm * metric_bell (sigma_Z cfg) w)%R
    /\ (0 < metric_bell (sigma_Z cfg) w <= 1)%R
    /\ (Zv <= C)%R /\ (Zv <= Q2R Hm)%R
    /\ (Zv = 0%R <-> C = 0%R \/ Q2R Hm = 0%R).
Proof.
  intros Hs H1 H2.
  do 4 eexists. split; [apply (metrics_parts cfg l1 l2c Hs H1 H2)|].
  pose proof (metric_C_unit l1 l2c) as HC.
  pose proof (metric_Hm_unit (inject_Z l2c / inject_Z l1)) as HH.
  pose proof (metric_bell_unit (sigma_Z cfg) (inject_Z l2c / inject_Z l1)) as HB.
  set (C := metric_C l1 l2c) in *.
  set (Hm := Q2R (metric_Hm (inject_Z l2c / inject_Z l1))) in *.
  set (B := metric_bell (sigma_Z cfg) (inject_Z l2c / inject_Z l1)) in *.
  assert (HCH : (0 <= C * Hm <= 1)%R) by nra.
  assert (HCC : (C * Hm <= C)%R) by nra.
  assert (HHH : (C * Hm <= Hm)%R) by nra.
  assert (HP : (0 <= C * Hm * B <= C * Hm)%R) by nra.
  rewrite (Rmin_right 1 (C * Hm * B)) by lra.
  rewrite (Rmax_right 0 (C * Hm * B)) by lra.
  split; [reflexivity|]. split; [exact HB|].
  split; [lra|]. split; [lra|].
  split.
  - intros E. destruct (Rmult_integral _ _ E) as [E'|E']; [|lra].
    destruct (Rmult_integral _ _ E') as [?|?]; auto.
  - intros [E|E]; rewrite E; ring.
Qed.

Lemma metrics_Z_is_product_witness :
  exists w C Hm Zv,
    metrics DEFAULT_CONFIG 111 195 = Ok (w, C, Hm, Zv)
    /\ (Zv = C * Q2R Hm * metric_bell (sigma_Z DEFAULT_CONFIG) w)%R
    /\ (0 < metric_bell (sigma_Z DEFAULT_CONFIG) w <= 1)%R
    /\ (Zv <= C)%R /\ (Zv <= Q2R Hm)%R
    /\ (Zv = 0%R <-> C = 0%R \/ Q2R Hm = 0%R).
Proof.
  apply (metrics_Z_is_product DEFAULT_CONFIG 111 195).
  - exact default_sigma_nonzero.
  - lia.
  - lia.
Defined.

(* ------------------------------------------------------------------ *)
(** ** Where [Hm] reaches its bounds *)

Lemma Qdiv_pos_facts (e t : Q) :
  (0 < t)%Q ->
  ((0 <= e)%Q -> (0 <= e / t)%Q)
  /\ ((e / t == 0)%Q <-> (e == 0)%Q)
  /\ ((1 <= e / t)%Q <-> (t <= e)%Q).
Proof.
  intros Ht.
  assert (Hne : ~ (t == 0)%Q) by (intros E; rewrite E in Ht; discriminate Ht).
  pose proof (Qmult_div_r e t Hne) as Hm.
  split; [|split].
  - intros He. apply Qle_shift_div_l; [exact Ht|]. rewrite Qmult_0_l. exact He.
  - split.
    + intros E. rewrite E, Qmult_0_r in Hm. symmetry. exact Hm.
    + intros E. rewrite E. unfold Qdiv. apply Qmult_0_l.
  - split.
    + intros H. apply (Qmult_le_l _ _ t Ht) in H.
      rewrite Hm, Qmult_1_r in H. exact H.
    + intros H. apply Qle_shift_div_l; [exact Ht|]. rewrite Qmult_1_l. exact H.
Qed.

Lemma target_dist_facts (w t : Q) :
  (0 < t)%Q ->
  (0 <= target_dist w t)%Q
  /\ ((target_dist w t == 0)%Q <-> (w == t)%Q)
  /\ ((1 <= target_dist w t)%Q <-> (w <= 0 \/ 2 * t <= w)%Q).
Proof.
  intros Ht. unfold target_dist.
  destruct (Qdiv_pos_facts (Qabs (w - t)) t Ht) as (H0 & Hz & H1).
  split; [apply H0, Qabs_nonneg|]. split.
  - rewrite Hz. split.
    + intros E. pose proof (Qabs_Qle_condition (w - t) 0) as [Hc _].
      specialize (Hc ltac:(rewrite E; apply Qle_refl)). Lqa.lra.
    + intros E. assert (Et : (w - t == 0)%Q) by (rewrite E; ring).
      rewrite Et. reflexivity.
  - rewrite H1. apply (Qabs_case (w - t)); intros Hs; split; intros H; Lqa.lra.
Qed.

Lemma Qmin_seq_glb (b x : Q) (l : list Q) :
  (b <= Qmin_seq x l)%Q <-> (b <= x)%Q /\ Forall (fun y => (b <= y)%Q) l.
Proof.
  unfold Qmin_seq. revert x. induction l as [|y l IH]; intros x; cbn [fold_left].
  - split; [intros H; split; [exact H|constructor]|tauto].
  - rewrite IH, Q.min_glb_iff. split.
    + intros [[Hx Hy] Hl]. split; [exact Hx|constructor; assumption].
    + intros [Hx Hl]. inversion Hl; subst. tauto.
Qed.

Lemma Qmin_seq_attained (x : Q) (l : list Q) :
  (Qmin_seq x l == x)%Q \/ Exists (fun y => (Qmin_seq x l == y)%Q) l.
Proof.
  unfold Qmin_seq. revert x. induction l as [|y l IH]; intros x; cbn [fold_left].
  - left. reflexivity.
  - destruct (IH (Qmin x y)) as [E|E].
    + destruct (Q.min_dec x y) as [E'|E'].
      * left. rewrite E. exact E'.
      * right. constructor. rewrite E. exact E'.
    + right. apply Exists_cons_tl. exact E.
Qed.

Lemma metric_Hm_of_min (w : Q) :
  let m := Qmin_seq (target_dist w targets_hd) (map (target_dist w) targets_tl) in
  (0 <= m)%Q
  /\ ((metric_Hm w == 1)%Q <-> (m == 0)%Q)
  /\ ((metric_Hm w == 0)%Q <-> (1 <= m)%Q).
Proof.
  intros m.
  assert (Hm0 : (0 <= m)%Q).
  { apply Qmin_seq_glb. split.
    - apply target_dist_facts. reflexivity.
    - unfold targets_tl. cbn [map].
      repeat constructor; apply target_dist_facts; reflexivity. }
  split; [exact Hm0|].
  unfold metric_Hm. fold m.
  assert (E1 : (Qmin 1 (1 - m) == 1 - m)%Q) by (apply Q.min_r; Lqa.lra).
  rewrite E1.
  destruct (Q.max_spec 0 (1 - m)) as [[Hlt ->]|[Hle ->]]; split; split; intros H; Lqa.lra.
Qed.

Lemma Qmin_seq_zero (x : Q) (l : list Q) :
  (0 <= x)%Q -> Forall (fun y => (0 <= y)%Q) l ->
  (Qmin_seq x l == 0)%Q <-> (x == 0)%Q \/ Exists (fun y => (y == 0)%Q) l.
Proof.
  intros Hx Hl.
  assert (H0 : (0 <= Qmin_seq x l)%Q) by (apply Qmin_seq_glb; auto).
  destruct (proj1 (Qmin_seq_glb (Qmin_seq x l) x l) (Qle_refl _)) as [Lx Ll].
  split.
  - intros Em. destruct (Qmin_seq_attained x l) as [E|E].
    + left. rewrite <- E. exact Em.
    + right. apply Exists_exists in E as (y & Hy & Ey).
      apply Exists_exists. exists y. split; [exact Hy|].
      rewrite <- Ey. exact Em.
  - intros [E|E].
    + apply Qle_antisym; [|exact H0]. rewrite <- E. exact Lx.
    + apply Exists_exists in E as (y & Hy & Ey). rewrite Forall_forall in Ll.
      apply Qle_antisym; [|exact H0]. rewrite <- Ey. apply Ll, Hy.
Qed.

Lemma six_targets_far (w : Q) :
  (0 <= w)%Q ->
  ((w <= 0 \/ 2 * 1 <= w) /\ (w <= 0 \/ 2 * 1.25 <= w) /\ (w <= 0 \/ 2 * 1.33 <= w)
   /\ (w <= 0 \/ 2 * 1.5 <= w) /\ (w <= 0 \/ 2 * 2 <= w) /\ (w <= 0 \/ 2 * 3 <= w))%Q
  <-> (w == 0 \/ 6 <= w)%Q.
Proof.
  intros Hw. split.
  - intros (_ & _ & _ & _ & _ & [H|H]); [left|right]; Lqa.lra.
  - intros [H|H]; repeat split; ((left; Lqa.lra) || (right; Lqa.lra)).
Qed.

Lemma metric_Hm_extremes (w : Q) :
  (0 <= w)%Q ->
  ((metric_Hm w == 1)%Q <->
   (w == 1 \/ w == 1.25 \/ w == 1.33 \/ w == 1.5 \/ w == 2 \/ w == 3)%Q)
  /\ ((metric_Hm w == 0)%Q <-> (w == 0 \/ 6 <= w)%Q).
Proof.
  intros Hw.
  destruct (metric_Hm_of_min w) as (_ & Hone & Hzero).
  destruct (target_dist_facts w 1 ltac:(reflexivity)) as (N1 & Z1 & O1).
  destruct (target_dist_facts w 1.25 ltac:(reflexivity)) as (N2 & Z2 & O2).
  destruct (target_dist_facts w 1.33 ltac:(reflexivity)) as (N3 & Z3 & O3).
  destruct (target_dist_facts w 1.5 ltac:(reflexivity)) as (N4 & Z4 & O4).
  destruct (target_dist_facts w 2 ltac:(reflexivity)) as (N5 & Z5 & O5).
  destruct (target_dist_facts w 3 ltac:(reflexivity)) as (N6 & Z6 & O6).
  split.
  - rewrite Hone. unfold targets_hd, targets_tl. cbn [map].
    rewrite Qmin_seq_zero by (auto; repeat constructor; assumption).
    rewrite !Exists_cons, Exists_nil. tauto.
  - rewrite Hzero. unfold targets_hd, targets_tl. cbn [map].
    rewrite Qmin_seq_glb, !Forall_cons, Forall_nil.
    rewrite <- (six_targets_far w Hw), O1, O2, O3, O4, O5, O6.
    split.
    + intros (A1 & A2 & A3 & A4 & A5 & A6 & _).
      exact (conj A1 (conj A2 (conj A3 (conj A4 (conj A5 A6))))).
    + intros (A1 & A2 & A3 & A4 & A5 & A6).
      exact (conj A1 (conj A2 (conj A3 (conj A4 (conj A5 (conj A6 I)))))).
Qed.

(** X7.  For [l1 >= 1], [l2c >= 0] and a non-zero [sigma_Z], the harmonic
    fit [Hm] of [metrics] is 1 exactly when [w] is one of the six targets
    1, 1.25, 1.33, 1.5, 2, 3, and it is 0 exactly when [w] is 0 or at
    least 6 (twice the largest target). *)
Theorem metrics_Hm_extremes (cfg : Config) (l1 l2c : Z) :
  sigma_nonzero cfg -> 1 <= l1 -> 0 <= l2c ->
  exists w C Hm Zv,
    metrics cfg l1 l2c = Ok (w, C, Hm, Zv)
    /\ ((Hm == 1)%Q <->
        (w == 1 \/ w == 1.25 \/ w == 1.33 \/ w == 1.5 \/ w == 2 \/ w == 3)%Q)
    /\ ((Hm == 0)%Q <-> (w == 0 \/ 6 <= w)%Q).
Proof.
  intros Hs H1 H2.
  do 4 eexists. split; [apply (metrics_parts cfg l1 l2c Hs H1 H2)|].
  apply metric_Hm_extremes.
  assert (Hp : (inject_Z 0 < inject_Z l1)%Q) by (rewrite <- Zlt_Qlt; lia).
  assert (Hn : (inject_Z 0 <= inject_Z l2c)%Q) by (rewrite <- Zle_Qle; lia).
  exact (proj1 (Qdiv_pos_facts (inject_Z l2c) (inject_Z l1) Hp) Hn).
Qed.

Lemma metrics_Hm_extremes_witness :
  exists w C Hm Zv,
    metrics DEFAULT_CONFIG 100 200 = Ok (w, C, Hm, Zv)
    /\ ((Hm == 1)%Q <->
        (w == 1 \/ w == 1.25 \/ w == 1.33 \/ w == 1.5 \/ w == 2 \/ w == 3)%Q)
    /\ ((Hm == 0)%Q <-> (w == 0 \/ 6 <= w)%Q).
Proof.
  apply (metrics_Hm_extremes DEFAULT_CONFIG 100 200).
  - exact default_sigma_nonzero.
  - lia.
  - lia.
Defined.

(* ------------------------------------------------------------------ *)
(** ** Where [C] reaches its bounds *)

Lemma inject_Z_zero (a : Z) : (inject_Z a == 0)%Q <-> a = 0.
Proof. unfold Qeq. cbn [inject_Z Qnum Qden]. lia. Qed.

Lemma metric_ratio_facts (l1 l2c : Z) :
  1 <= l1 -> 0 <= l2c ->
  (0 <= Q2R (metric_ratio l1 l2c) <= 1)%R
  /\ (Q2R (metric_ratio l1 l2c) = 0%R <-> l2c = l1)
  /\ (Q2R (metric_ratio l1 l2c) = 1%R <-> l2c = 0).
Proof.
  intros H1 H2. unfold metric_ratio.
  set (a := Z.abs (l2c - l1)). set (b := l2c + l1).
  assert (Hb : (inject_Z 0 < inject_Z b)%Q) by (rewrite <- Zlt_Qlt; subst b; lia).
  assert (Ha : (inject_Z 0 <= inject_Z a)%Q) by (rewrite <- Zle_Qle; subst a; lia).
  assert (Hab : (inject_Z a <= inject_Z b)%Q) by (rewrite <- Zle_Qle; subst a b; lia).
  destruct (Qdiv_pos_facts (inject_Z a) (inject_Z b) Hb) as (P0 & Pz & P1).
  assert (Hle1 : (inject_Z a / inject_Z b <= 1)%Q).
  { apply Qle_shift_div_r; [exact Hb|]. rewrite Qmult_1_l. exact Hab. }
  assert (R0 : (0 <= Q2R (inject_Z a / inject_Z b))%R).
  { rewrite <- RMicromega.Q2R_0. apply Qreals.Qle_Rle, P0, Ha. }
  assert (R1 : (Q2R (inject_Z a / inject_Z b) <= 1)%R).
  { rewrite <- RMicromega.Q2R_1. apply Qreals.Qle_Rle, Hle1. }
  split; [lra|]. split.
  - split.
    + intros E. rewrite <- RMicromega.Q2R_0 in E. apply Qreals.eqR_Qeq, Pz in E.
      apply (proj1 (inject_Z_zero _)) in E. subst a b. lia.
    + intros E. rewrite <- RMicromega.Q2R_0. apply Qreals.Qeq_eqR, Pz.
      apply (proj2 (inject_Z_zero _)). subst a b. lia.
  - split.
    + intros E. rewrite <- RMicromega.Q2R_1 in E. apply Qreals.eqR_Qeq in E.
      assert (G : (1 <= inject_Z a / inject_Z b)%Q) by (rewrite E; apply Qle_refl).
      apply P1 in G. rewrite <- Zle_Qle in G. subst a b. lia.
    + intros E. rewrite <- RMicromega.Q2R_1. apply Qreals.Qeq_eqR.
      apply Qle_antisym; [exact Hle1|]. apply P1. rewrite <- Zle_Qle. subst a b. lia.
Qed.

Lemma cos_sqr_quarter (r : R) :
  (0 <= r <= 1)%R ->
  ((cos (PI / 2 * r) ^ 2 = 1)%R <-> r = 0%R)
  /\ ((cos (PI / 2 * r) ^ 2 = 0)%R <-> r = 1%R).
Proof.
  intros Hr. pose proof PI_RGT_0 as Hpi.
  assert (Hx : (0 <= PI / 2 * r <= PI / 2)%R) by nra.
  assert (Hc : (0 <= cos (PI / 2 * r))%R) by (apply cos_ge_0; lra).
  pose proof (COS_bound (PI / 2 * r)) as Hb.
  split; split.
  - intros E.
    assert (E1 : cos (PI / 2 * r) = cos 0) by (rewrite cos_0; nra).
    apply cos_inj in E1; [nra|lra|lra].
  - intros ->. rewrite Rmult_0_r, cos_0. ring.
  - intros E.
    assert (E1 : cos (PI / 2 * r) = cos (PI / 2)) by (rewrite cos_PI2; nra).
    apply cos_inj in E1; [nra|lra|lra].
  - intros ->. rewrite Rmult_1_r, cos_PI2. ring.
Qed.

Lemma metric_ratio_sym (l1 l2c : Z) : metric_ratio l1 l2c = metric_ratio l2c l1.
Proof.
  unfold metric_ratio.
  replace (Z.abs (l1 - l2c)) with (Z.abs (l2c - l1)) by lia.
  replace (l1 + l2c) with (l2c + l1) by lia. reflexivity.
Qed.

(** X8.  Under exact arithmetic, for [l1 >= 1], [l2c >= 0] and a non-zero
    [sigma_Z]: the coherence [C] of [metrics] is 1 exactly when
    [l2c = l1]; it is positive for every [l2c >= 1]; it is least at
    [l2c = 0], where the call returns a [C] that is below the [C] of every
    [l2c >= 1] (this least value is 0 in exact arithmetic, and the float
    code returns about 3.7e-33 for it); and [C] is symmetric:
    [metrics(l2c, l1)] returns the same [C] whenever [l2c >= 1]. *)
Theorem metrics_C_extremes (cfg : Config) (l1 l2c : Z) :
  sigma_nonzero cfg -> 1 <= l1 -> 0 <= l2c ->
  exists w C Hm Zv,
    metrics cfg l1 l2c = Ok (w, C, Hm, Zv)
    /\ (C = 1%R <-> l2c = l1)
    /\ (1 <= l2c -> (0 < C)%R)
    /\ (exists w0 C0 Hm0 Z0,
          metrics cfg l1 0 = Ok (w0, C0, Hm0, Z0)
          /\ (C0 <= C)%R /\ (1 <= l2c -> (C0 < C)%R))
    /\ (1 <= l2c ->
        exists w' Hm' Zv', metrics cfg l2c l1 = Ok (w', C, Hm', Zv')).
Proof.
  intros Hs H1 H2.
  do 4 eexists. split; [apply (metrics_parts cfg l1 l2c Hs H1 H2)|].
  destruct (metric_ratio_facts l1 l2c H1 H2) as (Hr & Hr0 & Hr1).
  destruct (cos_sqr_quarter _ Hr) as (Hc1 & Hc0).
  destruct (metric_ratio_facts l1 0 H1 ltac:(lia)) as (Hz & _ & Hz1).
  destruct (cos_sqr_quarter _ Hz) as (_ & Hzc0).
  assert (E0 : metric_C l1 0 = 0%R).
  { unfold metric_C. apply Hzc0, Hz1. reflexivity. }
  assert (Hnn : (0 <= metric_C l1 l2c)%R).
  { unfold metric_C. apply pow2_ge_0. }
  assert (Hpos : 1 <= l2c -> (0 < metric_C l1 l2c)%R).
  { intros Hl. destruct (Req_dec (metric_C l1 l2c) 0) as [E|N]; [|lra].
    exfalso. unfold metric_C in E. apply Hc0, Hr1 in E. lia. }
  split; [unfold metric_C at 1; rewrite Hc1; exact Hr0|].
  split; [exact Hpos|]. split.
  - do 4 eexists. split; [apply (metrics_parts cfg l1 0 Hs H1 ltac:(lia))|].
    rewrite E0. split; [exact Hnn|exact Hpos].
  - intros H3. do 3 eexists.
    rewrite (metrics_parts cfg l2c l1 Hs H3 ltac:(lia)).
    unfold metric_C. rewrite (metric_ratio_sym l2c l1). reflexivity.
Qed.

Lemma metrics_C_extremes_witness :
  exists w C Hm Zv,
    metrics DEFAULT_CONFIG 111 195 = Ok (w, C, Hm, Zv)
    /\ (C = 1%R <-> 195 = 111)
    /\ (0 < C)%R
    /\ (exists w' Hm' Zv', metrics DEFAULT_CONFIG 195 111 = Ok (w', C, Hm', Zv')).
Proof.
  destruct (metrics_C_extremes DEFAULT_CONFIG 111 195 default_sigma_nonzero
              ltac:(lia) ltac:(lia)) as (w & C & Hm & Zv & E & H1 & Hp & _ & Hsym).
  exists w, C, Hm, Zv. split; [exact E|]. split; [exact H1|].
  split; [apply Hp; lia|apply Hsym; lia].
Defined.

(* ------------------------------------------------------------------ *)
(** ** Only the ratio matters *)

Lemma scaled_w (k l1 l2c : Z) :
  1 <= k -> 1 <= l1 ->
  (inject_Z (k * l2c) / inject_Z (k * l1) == inject_Z l2c / inject_Z l1)%Q.
Proof.
  intros Hk H1. rewrite !inject_Z_mult.
  assert (Nk : ~ (inject_Z k == 0)%Q).
  { rewrite inject_Z_zero. lia. }
  assert (N1 : ~ (inject_Z l1 == 0)%Q).
  { rewrite inject_Z_zero. lia. }
  field. split; assumption.
Qed.

Lemma scaled_ratio (k l1 l2c : Z) :
  1 <= k -> 1 <= l1 -> 0 <= l2c ->
  (metric_ratio (k * l1) (k * l2c) == metric_ratio l1 l2c)%Q.
Proof.
  intros Hk H1 H2. unfold metric_ratio.
  replace (Z.abs (k * l2c - k * l1)) with (k * Z.abs (l2c - l1)) by nia.
  replace (k * l2c + k * l1) with (k * (l2c + l1)) by lia.
  rewrite !inject_Z_mult.
  assert (Nk : ~ (inject_Z k == 0)%Q).
  { rewrite inject_Z_zero. lia. }
  assert (N1 : ~ (inject_Z (l2c + l1) == 0)%Q).
  { rewrite inject_Z_zero. lia. }
  field. split; assumption.
Qed.

Lemma metric_Hm_compat (w w' : Q) : (w == w')%Q -> (metric_Hm w == metric_Hm w')%Q.
Proof.
  intros E. unfold metric_Hm, Qmin_seq, target_dist, targets_hd, targets_tl.
  cbn [map fold_left]. rewrite E. reflexivity.
Qed.

Lemma metric_bell_compat (sigma w w' : Q) :
  (w == w')%Q -> metric_bell sigma w = metric_bell sigma w'.
Proof.
  intros E. unfold metric_bell.
  assert (E' : ((w - 2) / sigma == (w' - 2) / sigma)%Q) by (rewrite E; reflexivity).
  rewrite (Qreals.Qeq_eqR _ _ E'). reflexivity.
Qed.

(** X9.  [metrics] depends on its arguments through their ratio only: for
    [k >= 1], [l1 >= 1], [l2c >= 0] and a non-zero [sigma_Z], the call on
    [(k * l1, k * l2c)] returns the same [C] and [Z] as the call on
    [(l1, l2c)], and a [w] and an [Hm] of the same value. *)
Theorem metrics_scale_invariant (cfg : Config) (k l1 l2c : Z) :
  sigma_nonzero cfg -> 1 <= k -> 1 <= l1 -> 0 <= l2c ->
  exists w C Hm Zv w' Hm',
    metrics cfg l1 l2c = Ok (w, C, Hm, Zv)
    /\ metrics cfg (k * l1) (k * l2c) = Ok (w', C, Hm', Zv)
    /\ (w' == w)%Q /\ (Hm' == Hm)%Q.
Proof.
  intros Hs Hk H1 H2.
  pose proof (scaled_w k l1 l2c Hk H1) as Ew.
  pose proof (scaled_ratio k l1 l2c Hk H1 H2) as Er.
  pose proof (metric_Hm_compat _ _ Ew) as EH.
  assert (EC : metric_C (k * l1) (k * l2c) = metric_C l1 l2c).
  { unfold metric_C. rewrite (Qreals.Qeq_eqR _ _ Er). reflexivity. }
  exists (inject_Z l2c / inject_Z l1)%Q, (metric_C l1 l2c),
         (metric_Hm (inject_Z l2c / inject_Z l1)),
         (Rmax 0 (Rmin 1 (metric_C l1 l2c
                          * Q2R (metric_Hm (inject_Z l2c / inject_Z l1))
                          * metric_bell (sigma_Z cfg) (inject_Z l2c / inject_Z l1)))),
         (inject_Z (k * l2c) / inject_Z (k * l1))%Q,
         (metric_Hm (inject_Z (k * l2c) / inject_Z (k * l1))).
  split; [apply (metrics_parts cfg l1 l2c Hs H1 H2)|].
  split; [|split; [exact Ew|exact EH]].
  rewrite (metrics_parts cfg (k * l1) (k * l2c) Hs ltac:(nia) ltac:(nia)).
  rewrite EC, (Qreals.Qeq_eqR _ _ EH), (metric_bell_compat _ _ _ Ew). reflexivity.
Qed.

Lemma metrics_scale_invariant_witness :
  exists w C Hm Zv w' Hm',
    metrics DEFAULT_CONFIG 111 195 = Ok (w, C, Hm, Zv)
    /\ metrics DEFAULT_CONFIG (3 * 111) (3 * 195) = Ok (w', C, Hm', Zv)
    /\ (w' == w)%Q /\ (Hm' == Hm)%Q.
Proof.
  apply (metrics_scale_invariant DEFAULT_CONFIG 3 111 195).
  - exact default_sigma_nonzero.
  - lia.
  - lia.
  - lia.
Defined.

(* ================================================================== *)
(** * [force_recalc_row] without stored codes *)

(** X10.  Called without stored codes, [force_recalc_row] raises
    [ZeroDivisionError] on a word that has no letter of the alphabet,
    whatever the configuration (its code 0 is spelled and then divides in
    [metrics]).  On a word with letters whose code is at most 999999 it
    returns, when [sigma_Z] is not zero, a row that keeps the word as
    passed and holds the code of the word and the parsed [allowed]; when
    [sigma_Z] is zero it raises [ZeroDivisionError] for such a word too.
    On a word whose code exceeds 999999 it returns, whatever [sigma_Z]
    is, a row with the word as passed, an empty [l1] and the [allowed]
    value as passed. *)
Theorem force_recalc_row_letterless (cfg : Config) (word sphere tone : pystr)
    (allowed : pyval) (notes field role : option pystr) :
  (normalize word = [] ->
   force_recalc_row cfg word sphere tone allowed notes None None field role
   = Raise ZeroDivisionError)
  /\ (normalize word <> [] -> kryon_sum (normalize word) <= 999999 ->
      sigma_nonzero cfg ->
      exists row,
        force_recalc_row cfg word sphere tone allowed notes None None field role = Ok row
        /\ col_word row = Some word
        /\ col_l1 row = VInt (kryon_sum (normalize word))
        /\ col_allowed row = VBool (parse_bool allowed))
  /\ (normalize word <> [] -> kryon_sum (normalize word) <= 999999 ->
      (sigma_Z cfg == 0)%Q ->
      force_recalc_row cfg word sphere tone allowed notes None None field role
      = Raise ZeroDivisionError)
  /\ (normalize word <> [] -> 999999 < kryon_sum (normalize word) ->
      exists row,
        force_recalc_row cfg word sphere tone allowed notes None None field role = Ok row
        /\ col_word row = Some word
        /\ col_l1 row = VNone /\ col_allowed row = allowed).
Proof.
  assert (Hcode : normalize word <> [] ->
                  snd (calc_l1_from_string word) = kryon_sum (normalize word)
                  /\ 1 <= kryon_sum (normalize word)).
  { intros E. split.
    - unfold calc_l1_from_string. destruct (normalize word); [congruence|reflexivity].
    - apply kryon_sum_positive; [exact E|apply normalize_letters]. }
  split; [|split; [|split]].
  - intros E. unfold force_recalc_row, calc_l1_from_string. rewrite E. cbn [snd].
    destruct (calc_l2c_ok 0 ltac:(lia)) as (l2c & words & glued & Hc & _).
    rewrite Hc. cbn [rbind]. reflexivity.
  - intros E Hle Hs. destruct (Hcode E) as [El H1].
    unfold force_recalc_row. rewrite El.
    destruct (calc_l2c_ok (kryon_sum (normalize word)) ltac:(lia))
      as (l2c & words & glued & Hc & Hr).
    rewrite Hc. cbn [rbind].
    destruct (metrics_ok cfg (kryon_sum (normalize word)) l2c Hs ltac:(lia) ltac:(lia))
      as (C & Hm & Zv & Hmet & _).
    rewrite Hmet. cbn [rbind].
    eexists. split; [reflexivity|]. cbn [col_word col_l1 col_allowed].
    split; [reflexivity|]. split; reflexivity.
  - intros E Hle Hz. destruct (Hcode E) as [El H1].
    unfold force_recalc_row. rewrite El.
    destruct (calc_l2c_ok (kryon_sum (normalize word)) ltac:(lia))
      as (l2c & words & glued & Hc & Hr).
    rewrite Hc. cbn [rbind].
    rewrite (metrics_zero_sigma cfg (kryon_sum (normalize word)) l2c Hz ltac:(lia)
               ltac:(lia)). reflexivity.
  - intros E Hgt. destruct (Hcode E) as [El H1].
    unfold force_recalc_row. rewrite El.
    rewrite calc_l2c_out_of_range by lia. cbn [rbind].
    eexists. split; [reflexivity|]. cbn [col_word col_l1 col_allowed].
    split; [reflexivity|]. split; reflexivity.
Qed.

Lemma force_recalc_row_letterless_witness :
  force_recalc_row DEFAULT_CONFIG (U "123") (U "прочее") (U "neutral") (VBool true)
    None None None None None = Raise ZeroDivisionError
  /\ force_recalc_row ZERO_SIGMA_CONFIG (U "МИР") (U "прочее") (U "neutral") (VBool true)
       None None None None None = Raise ZeroDivisionError.
Proof.
  split.
  - apply (proj1 (force_recalc_row_letterless DEFAULT_CONFIG (U "123") (U "прочее")
                    (U "neutral") (VBool true) None None None)).
    vm_compute. reflexivity.
  - apply (proj1 (proj2 (proj2 (force_recalc_row_letterless ZERO_SIGMA_CONFIG (U "МИР")
                                  (U "прочее") (U "neutral") (VBool true)
                                  None None None)))).
    + vm_compute. discriminate.
    + vm_compute. discriminate.
    + reflexivity.
Defined.

(** X11.  Codes passed to [force_recalc_row] are taken as they are.  With
    [l1 >= 1] and [l2c >= 0] given and a non-zero [sigma_Z], the row holds
    these two codes and the metrics of this pair whatever the word is, so
    two calls that differ in the word alone give the same derived cells.
    With [sigma_Z = 0] the same call raises [ZeroDivisionError]; and
    whatever [sigma_Z] is, a stored [l1 = 0] with a stored [l2c] raises
    [ZeroDivisionError]. *)
Theorem force_recalc_row_stored_codes (cfg : Config) (word word' sphere tone : pystr)
    (allowed : pyval) (notes field role : option pystr) (l1 l2c : Z) :
  1 <= l1 -> 0 <= l2c ->
  (sigma_nonzero cfg ->
   exists row row' w C Hm Zv,
     force_recalc_row cfg word sphere tone allowed notes (Some l1) (Some l2c) field role
     = Ok row
     /\ force_recalc_row cfg word' sphere tone allowed notes (Some l1) (Some l2c) field role
        = Ok row'
     /\ metrics cfg l1 l2c = Ok (w, C, Hm, Zv)
     /\ row_derived row
        = (VInt l1, VInt l2c, VFloat (FFin (Q2R w)), VFloat (FFin C),
           VFloat (FFin (Q2R Hm)), VFloat (FFin Zv))
     /\ row_derived row' = row_derived row
     /\ col_word row = Some word /\ col_word row' = Some word')
  /\ ((sigma_Z cfg == 0)%Q ->
      force_recalc_row cfg word sphere tone allowed notes (Some l1) (Some l2c) field role
      = Raise ZeroDivisionError)
  /\ force_recalc_row cfg word sphere tone allowed notes (Some 0) (Some l2c) field role
     = Raise ZeroDivisionError.
Proof.
  intros H1 H2. split; [|split; [|reflexivity]].
  - intros Hs.
    destruct (metrics_ok cfg l1 l2c Hs ltac:(lia) ltac:(lia)) as (C & Hm & Zv & Hmet & _).
    unfold force_recalc_row. cbn [rbind]. rewrite Hmet. cbn [rbind].
    do 6 eexists. split; [reflexivity|]. split; [reflexivity|].
    split; [reflexivity|]. unfold row_derived.
    cbn [col_l1 col_l2c col_w col_C col_Hm col_Z col_word].
    repeat split; reflexivity.
  - intros Hz. unfold force_recalc_row. cbn [rbind].
    rewrite (metrics_zero_sigma cfg l1 l2c Hz ltac:(lia) ltac:(lia)). reflexivity.
Qed.

Lemma force_recalc_row_stored_codes_witness :
  exists row,
    force_recalc_row DEFAULT_CONFIG (U "МИР") (U "прочее") (U "neutral") (VBool true)
      None (Some 7) (Some 7) None None = Ok row
    /\ col_l1 row = VInt 7 /\ col_l2c row = VInt 7.
Proof.
  destruct (force_recalc_row_stored_codes DEFAULT_CONFIG (U "МИР") (U "ДОМ") (U "прочее")
              (U "neutral") (VBool true) None None None 7 7 ltac:(lia) ltac:(lia))
    as (Hrow & _).
  destruct (Hrow default_sigma_nonzero) as (row & row' & w & C & Hm & Zv & E & _ & _ & Hd & _).
  exists row. split; [exact E|].
  unfold row_derived in Hd. injection Hd as -> -> _ _ _ _. split; reflexivity.
Defined.

(* ================================================================== *)
(** * The first letter's impulse *)

Lemma classify_initial_cases (v : option Z) :
  (exists t d m, classify_initial v = (Some t, Some d, Some m)
                 /\ exists n, v = Some n /\ 1 <= n <= 33)
  \/ (classify_initial v = (None, None, None)
      /\ forall n, v = Some n -> ~ 1 <= n <= 33).
Proof.
  destruct v as [n|]; [|right; split; [reflexivity|intros n E; discriminate E]].
  unfold classify_initial.
  destruct (n =? 0) eqn:E0.
  { right. split; [reflexivity|]. intros n' E. injection E as <-. lia. }
  destruct ((1 <=? n) && (n <=? 7)) eqn:E1.
  { left. do 3 eexists. split; [reflexivity|]. exists n. split; [reflexivity|lia]. }
  destruct ((8 <=? n) && (n <=? 16)) eqn:E2.
  { left. do 3 eexists. split; [reflexivity|]. exists n. split; [reflexivity|lia]. }
  destruct ((17 <=? n) && (n <=? 22)) eqn:E3.
  { left. do 3 eexists. split; [reflexivity|]. exists n. split; [reflexivity|lia]. }
  destruct ((23 <=? n) && (n <=? 25)) eqn:E4.
  { left. do 3 eexists. split; [reflexivity|]. exists n. split; [reflexivity|lia]. }
  destruct ((26 <=? n) && (n <=? 33)) eqn:E5.
  { left. do 3 eexists. split; [reflexivity|]. exists n. split; [reflexivity|lia]. }
  right. split; [reflexivity|]. intros n' E. injection E as <-. lia.
Qed.

Lemma kryon_letter_lookup (c : N) :
  is_kryon_letter c = true -> exists n, KRYON_MAP !! c = Some n /\ 1 <= n <= 33.
Proof.
  intros H.
  set (P := fun c : N => match KRYON_MAP !! c with
                         | Some n => (1 <=? n) && (n <=? 33)
                         | None => false
                         end).
  assert (G : P c = true).
  { apply kryon_letter_forall; [vm_compute; reflexivity|vm_compute; reflexivity|exact H]. }
  unfold P in G. destruct (KRYON_MAP !! c) as [n|]; [|discriminate G].
  exists n. split; [reflexivity|lia].
Qed.

(** X12.  [classify_initial] names a type exactly for the codes 1 to 33,
    and answers [(None, None, None)] for any other argument; and in
    [analyze_word] the first letter of every text that has a letter of the
    alphabet has such a code, so the reported impulse is never empty. *)
Theorem first_impulse_defined :
  (forall v,
     (exists t d m, classify_initial v = (Some t, Some d, Some m))
     <-> (exists n, v = Some n /\ 1 <= n <= 33))
  /\ (forall v,
        (forall n, v = Some n -> ~ 1 <= n <= 33) ->
        classify_initial v = (None, None, None))
  /\ (forall s,
        normalize s <> [] ->
        exists c n t d m,
          first_char (fst (calc_l1_from_string s)) = [c]
          /\ is_kryon_letter c = true
          /\ first_val [c] = Some n /\ n = kryon c /\ 1 <= n <= 33
          /\ first_impulse (fst (calc_l1_from_string s)) = (Some t, Some d, Some m)).
Proof.
  split; [|split].
  - intros v. split.
    + intros (t & d & m & E).
      destruct (classify_initial_cases v) as [(_ & _ & _ & _ & Hn)|(E' & _)];
        [exact Hn|congruence].
    + intros (n & -> & Hn).
      destruct (classify_initial_cases (Some n)) as [(t & d & m & E & _)|(_ & Hno)].
      * exists t, d, m. exact E.
      * exfalso. exact (Hno n eq_refl Hn).
  - intros v Hv.
    destruct (classify_initial_cases v) as [(_ & _ & _ & _ & n & E & Hn)|(E' & _)];
      [exfalso; exact (Hv n E Hn)|exact E'].
  - intros s Hs.
    pose proof (normalize_letters s) as Hl.
    unfold first_impulse, calc_l1_from_string.
    destruct (normalize s) as [|c r] eqn:E; [congruence|]. cbn [fst first_char firstn].
    assert (Hc : is_kryon_letter c = true) by (inversion Hl; assumption).
    destruct (kryon_letter_lookup c Hc) as (n & En & Hn).
    destruct (classify_initial_cases (Some n)) as [(t & d & m & Ec & _)|(_ & Hno)];
      [|exfalso; exact (Hno n eq_refl Hn)].
    exists c, n, t, d, m. cbn [first_val]. rewrite En.
    split; [reflexivity|]. split; [exact Hc|]. split; [reflexivity|].
    split; [unfold kryon; rewrite En; reflexivity|]. split; [exact Hn|exact Ec].
Qed.

(* ================================================================== *)
(** * The verdict of [fractal_unfold] *)

Lemma breath_marks_length (ws : list Q) :
  length (breath_marks ws) = (length ws - 1)%nat.
Proof.
  induction ws as [|a [|b r] IH]; [reflexivity|reflexivity|].
  change (breath_marks (a :: b :: r)) with (Qlt_bool a b :: breath_marks (b :: r)).
  cbn [length] in *. rewrite IH. lia.
Qed.

Lemma marks_count (marks : list bool) :
  (length (List.filter (fun m : bool => m) marks) + length (List.filter negb marks)
   = length marks)%nat.
Proof.
  induction marks as [|[|] r IH]; cbn [List.filter negb length]; lia.
Qed.

Lemma breath_verdict_eleven (i e : Z) :
  0 <= i -> 0 <= e -> i + e = 11 ->
  breath_verdict i e
  = if 6 <=? i then U "слово раскрывается" else U "слово стабилизирует поле".
Proof.
  intros Hi He Hsum.
  assert (H : i = 0 \/ i = 1 \/ i = 2 \/ i = 3 \/ i = 4 \/ i = 5 \/ i = 6 \/ i = 7
              \/ i = 8 \/ i = 9 \/ i = 10 \/ i = 11) by lia.
  assert (E : e = 11 - i) by lia. subst e.
  repeat (destruct H as [->|H]; [vm_compute; reflexivity|]).
  subst i. vm_compute. reflexivity.
Qed.

Lemma fractal_unfold_verdict_eq (cfg : Config) (l1 : Z) (ws : list Q) :
  fractal_w_values cfg l1 = Ok ws -> ws <> [] ->
  fractal_unfold cfg l1
  = Ok (map (fun m : bool => if m then ch "●" else ch "○") (breath_marks ws) ++ [ch "→"],
        Z.of_nat (length (List.filter (fun m : bool => m) (breath_marks ws))),
        Z.of_nat (length (List.filter negb (breath_marks ws))),
        (if Z.of_nat (length (List.filter negb (breath_marks ws))) =? 0
         then (if 0 <? Z.of_nat (length (List.filter (fun m : bool => m) (breath_marks ws)))
               then QInf else QFin 1.0)
         else QFin (inject_Z (Z.of_nat (length (List.filter (fun m : bool => m)
                                                            (breath_marks ws))))
                    / inject_Z (Z.of_nat (length (List.filter negb (breath_marks ws)))))),
        breath_verdict
          (Z.of_nat (length (List.filter (fun m : bool => m) (breath_marks ws))))
          (Z.of_nat (length (List.filter negb (breath_marks ws))))).
Proof.
  intros E Hne. unfold fractal_unfold. rewrite E. cbn [rbind].
  destruct ws as [|a r]; [congruence|]. reflexivity.
Qed.

(** X13.  For [1 <= l1 <= 999999] and a non-zero [sigma_Z], [fractal_unfold]
    returns a pattern of 12 characters: 11 marks, each [●] or [○], and the
    final arrow; [inhale] counts the [●] and [exhale] the [○], so
    [inhale + exhale = 11].  The sum being odd, the verdict is
    [слово раскрывается] when [inhale >= 6] and [слово стабилизирует поле]
    when [inhale <= 5]; [слово в равновесии] is never returned, nor is
    the [out_of_range] sentinel. *)
Theorem fractal_unfold_verdict (cfg : Config) (l1 : Z) :
  sigma_nonzero cfg -> 1 <= l1 <= 999999 ->
  exists marks inhale exhale R interp,
    fractal_unfold cfg l1 = Ok (marks ++ [ch "→"], inhale, exhale, R, interp)
    /\ length marks = 11%nat
    /\ Forall (fun c => c = ch "●" \/ c = ch "○") marks
    /\ inhale = Z.of_nat (count_occ N.eq_dec marks (ch "●"))
    /\ exhale = Z.of_nat (count_occ N.eq_dec marks (ch "○"))
    /\ inhale + exhale = 11
    /\ (6 <= inhale -> interp = U "слово раскрывается")
    /\ (inhale <= 5 -> interp = U "слово стабилизирует поле")
    /\ interp <> U "слово в равновесии"
    /\ interp <> U "out_of_range".
Proof.
  intros Hs Hl.
  destruct (unfold_loop_full cfg 12 Hs l1 [] Hl) as (ws & Ew & Hlen).
  cbn [length Nat.add] in Hlen.
  assert (Hne : ws <> []) by (intros ->; discriminate Hlen).
  rewrite (fractal_unfold_verdict_eq cfg l1 ws Ew Hne).
  pose proof (breath_marks_length ws) as Hm. rewrite Hlen in Hm. cbn in Hm.
  pose proof (marks_count (breath_marks ws)) as Hc. rewrite Hm in Hc.
  set (marks := breath_marks ws) in *.
  assert (Hcount : forall l : list bool,
             count_occ N.eq_dec (map (fun m : bool => if m then ch "●" else ch "○") l)
                       (ch "●")
             = length (List.filter (fun m : bool => m) l)
             /\ count_occ N.eq_dec (map (fun m : bool => if m then ch "●" else ch "○") l)
                          (ch "○")
                = length (List.filter negb l)).
  { induction l as [|[|] r [IH1 IH2]]; [split; reflexivity| |].
    - cbn [map List.filter negb length count_occ].
      destruct (N.eq_dec (ch "●") (ch "●")) as [_|F]; [|congruence].
      destruct (N.eq_dec (ch "●") (ch "○")) as [F|_]; [vm_compute in F; discriminate F|].
      rewrite IH1, IH2. split; reflexivity.
    - cbn [map List.filter negb length count_occ].
      destruct (N.eq_dec (ch "○") (ch "○")) as [_|F]; [|congruence].
      destruct (N.eq_dec (ch "○") (ch "●")) as [F|_]; [vm_compute in F; discriminate F|].
      rewrite IH1, IH2. split; reflexivity. }
  destruct (Hcount marks) as [Hc1 Hc2].
  set (i := Z.of_nat (length (List.filter (fun m : bool => m) marks))) in *.
  set (e := Z.of_nat (length (List.filter negb marks))) in *.
  assert (Hsum : i + e = 11) by (subst i e; lia).
  assert (Hi : 0 <= i) by (subst i; lia).
  assert (He : 0 <= e) by (subst e; lia).
  pose proof (breath_verdict_eleven i e Hi He Hsum) as Hv.
  do 5 eexists. split; [reflexivity|].
  split; [rewrite length_map; exact Hm|].
  split.
  { apply List.Forall_forall. intros c Hin. apply in_map_iff in Hin.
    destruct Hin as ([|] & <- & _); [left|right]; reflexivity. }
  split; [subst i; rewrite Hc1; reflexivity|].
  split; [subst e; rewrite Hc2; reflexivity|].
  split; [exact Hsum|].
  rewrite Hv.
  destruct (6 <=? i) eqn:E6.
  - split; [reflexivity|]. split; [intros F; lia|].
    split; intros F; vm_compute in F; discriminate F.
  - split; [intros F; lia|]. split; [reflexivity|].
    split; intros F; vm_compute in F; discriminate F.
Qed.

Lemma fractal_unfold_verdict_witness :
  exists marks inhale exhale R interp,
    fractal_unfold DEFAULT_CONFIG 48 = Ok (marks ++ [ch "→"], inhale, exhale, R, interp)
    /\ length marks = 11%nat
    /\ inhale + exhale = 11
    /\ interp <> U "слово в равновесии".
Proof.
  destruct (fractal_unfold_verdict DEFAULT_CONFIG 48 default_sigma_nonzero ltac:(lia))
    as (marks & inhale & exhale & R & interp & E & Hl & _ & _ & _ & Hsum & _ & _ & Hn & _).
  exists marks, inhale, exhale, R, interp.
  split; [exact E|]. split; [exact Hl|]. split; [exact Hsum|exact Hn].
Defined.

(* ================================================================== *)
(** * Rounding and the bars *)

Lemma Int_part_bounds (x : R) : (IZR (Int_part x) <= x < IZR (Int_part x) + 1)%R.
Proof. destruct (base_Int_part x) as [H1 H2]. lra. Qed.

Lemma py_round_ge (x : R) (a : Z) : (IZR a <= x)%R -> a <= py_round x.
Proof.
  intros H. pose proof (Int_part_bounds x) as [H1 H2].
  assert (Ha : a < Int_part x + 1).
  { apply lt_IZR. rewrite plus_IZR. lra. }
  unfold py_round.
  destruct (Rlt_dec _ _); [lia|]. destruct (Rlt_dec _ _); [lia|].
  destruct (Z.even _); lia.
Qed.

Lemma py_round_le (x : R) (b : Z) : (x <= IZR b)%R -> py_round x <= b.
Proof.
  intros H. pose proof (Int_part_bounds x) as [H1 H2].
  assert (Hb : Int_part x <= b) by (apply le_IZR; lra).
  unfold py_round.
  destruct (Rlt_dec (x - IZR (Int_part x)) (1 / 2)) as [Hd|Hd]; [lia|].
  assert (Hb' : Int_part x < b) by (apply lt_IZR; lra).
  destruct (Rlt_dec _ _); [lia|]. destruct (Z.even _); lia.
Qed.

Lemma py_round_IZR (n : Z) : py_round (IZR n) = n.
Proof.
  apply Z.le_antisymm; [apply py_round_le|apply py_round_ge]; lra.
Qed.

Lemma py_round_near (x : R) (k : Z) :
  (IZR k - 1 / 2 < x < IZR k + 1 / 2)%R -> py_round x = k.
Proof.
  intros [Hl Hu]. pose proof (Int_part_bounds x) as [H1 H2].
  assert (Hf1 : Int_part x < k + 1) by (apply lt_IZR; rewrite plus_IZR; lra).
  assert (Hf2 : k - 2 < Int_part x) by (apply lt_IZR; rewrite minus_IZR; lra).
  assert (Hf : Int_part x = k \/ Int_part x = k - 1) by lia.
  unfold py_round. destruct Hf as [E|E]; rewrite E in *.
  - destruct (Rlt_dec (x - IZR k) (1 / 2)); [reflexivity|lra].
  - rewrite minus_IZR in *.
    destruct (Rlt_dec (x - (IZR k - 1)) (1 / 2)); [lra|].
    destruct (Rlt_dec (1 / 2) (x - (IZR k - 1))); [lia|lra].
Qed.

Lemma py_round_mono (x y : R) : (x <= y)%R -> py_round x <= py_round y.
Proof.
  intros H. pose proof (Int_part_bounds x) as [Hx1 Hx2].
  pose proof (Int_part_bounds y) as [Hy1 Hy2].
  assert (Hfg : Int_part x <= Int_part y).
  { assert (Int_part x < Int_part y + 1); [|lia].
    apply lt_IZR. rewrite plus_IZR. lra. }
  destruct (Z.eq_dec (Int_part x) (Int_part y)) as [E|N].
  - unfold py_round. rewrite <- E.
    destruct (Rlt_dec (x - IZR (Int_part x)) (1 / 2)) as [A|A];
      destruct (Rlt_dec (y - IZR (Int_part x)) (1 / 2)) as [B|B]; try lia; try lra.
    + destruct (Rlt_dec _ _); [lia|]. destruct (Z.even _); lia.
    + destruct (Rlt_dec (1 / 2) (x - IZR (Int_part x))) as [A'|A'];
        destruct (Rlt_dec (1 / 2) (y - IZR (Int_part x))) as [B'|B']; try lia; try lra.
      destruct (Z.even _); lia.
  - assert (Hx : py_round x <= Int_part x + 1).
    { apply py_round_le. rewrite plus_IZR. lra. }
    assert (Hy : Int_part y <= py_round y) by (apply py_round_ge; lra).
    lia.
Qed.

Lemma bar_shape (a b : N) (s n : Z) :
  0 <= s <= n ->
  repeat a (Z.to_nat s) ++ repeat b (Z.to_nat (n - s))
  = repeat a (Z.to_nat s) ++ repeat b (Z.to_nat n - Z.to_nat s)
  /\ length (repeat a (Z.to_nat s) ++ repeat b (Z.to_nat (n - s))) = Z.to_nat n
  /\ (Z.to_nat s <= Z.to_nat n)%nat.
Proof.
  intros H. rewrite Z2Nat.inj_sub by lia. split; [reflexivity|].
  rewrite length_app, !repeat_length. lia.
Qed.

(** X14.  The bar of [fii_bar] always has 10 cells, the filled ones first,
    and the number [k] of filled cells agrees with the category: at most 2
    for [Разрушитель] ([fii <= -6]), 2 to 4 for [Ослабитель]
    ([-6 < fii <= -2]), 4 to 6 for [Нейтральное] ([-2 < fii < 2]), 6 to 8
    for [Гармонизатор] ([2 <= fii < 6]) and at least 8 for [Резонатор]
    ([fii >= 6]). *)
Theorem fii_bar_consistent (fii : R) :
  exists k : nat,
    (k <= 10)%nat
    /\ fst (fii_bar fii) = repeat (ch "▰") k ++ repeat (ch "▱") (10 - k)
    /\ length (fst (fii_bar fii)) = 10%nat
    /\ ((fii <= -6)%R -> snd (fii_bar fii) = CAT_DESTROYER /\ (k <= 2)%nat)
    /\ ((-6 < fii <= -2)%R -> snd (fii_bar fii) = CAT_DISSIPATOR /\ (2 <= k <= 4)%nat)
    /\ ((-2 < fii < 2)%R -> snd (fii_bar fii) = CAT_NEUTRAL /\ (4 <= k <= 6)%nat)
    /\ ((2 <= fii < 6)%R -> snd (fii_bar fii) = CAT_HARMONIZER /\ (6 <= k <= 8)%nat)
    /\ ((6 <= fii)%R -> snd (fii_bar fii) = CAT_RESONATOR /\ (8 <= k)%nat).
Proof.
  set (s := Z.max 0 (Z.min 10 (py_round ((fii + 10) / 2)))).
  assert (Hs : 0 <= s <= 10) by (subst s; lia).
  destruct (bar_shape (ch "▰") (ch "▱") s 10 Hs) as (Hb & Hlen & Hk).
  exists (Z.to_nat s).
  split; [exact Hk|]. split; [exact Hb|]. split; [exact Hlen|].
  assert (Hge : forall a : Z, 0 <= a <= 10 -> (IZR a <= (fii + 10) / 2)%R ->
                              (Z.to_nat a <= Z.to_nat s)%nat).
  { intros a Ha H. apply (py_round_ge _ a) in H. subst s. lia. }
  assert (Hle : forall b : Z, 0 <= b <= 10 -> ((fii + 10) / 2 <= IZR b)%R ->
                              (Z.to_nat s <= Z.to_nat b)%nat).
  { intros b Hb' H. apply (py_round_le _ b) in H. subst s. lia. }
  unfold fii_bar. cbn [snd].
  split; [|split; [|split; [|split]]].
  - intros H. destruct (Rle_dec fii (-6)); [|lra].
    split; [reflexivity|]. apply (Hle 2); [lia|lra].
  - intros H. destruct (Rle_dec fii (-6)); [lra|]. destruct (Rle_dec fii (-2)); [|lra].
    split; [reflexivity|]. split; [apply (Hge 2); [lia|lra]|apply (Hle 4); [lia|lra]].
  - intros H. destruct (Rle_dec fii (-6)); [lra|]. destruct (Rle_dec fii (-2)); [lra|].
    destruct (Rlt_dec fii 2); [|lra].
    split; [reflexivity|]. split; [apply (Hge 4); [lia|lra]|apply (Hle 6); [lia|lra]].
  - intros H. destruct (Rle_dec fii (-6)); [lra|]. destruct (Rle_dec fii (-2)); [lra|].
    destruct (Rlt_dec fii 2); [lra|]. destruct (Rlt_dec fii 6); [|lra].
    split; [reflexivity|]. split; [apply (Hge 6); [lia|lra]|apply (Hle 8); [lia|lra]].
  - intros H. destruct (Rle_dec fii (-6)); [lra|]. destruct (Rle_dec fii (-2)); [lra|].
    destruct (Rlt_dec fii 2); [lra|]. destruct (Rlt_dec fii 6); [lra|].
    split; [reflexivity|]. apply (Hge 8); [lia|lra].
Qed.

Lemma bar_fill_agree (q : R) (n : Z) :
  0 <= n ->
  Z.max 0 (Z.min n (py_round (q * IZR n))) = py_round (Rmax 0.0 (Rmin 1.0 q) * IZR n)
  /\ 0 <= py_round (Rmax 0.0 (Rmin 1.0 q) * IZR n) <= n.
Proof.
  intros Hn. assert (Hn' : (0 <= IZR n)%R) by (apply IZR_le; exact Hn).
  destruct (Rle_dec q 0) as [H0|H0].
  - replace (Rmax 0.0 (Rmin 1.0 q)) with 0%R
      by (unfold Rmax, Rmin; repeat destruct (Rle_dec _ _); lra).
    rewrite Rmult_0_l. rewrite (py_round_IZR 0).
    assert (py_round (q * IZR n) <= 0) by (apply py_round_le; nra). lia.
  - destruct (Rle_dec 1 q) as [H1|H1].
    + replace (Rmax 0.0 (Rmin 1.0 q)) with 1%R
        by (unfold Rmax, Rmin; repeat destruct (Rle_dec _ _); lra).
      rewrite Rmult_1_l. rewrite py_round_IZR.
      assert (n <= py_round (q * IZR n)) by (apply py_round_ge; nra). lia.
    + replace (Rmax 0.0 (Rmin 1.0 q)) with q
        by (unfold Rmax, Rmin; repeat destruct (Rle_dec _ _); lra).
      assert (0 <= py_round (q * IZR n)) by (apply py_round_ge; nra).
      assert (py_round (q * IZR n) <= n) by (apply py_round_le; nra). lia.
Qed.

(** X15.  The two bar printers agree: for every value [q] and every length
    [n >= 0], [q_bar(q, n)] (which clamps the rounded count) and
    [fmt_bar(q, n)] (which clamps the value before rounding) return the
    same string of [n] cells, filled cells first; it is all empty for
    [q <= 0] and all filled for [q >= 1]. *)
Theorem q_bar_fmt_bar_agree (q : R) (n : Z) :
  0 <= n ->
  q_bar q n = fmt_bar q n
  /\ length (q_bar q n) = Z.to_nat n
  /\ (exists k : nat, (k <= Z.to_nat n)%nat
        /\ q_bar q n = repeat (ch "▰") k ++ repeat (ch "▱") (Z.to_nat n - k))
  /\ ((q <= 0)%R -> q_bar q n = repeat (ch "▱") (Z.to_nat n))
  /\ ((1 <= q)%R -> q_bar q n = repeat (ch "▰") (Z.to_nat n)).
Proof.
  intros Hn. assert (Hn' : (0 <= IZR n)%R) by (apply IZR_le; exact Hn).
  destruct (bar_fill_agree q n Hn) as [E Hr].
  unfold q_bar, fmt_bar. cbv zeta. rewrite E.
  set (s := py_round (Rmax 0.0 (Rmin 1.0 q) * IZR n)) in *.
  destruct (bar_shape (ch "▰") (ch "▱") s n Hr) as (Hb & Hlen & Hk).
  split; [reflexivity|]. split; [exact Hlen|].
  split; [exists (Z.to_nat s); split; [exact Hk|exact Hb]|].
  split.
  - intros H0. assert (Es : s = 0).
    { subst s. replace (Rmax 0.0 (Rmin 1.0 q)) with 0%R
        by (unfold Rmax, Rmin; repeat destruct (Rle_dec _ _); lra).
      rewrite Rmult_0_l. apply (py_round_IZR 0). }
    rewrite Es. rewrite Z.sub_0_r. reflexivity.
  - intros H1. assert (Es : s = n).
    { subst s. replace (Rmax 0.0 (Rmin 1.0 q)) with 1%R
        by (unfold Rmax, Rmin; repeat destruct (Rle_dec _ _); lra).
      rewrite Rmult_1_l. apply py_round_IZR. }
    rewrite Es, Z.sub_diag. cbn [Z.to_nat repeat]. apply app_nil_r.
Qed.

Lemma q_bar_fmt_bar_agree_witness :
  q_bar (1 / 2) 10 = fmt_bar (1 / 2) 10 /\ length (q_bar (1 / 2) 10) = 10%nat.
Proof.
  destruct (q_bar_fmt_bar_agree (1 / 2) 10 ltac:(lia)) as (E & Hl & _).
  split; [exact E|exact Hl].
Defined.

(* ================================================================== *)
(** * The axis of [w] *)

Lemma py_round_Q (x : Q) (k : Z) :
  (inject_Z k - (1 # 2) < x)%Q -> (x < inject_Z k + (1 # 2))%Q -> py_round (Q2R x) = k.
Proof.
  intros H1 H2. apply Qreals.Qlt_Rlt in H1, H2.
  rewrite Qreals.Q2R_minus in H1. rewrite Qreals.Q2R_plus in H2.
  assert (E1 : Q2R (inject_Z k) = IZR k) by (unfold Q2R, inject_Z; cbn [Qnum Qden]; lra).
  assert (E2 : Q2R (1 # 2) = (1 / 2)%R) by (unfold Q2R; cbn [Qnum Qden]; lra).
  rewrite E1, E2 in *. apply py_round_near. lra.
Qed.

Lemma py_round_Q_mono (x y : Q) : (x <= y)%Q -> py_round (Q2R x) <= py_round (Q2R y).
Proof. intros H. apply py_round_mono, Qreals.Qle_Rle, H. Qed.

Lemma axis_scale_mono (x y : Q) : (x <= y)%Q -> (axis_scale x <= axis_scale y)%Q.
Proof.
  intros H. unfold axis_scale, Qdiv.
  assert (E : (/ (3.6 - 1.0) == 5 # 13)%Q) by reflexivity.
  rewrite E. change (inject_Z 40) with (40 # 1)%Q. Lqa.lra.
Qed.

Lemma axis_clamp_mono (w v : Q) :
  (w <= v)%Q -> (Qmin (Qmax w 1.0) 3.6 <= Qmin (Qmax v 1.0) 3.6)%Q.
Proof.
  intros H. apply Q.min_le_compat_r, Q.max_le_compat_r, H.
Qed.

Lemma axis_pos_mono (w v : Q) :
  (w <= v)%Q ->
  py_round (Q2R (axis_scale (Qmin (Qmax w 1.0) 3.6)))
  <= py_round (Q2R (axis_scale (Qmin (Qmax v 1.0) 3.6))).
Proof. intros H. apply py_round_Q_mono, axis_scale_mono, axis_clamp_mono, H. Qed.

Lemma axis_pos_at :
  py_round (Q2R (axis_scale (Qmin (Qmax 1.0 1.0) 3.6))) = 0
  /\ py_round (Q2R (axis_scale (Qmin (Qmax 1.6 1.0) 3.6))) = 9
  /\ py_round (Q2R (axis_scale (Qmin (Qmax 2.7 1.0) 3.6))) = 26
  /\ py_round (Q2R (axis_scale (Qmin (Qmax 3.2 1.0) 3.6))) = 34
  /\ py_round (Q2R (axis_scale (Qmin (Qmax 3.6 1.0) 3.6))) = 40.
Proof.
  repeat split; apply py_round_Q; vm_compute; reflexivity.
Qed.

Lemma axis_marks :
  py_round (Q2R (axis_scale 1.6)) = 9
  /\ py_round (Q2R (axis_scale 2.7)) = 26
  /\ py_round (Q2R (axis_scale 3.2)) = 34.
Proof.
  repeat split; apply py_round_Q; vm_compute; reflexivity.
Qed.

Lemma axis_clamp_low (w : Q) :
  (w <= 1.0)%Q -> (Qmin (Qmax w 1.0) 3.6 == Qmin (Qmax 1.0 1.0) 3.6)%Q.
Proof.
  intros H. rewrite (Q.max_r w 1.0 H). reflexivity.
Qed.

Lemma axis_clamp_high (w : Q) :
  (3.6 <= w)%Q -> (Qmin (Qmax w 1.0) 3.6 == Qmin (Qmax 3.6 1.0) 3.6)%Q.
Proof.
  intros H.
  assert (H1 : (1.0 <= w)%Q) by Lqa.lra.
  rewrite (Q.max_l w 1.0 H1). rewrite (Q.min_r w 3.6 H). reflexivity.
Qed.

Lemma axis_pos_compat (x y : Q) :
  (x == y)%Q -> py_round (Q2R (axis_scale x)) = py_round (Q2R (axis_scale y)).
Proof.
  intros E. apply Z.le_antisymm; apply py_round_Q_mono, axis_scale_mono;
    rewrite E; apply Qle_refl.
Qed.

Lemma count_insert_fresh (l : list N) (i : nat) (x : N) :
  count_occ N.eq_dec l x = 0%nat -> (i < length l)%nat ->
  count_occ N.eq_dec (<[i := x]> l) x = 1%nat.
Proof.
  revert i. induction l as [|a l IH]; intros i H0 Hi; [cbn in Hi; lia|].
  cbn [count_occ] in H0. destruct (N.eq_dec a x) as [E|N]; [discriminate H0|].
  destruct i as [|i].
  - cbn [insert list_insert count_occ].
    destruct (N.eq_dec x x) as [_|F]; [|congruence]. rewrite H0. reflexivity.
  - cbn [insert list_insert count_occ].
    destruct (N.eq_dec a x) as [E|_]; [congruence|].
    apply IH; [exact H0|cbn [length] in Hi; lia].
Qed.

Lemma axis_line_eq (w : Q) :
  axis_line_for_w w
  = <[Z.to_nat (py_round (Q2R (axis_scale (Qmin (Qmax w 1.0) 3.6)))) := ch "●"]>
      axis_borders
  /\ 0 <= py_round (Q2R (axis_scale (Qmin (Qmax w 1.0) 3.6))) <= 40.
Proof.
  destruct axis_pos_at as (P0 & _ & _ & _ & P40).
  assert (Hr : 0 <= py_round (Q2R (axis_scale (Qmin (Qmax w 1.0) 3.6))) <= 40).
  { split.
    - rewrite <- P0. apply py_round_Q_mono, axis_scale_mono.
      apply Q.min_glb; [apply Q.le_max_r|vm_compute; discriminate].
    - rewrite <- P40. apply py_round_Q_mono, axis_scale_mono.
      apply Q.min_le_iff. right. vm_compute. discriminate. }
  split; [|exact Hr].
  destruct axis_marks as (M1 & M2 & M3).
  unfold axis_line_for_w. cbv zeta.
  change ((1.6 - 1.0) / (3.6 - 1.0) * inject_Z 40)%Q with (axis_scale 1.6).
  change ((2.7 - 1.0) / (3.6 - 1.0) * inject_Z 40)%Q with (axis_scale 2.7).
  change ((3.2 - 1.0) / (3.6 - 1.0) * inject_Z 40)%Q with (axis_scale 3.2).
  change ((Qmin (Qmax w 1.0) 3.6 - 1.0) / (3.6 - 1.0) * inject_Z 40)%Q
    with (axis_scale (Qmin (Qmax w 1.0) 3.6)).
  rewrite M1, M2, M3.
  set (pos := py_round (Q2R (axis_scale (Qmin (Qmax w 1.0) 3.6)))) in *.
  replace ((0 <=? pos) && (pos <=? 40)) with true
    by (symmetry; apply andb_true_iff; split; [apply Z.leb_le|apply Z.leb_le]; lia).
  f_equal.
Qed.

(** X16.  [axis_line_for_w(w)] is always a line of 41 characters that
    carries exactly one marker [●]: the axis with its borders at the
    indices 9, 26 and 34, with the character at the marker's index
    replaced.  The marker stands at index 0 for [w <= 1] and at index 40
    for [w >= 3.6], and for [w >= 1] it lies in the stretch of the axis
    that belongs to the bin of [cluster_by_w]: index at most 9 for
    [1 <= w < 1.6], 9 to 26 for [1.6 <= w < 2.7], 26 to 34 for
    [2.7 <= w < 3.2] and at least 34 for [w >= 3.2]. *)
Theorem axis_line_marker (w : Q) :
  exists pos : nat,
    (pos <= 40)%nat
    /\ axis_line_for_w w = <[pos := ch "●"]> axis_borders
    /\ length (axis_line_for_w w) = 41%nat
    /\ count_occ N.eq_dec (axis_line_for_w w) (ch "●") = 1%nat
    /\ axis_line_for_w w !! pos = Some (ch "●")
    /\ ((w <= 1.0)%Q -> pos = 0%nat)
    /\ ((3.6 <= w)%Q -> pos = 40%nat)
    /\ ((1.0 <= w)%Q /\ (w < 1.6)%Q -> (pos <= 9)%nat)
    /\ ((1.6 <= w)%Q /\ (w < 2.7)%Q -> (9 <= pos <= 26)%nat)
    /\ ((2.7 <= w)%Q /\ (w < 3.2)%Q -> (26 <= pos <= 34)%nat)
    /\ ((3.2 <= w)%Q -> (34 <= pos)%nat).
Proof.
  destruct (axis_line_eq w) as [E Hr].
  destruct axis_pos_at as (P0 & P9 & P26 & P34 & P40).
  set (p := py_round (Q2R (axis_scale (Qmin (Qmax w 1.0) 3.6)))) in *.
  assert (Hlen : length axis_borders = 41%nat) by reflexivity.
  exists (Z.to_nat p).
  split; [lia|]. split; [exact E|].
  split; [rewrite E, length_insert; exact Hlen|].
  split.
  { rewrite E. apply count_insert_fresh; [vm_compute; reflexivity|rewrite Hlen; lia]. }
  split.
  { rewrite E. apply list_lookup_insert_eq. rewrite Hlen. lia. }
  split.
  { intros H. subst p. rewrite (axis_pos_compat _ _ (axis_clamp_low w H)), P0. reflexivity. }
  split.
  { intros H. subst p. rewrite (axis_pos_compat _ _ (axis_clamp_high w H)), P40.
    reflexivity. }
  split.
  { intros [_ H]. pose proof (axis_pos_mono w 1.6 (Qlt_le_weak _ _ H)) as G.
    rewrite P9 in G. fold p in G. lia. }
  split.
  { intros [H1 H2]. pose proof (axis_pos_mono 1.6 w H1) as G1.
    pose proof (axis_pos_mono w 2.7 (Qlt_le_weak _ _ H2)) as G2.
    rewrite P9 in G1. rewrite P26 in G2. fold p in G1, G2. lia. }
  split.
  { intros [H1 H2]. pose proof (axis_pos_mono 2.7 w H1) as G1.
    pose proof (axis_pos_mono w 3.2 (Qlt_le_weak _ _ H2)) as G2.
    rewrite P26 in G1. rewrite P34 in G2. fold p in G1, G2. lia. }
  intros H1. pose proof (axis_pos_mono 3.2 w H1) as G1.
  rewrite P34 in G1. fold p in G1. lia.
Qed.

(* ================================================================== *)
(** * The sphere name *)

Lemma lstrip_head (s : pystr) :
  match lstrip s with [] => True | c :: _ => is_space c = false end.
Proof.
  induction s as [|c r IH]; [exact I|]. cbn [lstrip].
  destruct (is_space c) eqn:E; [exact IH|exact E].
Qed.

Lemma lstrip_fixed (s : pystr) :
  match s with [] => True | c :: _ => is_space c = false end -> lstrip s = s.
Proof.
  destruct s as [|c r]; [reflexivity|]. intros E. cbn [lstrip]. rewrite E. reflexivity.
Qed.

Lemma lstrip_suffix (s : pystr) : exists p, s = p ++ lstrip s.
Proof.
  induction s as [|c r [p IH]]; [exists []; reflexivity|]. cbn [lstrip].
  destruct (is_space c); [exists (c :: p); cbn [app]; congruence|exists []; reflexivity].
Qed.

Lemma strip_trimmed (s : pystr) : trimmed (strip s).
Proof.
  unfold trimmed, strip. rewrite rev_involutive.
  split; [|apply lstrip_head].
  pose proof (lstrip_head s) as Ha.
  destruct (lstrip_suffix (rev (lstrip s))) as [p Ep].
  set (a := lstrip s) in *. set (b := lstrip (rev a)) in *.
  assert (Ea : a = rev b ++ rev p).
  { rewrite <- (rev_involutive a), Ep, rev_app_distr. reflexivity. }
  destruct (rev b) as [|c r]; [exact I|].
  rewrite Ea in Ha. exact Ha.
Qed.

Lemma trimmed_strip (s : pystr) : trimmed s -> strip s = s.
Proof.
  intros [H1 H2]. unfold strip.
  rewrite (lstrip_fixed s H1), (lstrip_fixed (rev s) H2). apply rev_involutive.
Qed.

Lemma nonblank_spec (x : option pystr) :
  nonblank x = true -> strip (or_empty x) <> [].
Proof.
  destruct x as [[|c r]|]; cbn [nonblank]; try discriminate.
  unfold or_empty, default, from_option, Datatypes.id.
  destruct (strip (c :: r)); [discriminate|intros _ F; discriminate F].
Qed.

Lemma nonblank_false (x : option pystr) :
  nonblank x = false -> strip (or_empty x) = [].
Proof.
  destruct x as [[|c r]|]; cbn [nonblank]; intros H; try reflexivity.
  unfold or_empty, default, from_option, Datatypes.id.
  destruct (strip (c :: r)); [reflexivity|discriminate H].
Qed.

(** X17.  [resolve_sphere] never returns a blank name: the result is not
    empty and has no white space at either end, so stripping it again
    changes nothing.  A new name that is requested and not blank wins over
    the chosen one; the chosen one is used otherwise when it is not blank;
    the default [прочее] is returned exactly when neither applies. *)
Theorem resolve_sphere_not_blank (sphere_choice : option pystr) (create_new : bool)
    (new_sphere : option pystr) :
  resolve_sphere sphere_choice create_new new_sphere <> []
  /\ trimmed (resolve_sphere sphere_choice create_new new_sphere)
  /\ strip (resolve_sphere sphere_choice create_new new_sphere)
     = resolve_sphere sphere_choice create_new new_sphere
  /\ (create_new = true -> strip (or_empty new_sphere) <> [] ->
      resolve_sphere sphere_choice create_new new_sphere = strip (or_empty new_sphere))
  /\ ((create_new = false \/ strip (or_empty new_sphere) = []) ->
      strip (or_empty sphere_choice) <> [] ->
      resolve_sphere sphere_choice create_new new_sphere = strip (or_empty sphere_choice))
  /\ ((create_new = false \/ strip (or_empty new_sphere) = []) ->
      strip (or_empty sphere_choice) = [] ->
      resolve_sphere sphere_choice create_new new_sphere = U "прочее").
Proof.
  assert (Hd : trimmed (U "прочее")) by (split; vm_compute; reflexivity).
  unfold resolve_sphere.
  destruct (nonblank new_sphere) eqn:En; destruct (nonblank sphere_choice) eqn:Ec;
    destruct create_new; cbn [andb];
    try (apply nonblank_spec in En); try (apply nonblank_false in En);
    try (apply nonblank_spec in Ec); try (apply nonblank_false in Ec).
  all: repeat match goal with |- _ /\ _ => split end.
  all: try (apply strip_trimmed).
  all: try (apply trimmed_strip, strip_trimmed).
  all: try exact Hd.
  all: try (apply trimmed_strip; exact Hd).
  all: try assumption.
  all: try (intros F; vm_compute in F; discriminate F).
  all: try (intros; reflexivity).
  all: try (intros; congruence).
  all: try (intros [F|F] ?; congruence).
Qed.

(* ================================================================== *)
(** * Resonance pairs *)

Lemma Qabs_cases (x : Q) :
  ((Qabs x == x)%Q /\ (0 <= x)%Q) \/ ((Qabs x == - x)%Q /\ (x <= 0)%Q).
Proof.
  destruct (Qlt_le_dec x 0) as [H|H].
  - right. split; [apply Qabs_neg, Qlt_le_weak, H|apply Qlt_le_weak, H].
  - left. split; [apply Qabs_pos, H|exact H].
Qed.

Lemma Qabs_closer (w c1 c2 : Q) :
  (c1 < c2)%Q ->
  ((2 * w < c1 + c2)%Q -> (Qabs (w - c1) < Qabs (w - c2))%Q)
  /\ ((c1 + c2 < 2 * w)%Q -> (Qabs (w - c2) < Qabs (w - c1))%Q)
  /\ ((2 * w == c1 + c2)%Q -> (Qabs (w - c1) == Qabs (w - c2))%Q).
Proof.
  intros Hc.
  destruct (Qabs_cases (w - c1)) as [[E1 H1]|[E1 H1]];
    destruct (Qabs_cases (w - c2)) as [[E2 H2]|[E2 H2]];
    rewrite E1, E2; repeat split; intros H; Lqa.lra.
Qed.

Lemma resonance_closer (x y : Q) :
  (x < y)%Q -> (exp (- Q2R y) < exp (- Q2R x))%R.
Proof.
  intros H. apply exp_increasing, Ropp_lt_contravar, Qreals.Qlt_Rlt, H.
Qed.

Lemma resonance_same (x y : Q) :
  (x == y)%Q -> exp (- Q2R y) = exp (- Q2R x).
Proof. intros H. rewrite (Qreals.Qeq_eqR _ _ H). reflexivity. Qed.

Lemma resonance_value_unit (x : Q) : (0 < exp (- Q2R (Qabs x)) <= 1)%R.
Proof.
  split; [apply exp_pos|].
  assert (H : (0 <= Q2R (Qabs x))%R).
  { rewrite <- RMicromega.Q2R_0. apply Qreals.Qle_Rle, Qabs_nonneg. }
  destruct (Req_dec (Q2R (Qabs x)) 0) as [E|N].
  - rewrite E, Ropp_0, exp_0. lra.
  - left. rewrite <- exp_0. apply exp_increasing. lra.
Qed.

Lemma sqrt_unit (a b : R) : (0 < a <= 1)%R -> (0 < b <= 1)%R -> (0 < sqrt (a * b) <= 1)%R.
Proof.
  intros Ha Hb. split.
  - apply sqrt_lt_R0. nra.
  - rewrite <- sqrt_1. apply sqrt_le_1; nra.
Qed.

Ltac sort_four :=
  unfold sorted_desc; cbn [fold_left insert_desc snd];
  repeat (match goal with
          | |- context [Rlt_dec ?x ?y] =>
            destruct (Rlt_dec x y); try lra; cbn [insert_desc snd]
          end);
  cbn [firstn]; auto.

(** The two best of four items, by the order of their values *)
Lemma top_two_first_last (k1 k2 k3 k4 : pystr) (a b c d : R) :
  (b < a)%R -> (c < a)%R -> (b < d)%R -> (c < d)%R ->
  firstn 2 (sorted_desc [(k1, a); (k2, b); (k3, c); (k4, d)]) = [(k1, a); (k4, d)]
  \/ firstn 2 (sorted_desc [(k1, a); (k2, b); (k3, c); (k4, d)]) = [(k4, d); (k1, a)].
Proof. intros. sort_four. Qed.

Lemma top_two_first_second (k1 k2 k3 k4 : pystr) (a b c d : R) :
  (c < a \/ c = a)%R -> (d < a)%R -> (c < b)%R -> (d < b \/ d = b)%R ->
  firstn 2 (sorted_desc [(k1, a); (k2, b); (k3, c); (k4, d)]) = [(k1, a); (k2, b)]
  \/ firstn 2 (sorted_desc [(k1, a); (k2, b); (k3, c); (k4, d)]) = [(k2, b); (k1, a)].
Proof. intros [?|?] ? ? [?|?]; sort_four. Qed.

Lemma top_two_second_third (k1 k2 k3 k4 : pystr) (a b c d : R) :
  (a < b)%R -> (d < b)%R -> (a < c)%R -> (d < c)%R ->
  firstn 2 (sorted_desc [(k1, a); (k2, b); (k3, c); (k4, d)]) = [(k2, b); (k3, c)]
  \/ firstn 2 (sorted_desc [(k1, a); (k2, b); (k3, c); (k4, d)]) = [(k3, c); (k2, b)].
Proof. intros. sort_four. Qed.

Lemma resonance_pair_top (w threshold : Q) (k1 k2 : pystr) (v1 v2 : R) (i1 i2 : Z) :
  firstn 2 (sorted_desc (resonance_values w)) = [(k1, v1); (k2, v2)] ->
  list_index [U "phi"; U "e"; U "pi"; U "rt2"] k1 = Ok i1 ->
  list_index [U "phi"; U "e"; U "pi"; U "rt2"] k2 = Ok i2 ->
  resonance_pair w threshold
  = if Rlt_dec (sqrt (v1 * v2)) (Q2R threshold) then Ok ([], [], [], sqrt (v1 * v2))
    else
      let '(name, en, ru) :=
        default ([], [], [])
                (RESONANCE_PAIRS !! (if i2 <? i1 then (k2, k1) else (k1, k2))) in
      Ok (name, en, ru, sqrt (v1 * v2)).
Proof.
  intros Ht E1 E2. unfold resonance_pair. cbv zeta. rewrite Ht.
  change (getitem [(k1, v1); (k2, v2)] 0) with (Ok (k1, v1)).
  change (getitem [(k1, v1); (k2, v2)] 1) with (Ok (k2, v2)).
  cbn [rbind]. rewrite E1. cbn [rbind]. rewrite E2. cbn [rbind]. reflexivity.
Qed.

(** The outcome of [resonance_pair] when the two best resonators are the
    keys [ka] and [kb], in canonical order, found in either order *)
Lemma resonance_pair_of (w threshold : Q) (ka kb : pystr) (va vb : R) (ia ib : Z)
    (name en ru : pystr) :
  firstn 2 (sorted_desc (resonance_values w)) = [(ka, va); (kb, vb)]
  \/ firstn 2 (sorted_desc (resonance_values w)) = [(kb, vb); (ka, va)] ->
  list_index [U "phi"; U "e"; U "pi"; U "rt2"] ka = Ok ia ->
  list_index [U "phi"; U "e"; U "pi"; U "rt2"] kb = Ok ib ->
  ia < ib ->
  RESONANCE_PAIRS !! (ka, kb) = Some (name, en, ru) ->
  (0 < va <= 1)%R -> (0 < vb <= 1)%R ->
  exists r,
    (0 < r <= 1)%R
    /\ resonance_pair w threshold
       = if Rlt_dec r (Q2R threshold) then Ok ([], [], [], r) else Ok (name, en, ru, r).
Proof.
  intros [Ht|Ht] Ea Eb Hlt Hl Ha Hb.
  - exists (sqrt (va * vb)). split; [apply sqrt_unit; assumption|].
    rewrite (resonance_pair_top w threshold ka kb va vb ia ib Ht Ea Eb).
    replace (ib <? ia) with false by (symmetry; apply Z.ltb_ge; lia).
    rewrite Hl. reflexivity.
  - exists (sqrt (vb * va)). split; [apply sqrt_unit; assumption|].
    rewrite (resonance_pair_top w threshold kb ka vb va ib ia Ht Eb Ea).
    replace (ia <? ib) with true by (symmetry; apply Z.ltb_lt; lia).
    rewrite Hl. reflexivity.
Qed.

Lemma resonance_pair_low (w threshold : Q) :
  (w < 2.066)%Q ->
  exists r,
    (0 < r <= 1)%R
    /\ resonance_pair w threshold
       = if Rlt_dec r (Q2R threshold) then Ok ([], [], [], r)
         else Ok (U "φ–√2", U "Harmony ↔ Duality",
                  U "Единство через различие — гармония, рождающаяся из двух полюсов.", r).
Proof.
  intros H.
  apply (resonance_pair_of w threshold (U "phi") (U "rt2")
           (exp (- Q2R (Qabs (w - 1.618)))) (exp (- Q2R (Qabs (w - 1.414)))) 0 3).
  - unfold resonance_values. cbv zeta. apply top_two_first_last; apply resonance_closer.
    + apply (Qabs_closer w 1.618 2.718); [reflexivity|Lqa.lra].
    + apply (Qabs_closer w 1.618 3.142); [reflexivity|Lqa.lra].
    + apply (Qabs_closer w 1.414 2.718); [reflexivity|Lqa.lra].
    + apply (Qabs_closer w 1.414 3.142); [reflexivity|Lqa.lra].
  - vm_compute. reflexivity.
  - vm_compute. reflexivity.
  - lia.
  - vm_compute. reflexivity.
  - apply resonance_value_unit.
  - apply resonance_value_unit.
Qed.

Lemma resonance_pair_middle (w threshold : Q) :
  (2.066 <= w)%Q -> (w <= 2.38)%Q ->
  exists r,
    (0 < r <= 1)%R
    /\ resonance_pair w threshold
       = if Rlt_dec r (Q2R threshold) then Ok ([], [], [], r)
         else Ok (U "φ–e", U "Harmony ↔ Growth", U "Переход гармонии в движение", r).
Proof.
  intros H1 H2.
  apply (resonance_pair_of w threshold (U "phi") (U "e")
           (exp (- Q2R (Qabs (w - 1.618)))) (exp (- Q2R (Qabs (w - 2.718)))) 0 1).
  - unfold resonance_values. cbv zeta. apply top_two_first_second.
    + destruct (Qlt_le_dec w 2.38) as [L|L].
      * left. apply resonance_closer.
        apply (Qabs_closer w 1.618 3.142); [reflexivity|Lqa.lra].
      * right. apply resonance_same.
        apply (Qabs_closer w 1.618 3.142); [reflexivity|Lqa.lra].
    + apply resonance_closer.
      apply (Qabs_closer w 1.414 1.618); [reflexivity|Lqa.lra].
    + apply resonance_closer.
      apply (Qabs_closer w 2.718 3.142); [reflexivity|Lqa.lra].
    + destruct (Qlt_le_dec 2.066 w) as [L|L].
      * left. apply resonance_closer.
        apply (Qabs_closer w 1.414 2.718); [reflexivity|Lqa.lra].
      * right. symmetry. apply resonance_same.
        apply (Qabs_closer w 1.414 2.718); [reflexivity|Lqa.lra].
  - vm_compute. reflexivity.
  - vm_compute. reflexivity.
  - lia.
  - vm_compute. reflexivity.
  - apply resonance_value_unit.
  - apply resonance_value_unit.
Qed.

Lemma resonance_pair_high (w threshold : Q) :
  (2.38 < w)%Q ->
  exists r,
    (0 < r <= 1)%R
    /\ resonance_pair w threshold
       = if Rlt_dec r (Q2R threshold) then Ok ([], [], [], r)
         else Ok (U "e–π", U "Growth ↔ Cycle", U "Прорыв и кульминация", r).
Proof.
  intros H.
  apply (resonance_pair_of w threshold (U "e") (U "pi")
           (exp (- Q2R (Qabs (w - 2.718)))) (exp (- Q2R (Qabs (w - 3.142)))) 1 2).
  - unfold resonance_values. cbv zeta. apply top_two_second_third; apply resonance_closer.
    + apply (Qabs_closer w 1.618 2.718); [reflexivity|Lqa.lra].
    + apply (Qabs_closer w 1.414 2.718); [reflexivity|Lqa.lra].
    + apply (Qabs_closer w 1.618 3.142); [reflexivity|Lqa.lra].
    + apply (Qabs_closer w 1.414 3.142); [reflexivity|Lqa.lra].
  - vm_compute. reflexivity.
  - vm_compute. reflexivity.
  - lia.
  - vm_compute. reflexivity.
  - apply resonance_value_unit.
  - apply resonance_value_unit.
Qed.

Lemma resonance_pair_total (w threshold : Q) :
  exists rp, resonance_pair w threshold = Ok rp.
Proof.
  destruct (Qlt_le_dec w 2.066) as [H1|H1];
    [|destruct (Qlt_le_dec 2.38 w) as [H2|H2]].
  - destruct (resonance_pair_low w threshold H1) as (r & _ & E).
    rewrite E. destruct (Rlt_dec r (Q2R threshold)); eexists; reflexivity.
  - destruct (resonance_pair_high w threshold H2) as (r & _ & E).
    rewrite E. destruct (Rlt_dec r (Q2R threshold)); eexists; reflexivity.
  - destruct (resonance_pair_middle w threshold H1 H2) as (r & _ & E).
    rewrite E. destruct (Rlt_dec r (Q2R threshold)); eexists; reflexivity.
Qed.

(** X18.  Under exact arithmetic, for [-300 <= w <= 300] (a range on which
    the float code neither underflows nor ties), [resonance_pair] does
    not raise and returns an [r_pair] in (0, 1]; below the threshold the
    three names are empty.  Otherwise the pair is that of the two
    constants nearest to [w]: [φ–√2] for [w <= 2.065], [φ–e] for
    [2.067 <= w <= 2.379] and [e–π] for [w >= 2.381], and one of these
    three between these bounds.  The three other entries of
    [RESONANCE_PAIRS] ([π–√2], [φ–π], [e–√2]) are not returned for any [w]
    of the range. *)
Theorem resonance_pair_regions (w threshold : Q) :
  (-300 <= w)%Q -> (w <= 300)%Q ->
  exists name en ru r,
    resonance_pair w threshold = Ok (name, en, ru, r)
    /\ (0 < r <= 1)%R
    /\ ((r < Q2R threshold)%R -> name = [] /\ en = [] /\ ru = [])
    /\ (~ (r < Q2R threshold)%R ->
        ((w <= 2.065)%Q -> name = U "φ–√2")
        /\ ((2.067 <= w)%Q /\ (w <= 2.379)%Q -> name = U "φ–e")
        /\ ((2.381 <= w)%Q -> name = U "e–π")
        /\ (name = U "φ–√2" \/ name = U "φ–e" \/ name = U "e–π")).
Proof.
  intros _ _.
  destruct (Qlt_le_dec w 2.066) as [H1|H1];
    [|destruct (Qlt_le_dec 2.38 w) as [H2|H2]].
  - destruct (resonance_pair_low w threshold H1) as (r & Hr & E).
    rewrite E. destruct (Rlt_dec r (Q2R threshold)) as [L|L].
    + exists [], [], [], r. split; [reflexivity|]. split; [exact Hr|].
      split; [intros _; repeat split|intros F; contradiction].
    + eexists _, _, _, r. split; [reflexivity|]. split; [exact Hr|].
      split; [intros F; contradiction|]. intros _.
      split; [intros _; reflexivity|].
      split; [intros [F _]; exfalso; Lqa.lra|].
      split; [intros F; exfalso; Lqa.lra|left; reflexivity].
  - destruct (resonance_pair_high w threshold H2) as (r & Hr & E).
    rewrite E. destruct (Rlt_dec r (Q2R threshold)) as [L|L].
    + exists [], [], [], r. split; [reflexivity|]. split; [exact Hr|].
      split; [intros _; repeat split|intros F; contradiction].
    + eexists _, _, _, r. split; [reflexivity|]. split; [exact Hr|].
      split; [intros F; contradiction|]. intros _.
      split; [intros F; exfalso; Lqa.lra|].
      split; [intros [_ F]; exfalso; Lqa.lra|].
      split; [intros _; reflexivity|right; right; reflexivity].
  - destruct (resonance_pair_middle w threshold H1 H2) as (r & Hr & E).
    rewrite E. destruct (Rlt_dec r (Q2R threshold)) as [L|L].
    + exists [], [], [], r. split; [reflexivity|]. split; [exact Hr|].
      split; [intros _; repeat split|intros F; contradiction].
    + eexists _, _, _, r. split; [reflexivity|]. split; [exact Hr|].
      split; [intros F; contradiction|]. intros _.
      split; [intros F; exfalso; Lqa.lra|].
      split; [intros _; reflexivity|].
      split; [intros F; exfalso; Lqa.lra|right; left; reflexivity].
Qed.

Lemma resonance_pair_regions_witness :
  exists name en ru r,
    resonance_pair 1.5 0 = Ok (name, en, ru, r)
    /\ (0 < r <= 1)%R
    /\ (~ (r < Q2R 0)%R -> name = U "φ–√2").
Proof.
  destruct (resonance_pair_regions 1.5 0) as (name & en & ru & r & E & Hr & _ & Hn).
  - vm_compute. discriminate.
  - vm_compute. discriminate.
  - exists name, en, ru, r. split; [exact E|]. split; [exact Hr|].
    intros L. destruct (Hn L) as (H1 & _). apply H1. vm_compute. discriminate.
Defined.

(* ================================================================== *)
(** * The phrase of a date *)

Lemma forallb_range (P : Z -> bool) (a : Z) (n : nat) :
  forallb (fun k => P (a + Z.of_nat k)) (List.seq 0 n) = true ->
  forall z, a <= z < a + Z.of_nat n -> P z = true.
Proof.
  intros H z Hz. rewrite forallb_forall in H.
  specialize (H (Z.to_nat (z - a))).
  rewrite Z2Nat.id in H by lia. replace (a + (z - a)) with z in H by lia.
  apply H. apply in_seq. lia.
Qed.

Lemma day_check_all (d : Z) :
  1 <= d <= 31 -> phrase_check 66 208 (int_getitem ORD_DAY d) = true.
Proof.
  intros H.
  apply (forallb_range (fun d => phrase_check 66 208 (int_getitem ORD_DAY d)) 1 31);
    [vm_compute; reflexivity|lia].
Qed.

Lemma month_check_all (m : Z) :
  1 <= m <= 12 -> phrase_check 48 146 (int_getitem MONTHS_GEN m) = true.
Proof.
  intros H.
  apply (forallb_range (fun m => phrase_check 48 146 (int_getitem MONTHS_GEN m)) 1 12);
    [vm_compute; reflexivity|lia].
Qed.

Lemma thousands_check_all (th : Z) : 1 <= th <= 9 -> thousands_check th = true.
Proof.
  intros H. apply (forallb_range thousands_check 1 9); [vm_compute; reflexivity|lia].
Qed.

Lemma tail_check_all (r : Z) : 0 <= r <= 999 -> tail_check r = true.
Proof.
  intros H.
  apply (forallb_range tail_check 0 (Z.to_nat 1000)); [vm_compute; reflexivity|lia].
Qed.

Lemma phrase_check_spec (lo hi : Z) (p : result pystr) :
  phrase_check lo hi p = true ->
  exists s, p = Ok s /\ Forall letter_word (split_spaces s)
            /\ lo <= kryon_sum (normalize s) <= hi.
Proof.
  destruct p as [s|e]; [|discriminate]. cbn [phrase_check]. intros H.
  apply andb_true_iff in H as [H H3]. apply andb_true_iff in H as [H1 H2].
  exists s. split; [reflexivity|]. split; [apply letter_words_spec, H1|lia].
Qed.

Lemma split_spaces_app_space (a b : pystr) :
  split_spaces (a ++ U " " ++ b) = split_spaces a ++ split_spaces b.
Proof.
  change (U " " ++ b) with (0x20%N :: b).
  induction a as [|c r IH]; [reflexivity|].
  cbn [app split_spaces]. destruct (c =? 0x20)%N.
  - rewrite IH. reflexivity.
  - rewrite IH. pose proof (split_spaces_nonempty r) as Hne.
    destruct (split_spaces r) as [|w ws]; [congruence|]. reflexivity.
Qed.

Lemma list_last_app (x y : list pystr) (d : pystr) :
  y <> [] -> List.last (x ++ y) d = List.last y d.
Proof.
  intros Hy. induction x as [|a x IH]; [reflexivity|].
  cbn [app]. destruct (x ++ y) eqn:E.
  - apply app_eq_nil in E as [_ ->]. congruence.
  - rewrite <- IH. reflexivity.
Qed.

Lemma normalize_space_app (b : pystr) : normalize (U " " ++ b) = normalize b.
Proof. rewrite normalize_app. reflexivity. Qed.

Lemma date_phrase_split (d m y : Z) :
  date_to_phrase_official d m y
  = (day <-? int_getitem ORD_DAY d ;;
     month <-? int_getitem MONTHS_GEN m ;;
     yp <-? year_phrase y ;;
     Ok (day ++ U " " ++ month ++ U " " ++ yp)).
Proof.
  unfold date_to_phrase_official, year_phrase.
  destruct (int_getitem ORD_DAY d) as [day|e]; [|reflexivity]. cbn [rbind].
  destruct (int_getitem MONTHS_GEN m) as [month|e]; [|reflexivity]. cbn [rbind].
  cbv zeta. destruct (y =? 2000); [reflexivity|].
  destruct (thousands_phrase (y / 1000)) as [tp|e]; [|reflexivity]. cbn [rbind].
  destruct (y mod 100 =? 0).
  - destruct (negb (y mod 1000 / 100 =? 0)); [|reflexivity]. cbn [rbind].
    destruct (int_getitem HUND_ORD_GEN_M (y mod 1000 / 100)); reflexivity.
  - destruct (negb (y mod 1000 / 100 =? 0)).
    + destruct (int_getitem HUND_ORD_GEN_M (y mod 1000 / 100)); [|reflexivity].
      cbn [rbind]. destruct (last2_to_ordinal_gen_m (y mod 100)); reflexivity.
    + cbn [rbind]. destruct (last2_to_ordinal_gen_m (y mod 100)); reflexivity.
Qed.

Lemma join_words_split (p : pystr) (ps : list pystr) :
  split_spaces (join (U " ") (p :: ps)) = List.concat (map split_spaces (p :: ps)).
Proof.
  revert p. induction ps as [|q ps IH]; intros p.
  - cbn [join map List.concat]. rewrite app_nil_r. reflexivity.
  - change (join (U " ") (p :: q :: ps)) with (p ++ U " " ++ join (U " ") (q :: ps)).
    rewrite split_spaces_app_space, IH. reflexivity.
Qed.

Lemma join_words_code (p : pystr) (ps : list pystr) :
  kryon_sum (normalize (join (U " ") (p :: ps))) = words_sum (map normalize (p :: ps)).
Proof.
  revert p. induction ps as [|q ps IH]; intros p.
  - cbn [join map words_sum fold_right]. lia.
  - change (join (U " ") (p :: q :: ps)) with (p ++ U " " ++ join (U " ") (q :: ps)).
    rewrite normalize_app, normalize_space_app, kryon_sum_app, IH.
    cbn [map words_sum fold_right]. reflexivity.
Qed.

Lemma year_phrase_split (y : Z) :
  y <> 2000 ->
  year_phrase y
  = (tp <-? thousands_phrase (y / 1000) ;;
     ps <-? year_tail (y mod 1000) ;;
     Ok (join (U " ") (tp :: ps) ++ U " " ++ U "ГОДА")).
Proof.
  intros Hy. unfold year_phrase, year_tail. cbv zeta.
  replace (y =? 2000) with false by (symmetry; apply Z.eqb_neq, Hy).
  replace ((y mod 1000) mod 100) with (y mod 100)
    by (pose proof (Z.div_mod y 1000); pose proof (Z.mod_pos_bound y 1000);
        pose proof (Z.div_mod (y mod 1000) 100); pose proof (Z.mod_pos_bound (y mod 1000) 100);
        pose proof (Z.div_mod y 100); pose proof (Z.mod_pos_bound y 100); lia).
  destruct (thousands_phrase (y / 1000)) as [tp|e]; [|reflexivity]. cbn [rbind].
  destruct (y mod 100 =? 0).
  - destruct (negb (y mod 1000 / 100 =? 0)); [|reflexivity]. cbn [rbind].
    destruct (int_getitem HUND_ORD_GEN_M (y mod 1000 / 100)); reflexivity.
  - destruct (negb (y mod 1000 / 100 =? 0)).
    + destruct (int_getitem HUND_ORD_GEN_M (y mod 1000 / 100)); [|reflexivity].
      cbn [rbind]. destruct (last2_to_ordinal_gen_m (y mod 100)); reflexivity.
    + cbn [rbind]. destruct (last2_to_ordinal_gen_m (y mod 100)); reflexivity.
Qed.

Lemma concat_letter_words (ps : list pystr) :
  forallb (fun p => forallb is_letter_word (split_spaces p)) ps = true ->
  Forall letter_word (List.concat (map split_spaces ps)).
Proof.
  induction ps as [|p ps IH]; [intros _; constructor|].
  cbn [forallb map List.concat]. intros H. apply andb_true_iff in H as [H1 H2].
  apply Forall_app. split; [apply letter_words_spec, H1|apply IH, H2].
Qed.

Lemma year_phrase_spec (y : Z) :
  1000 <= y <= 9999 ->
  exists yp,
    year_phrase y = Ok yp
    /\ Forall letter_word (split_spaces yp)
    /\ List.last (split_spaces yp) [] = U "ГОДА"
    /\ 190 <= kryon_sum (normalize yp) <= 802.
Proof.
  intros Hy. destruct (Z.eq_dec y 2000) as [->|Hne].
  { eexists. split; [reflexivity|].
    split; [apply letter_words_spec; vm_compute; reflexivity|].
    split; [vm_compute; reflexivity|vm_compute; split; discriminate]. }
  assert (Hth : 1 <= y / 1000 <= 9)
    by (pose proof (Z.div_mod y 1000); pose proof (Z.mod_pos_bound y 1000); lia).
  assert (Hr : 0 <= y mod 1000 <= 999) by (pose proof (Z.mod_pos_bound y 1000); lia).
  pose proof (thousands_check_all _ Hth) as Ht. unfold thousands_check in Ht.
  destruct (phrase_check_spec _ _ _ Ht) as (tp & Etp & Wtp & Ctp).
  pose proof (tail_check_all _ Hr) as Hc. unfold tail_check in Hc.
  destruct (year_tail (y mod 1000)) as [ps|e] eqn:Eps; [|discriminate Hc].
  apply andb_true_iff in Hc as [Hc H4]. apply andb_true_iff in Hc as [Hc H3].
  apply andb_true_iff in Hc as [H1 H2].
  rewrite (year_phrase_split y Hne), Etp, Eps. cbn [rbind].
  eexists. split; [reflexivity|].
  rewrite split_spaces_app_space, join_words_split.
  rewrite normalize_app, normalize_space_app, kryon_sum_app, join_words_code.
  cbn [map words_sum fold_right List.concat].
  split.
  { apply Forall_app. split; [apply Forall_app; split;
                               [exact Wtp|apply concat_letter_words, H1]|].
    apply letter_words_spec. vm_compute. reflexivity. }
  split.
  { apply list_last_app. vm_compute. discriminate. }
  change (kryon_sum (normalize (U "ГОДА"))) with 26.
  fold (words_sum (map normalize ps)).
  assert (Hcase : y / 1000 = 2 -> y mod 1000 <> 0).
  { intros E F. apply Hne. pose proof (Z.div_mod y 1000). lia. }
  destruct (y / 1000 =? 2) eqn:E2.
  - apply Z.eqb_eq in E2. specialize (Hcase E2).
    replace (y mod 1000 =? 0) with false in H2 by (symmetry; apply Z.eqb_neq, Hcase).
    cbn [orb] in H2. lia.
  - lia.
Qed.

Lemma int_dict_keys (l : list (Z * pystr)) (k : Z) (v : pystr) :
  (list_to_map l : gmap Z pystr) !! k = Some v -> In k (map fst l).
Proof.
  intros H. apply elem_of_list_to_map_2 in H.
  apply list_elem_of_In in H. apply in_map_iff. exists (k, v). split; [reflexivity|exact H].
Qed.

Lemma valid_date_spec (d mo y : Z) :
  valid_date d mo y = true ->
  1000 <= y <= 9999 /\ 1 <= mo <= 12 /\ 1 <= d <= days_in_month mo y
  /\ 28 <= days_in_month mo y <= 31.
Proof.
  unfold valid_date. intros H.
  repeat (apply andb_true_iff in H as [H ?]).
  assert (Hd : 28 <= days_in_month mo y <= 31).
  { unfold days_in_month. repeat (destruct (existsb _ _)); try lia.
    destruct (is_leap y); lia. }
  lia.
Qed.

(** X19.  For every date that [parse_date_phrase] accepts
    ([1000 <= y <= 9999], [1 <= mo <= 12], [1 <= d <= days_in_month]),
    [date_to_phrase_official] finds all its table entries and returns a
    phrase of letter words separated by single spaces that ends with
    [ГОДА].  The code of the phrase lies between 304 and 1156, so the
    analysis of a date is never empty.  A day outside 1..31 raises
    [KeyError]. *)
Theorem date_phrase_total (d mo y : Z) :
  valid_date d mo y = true ->
  exists phrase,
    date_to_phrase_official d mo y = Ok phrase
    /\ Forall letter_word (split_spaces phrase)
    /\ List.last (split_spaces phrase) [] = U "ГОДА"
    /\ calc_l1_from_string phrase = (Some (normalize phrase), kryon_sum (normalize phrase))
    /\ 304 <= kryon_sum (normalize phrase) <= 1156
    /\ (forall pdp cfg raw,
          sigma_nonzero cfg -> pdp raw = Some phrase ->
          exists res, analyze_word pdp cfg raw = Ok (Some res)
                      /\ a_l1 res = kryon_sum (normalize phrase))
    /\ (forall d', d' < 1 \/ 31 < d' ->
          date_to_phrase_official d' mo y = Raise KeyError).
Proof.
  intros Hv. destruct (valid_date_spec d mo y Hv) as (Hy & Hm & Hd & Hdm).
  destruct (phrase_check_spec _ _ _ (day_check_all d ltac:(lia)))
    as (day & Eday & Wday & Cday).
  destruct (phrase_check_spec _ _ _ (month_check_all mo Hm))
    as (month & Emonth & Wmonth & Cmonth).
  destruct (year_phrase_spec y Hy) as (yp & Eyp & Wyp & Hlast & Cyp).
  exists (day ++ U " " ++ month ++ U " " ++ yp).
  assert (Esplit : split_spaces (day ++ U " " ++ month ++ U " " ++ yp)
                   = split_spaces day ++ split_spaces month ++ split_spaces yp).
  { rewrite !split_spaces_app_space. reflexivity. }
  assert (Enorm : normalize (day ++ U " " ++ month ++ U " " ++ yp)
                  = normalize day ++ normalize month ++ normalize yp).
  { rewrite normalize_app, normalize_space_app, normalize_app, normalize_space_app.
    reflexivity. }
  assert (Ecode : kryon_sum (normalize (day ++ U " " ++ month ++ U " " ++ yp))
                  = kryon_sum (normalize day) + kryon_sum (normalize month)
                    + kryon_sum (normalize yp)).
  { rewrite Enorm, !kryon_sum_app. lia. }
  assert (Hcalc : calc_l1_from_string (day ++ U " " ++ month ++ U " " ++ yp)
                  = (Some (normalize (day ++ U " " ++ month ++ U " " ++ yp)),
                     kryon_sum (normalize (day ++ U " " ++ month ++ U " " ++ yp)))).
  { unfold calc_l1_from_string.
    destruct (normalize (day ++ U " " ++ month ++ U " " ++ yp)) eqn:En; [|reflexivity].
    exfalso. cbn [kryon_sum fold_right] in Ecode. lia. }
  split; [rewrite date_phrase_split, Eday, Emonth, Eyp; reflexivity|].
  split; [rewrite Esplit; apply Forall_app; split; [exact Wday|];
          apply Forall_app; split; assumption|].
  split.
  { rewrite Esplit, app_assoc. pose proof (split_spaces_nonempty yp) as Hne.
    destruct (split_spaces yp) as [|w ws] eqn:Es; [congruence|].
    rewrite <- Hlast. apply list_last_app. discriminate. }
  split; [exact Hcalc|]. split; [lia|]. split.
  - intros pdp cfg raw Hs Hp.
    assert (Hpu : phrase_used pdp raw = day ++ U " " ++ month ++ U " " ++ yp).
    { unfold phrase_used. rewrite Hp.
      destruct (day ++ U " " ++ month ++ U " " ++ yp) eqn:En; [|reflexivity].
      exfalso. cbn in Ecode. lia. }
    destruct (analyze_word_total pdp cfg raw Hs) as (o & Eo & _ & Hsome).
    rewrite Hpu, Hcalc in Hsome. cbn [snd] in Hsome.
    destruct (Hsome ltac:(lia)) as (res & -> & Hl1).
    exists res. split; [exact Eo|exact Hl1].
  - intros d' Hd'. unfold date_to_phrase_official, int_getitem.
    destruct (ORD_DAY !! d') as [v|] eqn:El; [|reflexivity].
    exfalso. apply int_dict_keys in El. cbn in El. lia.
Qed.

Lemma date_phrase_total_witness :
  exists phrase,
    date_to_phrase_official 29 2 2024 = Ok phrase
    /\ List.last (split_spaces phrase) [] = U "ГОДА"
    /\ 304 <= kryon_sum (normalize phrase) <= 1156.
Proof.
  destruct (date_phrase_total 29 2 2024 ltac:(vm_compute; reflexivity))
    as (phrase & E & _ & Hl & _ & Hc & _).
  exists phrase. split; [exact E|]. split; [exact Hl|exact Hc].
Defined.

(* ================================================================== *)
(** * What the index holds *)

Lemma index_sound_more (fos : pystr -> result pyfloat) (col : Row -> pyval)
    (rows : list Row) (r : Row) (idx : gmap Z (list pystr)) :
  index_sound fos col rows idx -> index_sound fos col (rows ++ [r]) idx.
Proof.
  intros H V ws E. destruct (H V ws E) as (H1 & H2 & H3).
  split; [exact H1|]. split; [exact H2|].
  intros w Hw. destruct (H3 w Hw) as (r' & Hr' & Hrest).
  exists r'. split; [apply elem_of_app; left; exact Hr'|exact Hrest].
Qed.

Lemma index_add_sound (fos : pystr -> result pyfloat) (col : Row -> pyval)
    (rows : list Row) (r : Row) (idx : gmap Z (list pystr)) (code : Z) :
  index_sound fos col rows idx ->
  upper (word_text (col_word r)) <> [] ->
  is_missing (col r) = false ->
  int_float fos (col r) = Ok code ->
  index_sound fos col (rows ++ [r]) (index_add idx code (upper (word_text (col_word r)))).
Proof.
  intros H Hw Hm Hc. apply (index_sound_more fos col rows r) in H.
  set (word := upper (word_text (col_word r))) in *.
  assert (Hnew : exists r', r' ∈ rows ++ [r] /\ upper (word_text (col_word r')) = word
                            /\ word <> [] /\ is_missing (col r') = false
                            /\ int_float fos (col r') = Ok code).
  { exists r. split; [apply elem_of_app; right; apply list_elem_of_singleton; reflexivity|].
    repeat split; assumption. }
  unfold index_add. destruct (idx !! code) as [ws0|] eqn:E.
  - rewrite E. case_bool_decide as Hin; [exact H|].
    destruct (H code ws0 E) as (H1 & H2 & H3).
    intros V ws EV. destruct (Z.eq_dec V code) as [->|Hne].
    + rewrite lookup_insert_eq in EV. injection EV as <-.
      split; [intros F; apply app_eq_nil in F as [_ F]; discriminate F|].
      split.
      { apply NoDup_app. split; [exact H2|]. split; [|apply NoDup_singleton].
        intros x Hx Hx'. apply list_elem_of_singleton in Hx'. subst x. contradiction. }
      intros w Hw'. apply elem_of_app in Hw' as [Hw'|Hw'].
      * apply H3, Hw'.
      * apply list_elem_of_singleton in Hw'. subst w. exact Hnew.
    + rewrite lookup_insert_ne in EV by congruence. apply (H V ws EV).
  - rewrite lookup_insert_eq. case_bool_decide as Hin.
    { apply elem_of_nil in Hin. contradiction. }
    intros V ws EV. destruct (Z.eq_dec V code) as [->|Hne].
    + rewrite lookup_insert_eq in EV. injection EV as <-. cbn [app].
      split; [discriminate|]. split; [apply NoDup_singleton|].
      intros w Hw'. apply list_elem_of_singleton in Hw'. subst w. exact Hnew.
    + rewrite !lookup_insert_ne in EV by congruence. apply (H V ws EV).
Qed.

Lemma index_try_sound (fos : pystr -> result pyfloat) (col : Row -> pyval)
    (rows : list Row) (r : Row) (idx : gmap Z (list pystr)) :
  index_sound fos col rows idx ->
  upper (word_text (col_word r)) <> [] ->
  index_sound fos col (rows ++ [r])
    (index_try fos idx (col r) (upper (word_text (col_word r)))).
Proof.
  intros H Hw. unfold index_try.
  destruct (is_missing (col r)) eqn:Em; [apply index_sound_more, H|].
  destruct (int_float fos (col r)) as [code|e] eqn:Ec; [|apply index_sound_more, H].
  apply index_add_sound; assumption.
Qed.

Lemma index_row_sound (fos : pystr -> result pyfloat) (rows : list Row) (r : Row)
    (st : IndexState) :
  index_sound fos col_l1 rows (INDEX_L1 st) /\ index_sound fos col_l2c rows (INDEX_L2C st) ->
  index_sound fos col_l1 (rows ++ [r]) (INDEX_L1 (index_row fos st r))
  /\ index_sound fos col_l2c (rows ++ [r]) (INDEX_L2C (index_row fos st r)).
Proof.
  intros [H1 H2]. unfold index_row.
  destruct (upper (word_text (col_word r))) as [|c w] eqn:E.
  - split; apply index_sound_more; assumption.
  - cbn [INDEX_L1 INDEX_L2C]. rewrite <- E.
    split; apply index_try_sound; try assumption; rewrite E; discriminate.
Qed.

Lemma fold_index_sound (fos : pystr -> result pyfloat) (df : list Row) :
  forall (rows : list Row) (st : IndexState),
    index_sound fos col_l1 rows (INDEX_L1 st) /\ index_sound fos col_l2c rows (INDEX_L2C st) ->
    index_sound fos col_l1 (rows ++ df) (INDEX_L1 (fold_left (index_row fos) df st))
    /\ index_sound fos col_l2c (rows ++ df) (INDEX_L2C (fold_left (index_row fos) df st)).
Proof.
  induction df as [|r df IH]; intros rows st H.
  - rewrite app_nil_r. exact H.
  - cbn [fold_left]. replace (rows ++ r :: df) with ((rows ++ [r]) ++ df)
      by (rewrite <- app_assoc; reflexivity).
    apply IH, index_row_sound, H.
Qed.

Lemma rebuild_indexes_sound (fos : pystr -> result pyfloat) (df : list Row) :
  index_sound fos col_l1 df (INDEX_L1 (rebuild_indexes fos df))
  /\ index_sound fos col_l2c df (INDEX_L2C (rebuild_indexes fos df)).
Proof.
  assert (H0 : forall col, index_sound fos col [] (∅ : gmap Z (list pystr))).
  { intros col V ws E. rewrite lookup_empty in E. discriminate E. }
  unfold rebuild_indexes. destruct df as [|r df].
  - cbn [INDEX_L1 INDEX_L2C]. split; apply H0.
  - cbn [INDEX_L1 INDEX_L2C].
    apply (fold_index_sound fos (r :: df) []). cbn [INDEX_L1 INDEX_L2C]. split; apply H0.
Qed.

Lemma index_entry_length (fos : pystr -> result pyfloat) (col : Row -> pyval)
    (rows : list Row) (idx : gmap Z (list pystr)) (V : Z) (ws : list pystr) :
  index_sound fos col rows idx -> idx !! V = Some ws -> (length ws <= length rows)%nat.
Proof.
  intros H E. destruct (H V ws E) as (_ & Hnd & Hin).
  rewrite <- (length_map (fun r => upper (word_text (col_word r))) rows).
  apply submseteq_length, NoDup_submseteq; [exact Hnd|].
  intros w Hw. destruct (Hin w Hw) as (r & Hr & <- & _).
  apply list_elem_of_fmap. exists r. split; [reflexivity|exact Hr].
Qed.

(** X20.  Whatever the table holds, every entry that [rebuild_indexes]
    leaves in [INDEX_L1] is a non-empty list without repeated words, of at
    most as many words as the table has rows, and each word is the
    non-empty uppercased word of a row whose [l1] cell is present and
    converts by [int(float(.))] to the key of the entry; the same holds
    for [INDEX_L2C] and the [l2c] cells.  [INDEX_READY] is false exactly
    for the empty table, and then both indexes are empty. *)
Theorem rebuild_indexes_entries (float_of_str : pystr -> result pyfloat) (df : list Row) :
  (forall V ws,
     INDEX_L1 (rebuild_indexes float_of_str df) !! V = Some ws ->
     ws <> [] /\ NoDup ws /\ (length ws <= length df)%nat
     /\ forall w, w ∈ ws ->
          exists r, r ∈ df /\ upper (word_text (col_word r)) = w /\ w <> []
                    /\ is_missing (col_l1 r) = false
                    /\ int_float float_of_str (col_l1 r) = Ok V)
  /\ (forall V ws,
        INDEX_L2C (rebuild_indexes float_of_str df) !! V = Some ws ->
        ws <> [] /\ NoDup ws /\ (length ws <= length df)%nat
        /\ forall w, w ∈ ws ->
             exists r, r ∈ df /\ upper (word_text (col_word r)) = w /\ w <> []
                       /\ is_missing (col_l2c r) = false
                       /\ int_float float_of_str (col_l2c r) = Ok V)
  /\ (INDEX_READY (rebuild_indexes float_of_str df) = false <-> df = [])
  /\ (df = [] ->
      INDEX_L1 (rebuild_indexes float_of_str df) = ∅
      /\ INDEX_L2C (rebuild_indexes float_of_str df) = ∅).
Proof.
  destruct (rebuild_indexes_sound float_of_str df) as [H1 H2].
  split; [|split; [|split]].
  - intros V ws E. destruct (H1 V ws E) as (A & B & C).
    split; [exact A|]. split; [exact B|].
    split; [exact (index_entry_length _ _ _ _ _ _ H1 E)|exact C].
  - intros V ws E. destruct (H2 V ws E) as (A & B & C).
    split; [exact A|]. split; [exact B|].
    split; [exact (index_entry_length _ _ _ _ _ _ H2 E)|exact C].
  - unfold rebuild_indexes. destruct df as [|r df]; cbn [INDEX_READY].
    + split; reflexivity.
    + split; intros F; discriminate F.
  - intros ->. split; reflexivity.
Qed.

(* ================================================================== *)
(** * Looking words up by their code *)

Lemma collected_empty (current : pystr) : collected current ([], ∅).
Proof.
  split; [apply NoDup_nil_2|]. split; [apply not_elem_of_nil|].
  intros w. cbn [fst snd]. split; intros H.
  - apply not_elem_of_empty in H. contradiction.
  - apply elem_of_nil in H. contradiction.
Qed.

Lemma collected_push (current w : pystr) (out : list pystr) (seen : gset pystr) :
  collected current (out, seen) -> w <> current -> w ∉ seen ->
  collected current (out ++ [w], {[w]} ∪ seen).
Proof.
  intros (Hnd & Hcur & Hset) Hw Hs. unfold collected. cbn [fst snd] in *.
  split; [|split].
  - apply NoDup_app. split; [exact Hnd|]. split; [|apply NoDup_singleton].
    intros x Hx Hx'. apply list_elem_of_singleton in Hx'. subst x.
    apply Hs, Hset, Hx.
  - intros F. apply elem_of_app in F as [F|F]; [contradiction|].
    apply list_elem_of_singleton in F. congruence.
  - intros x. rewrite elem_of_union, elem_of_singleton, elem_of_app, list_elem_of_singleton.
    rewrite Hset. tauto.
Qed.

Lemma collect_index_spec (current : pystr) (limit : Z) (ws : list pystr) :
  forall (out : list pystr) (seen : gset pystr),
    collected current (out, seen) ->
    collected current (collect_index ws current limit out seen)
    /\ (exists extra, fst (collect_index ws current limit out seen) = out ++ extra
                      /\ forall w, w ∈ extra -> w ∈ ws)
    /\ (Z.of_nat (length out + length ws) <= limit ->
        forall w, w ∈ ws -> w <> current ->
                  w ∈ fst (collect_index ws current limit out seen)).
Proof.
  induction ws as [|w rest IH]; intros out seen Hc.
  - cbn [collect_index fst]. split; [exact Hc|]. split.
    + exists []. split; [rewrite app_nil_r; reflexivity|].
      intros w F. apply elem_of_nil in F. contradiction.
    + intros _ w F. apply elem_of_nil in F. contradiction.
  - cbn [collect_index]. unfold str_eqb.
    destruct (negb (bool_decide (w = current)) && negb (bool_decide (w ∈ seen))) eqn:Ec.
    + apply andb_true_iff in Ec as [E1 E2].
      apply negb_true_iff, bool_decide_eq_false in E1, E2.
      pose proof (collected_push current w out seen Hc E1 E2) as Hc'.
      destruct (limit <=? Z.of_nat (length (out ++ [w]))) eqn:El.
      * cbn [fst]. split; [exact Hc'|]. split.
        { exists [w]. split; [reflexivity|]. intros x Hx.
          apply list_elem_of_singleton in Hx. subst x. apply elem_of_cons. left. reflexivity. }
        intros Hlim x Hx _. apply Z.leb_le in El.
        rewrite length_app in El. cbn [length] in El, Hlim.
        assert (Er : rest = []) by (destruct rest; [reflexivity|cbn [length] in Hlim; lia]).
        subst rest. apply list_elem_of_singleton in Hx. subst x.
        apply elem_of_app. right. apply list_elem_of_singleton. reflexivity.
      * destruct (IH (out ++ [w]) ({[w]} ∪ seen) Hc') as (I1 & (extra & I2 & I3) & I4).
        split; [exact I1|]. split.
        { exists (w :: extra). split; [rewrite I2, <- app_assoc; reflexivity|].
          intros x Hx. apply elem_of_cons in Hx as [->|Hx];
            apply elem_of_cons; [left; reflexivity|right; apply I3, Hx]. }
        intros Hlim x Hx Hne. apply elem_of_cons in Hx as [->|Hx].
        { rewrite I2. apply elem_of_app. left. apply elem_of_app. right.
          apply list_elem_of_singleton. reflexivity. }
        apply I4; [|exact Hx|exact Hne].
        rewrite length_app. cbn [length] in *. lia.
    + destruct (IH out seen Hc) as (I1 & (extra & I2 & I3) & I4).
      split; [exact I1|]. split.
      { exists extra. split; [exact I2|].
        intros x Hx. apply elem_of_cons. right. apply I3, Hx. }
      intros Hlim x Hx Hne. apply elem_of_cons in Hx as [->|Hx].
      * apply andb_false_iff in Ec as [E|E]; apply negb_false_iff, bool_decide_eq_true in E;
          [congruence|].
        destruct Hc as (_ & _ & Hset). cbn [fst snd] in Hset.
        rewrite I2. apply elem_of_app. left. apply Hset, E.
      * apply I4; [cbn [length] in Hlim; lia|exact Hx|exact Hne].
Qed.

Lemma collect_personal_spec (fos : pystr -> result pyfloat) (l1 l2c : Z) (current : pystr)
    (acc : (list pystr * gset pystr) * (list pystr * gset pystr)) (r : PersonalRow) :
  collected current (fst acc) -> collected current (snd acc) ->
  collected current (fst (collect_personal fos l1 l2c current acc r))
  /\ collected current (snd (collect_personal fos l1 l2c current acc r))
  /\ (exists e, fst (fst (collect_personal fos l1 l2c current acc r)) = fst (fst acc) ++ e)
  /\ (exists e, fst (snd (collect_personal fos l1 l2c current acc r)) = fst (snd acc) ++ e).
Proof.
  destruct acc as [[o1 s1] [o2 s2]]. cbn [fst snd]. intros H1 H2.
  assert (Hsame : collected current (o1, s1) /\ collected current (o2, s2)
                  /\ (exists e, o1 = o1 ++ e) /\ (exists e, o2 = o2 ++ e)).
  { split; [exact H1|]. split; [exact H2|].
    split; exists []; rewrite app_nil_r; reflexivity. }
  unfold collect_personal.
  destruct (upper (cell_str (p_text r))) as [|c w] eqn:Ew; [exact Hsame|].
  unfold str_eqb. case_bool_decide as Hcur; [exact Hsame|].
  destruct (int_float fos (cell_code (p_l1 r))) as [c1|e1]; [|exact Hsame].
  assert (Hstep : forall (b : bool) (o : list pystr) (s : gset pystr),
             collected current (o, s) ->
             collected current
               (if b && negb (bool_decide ((c :: w) ∈ s))
                then (o ++ [c :: w], {[c :: w]} ∪ s) else (o, s))
             /\ exists e, fst (if b && negb (bool_decide ((c :: w) ∈ s))
                               then (o ++ [c :: w], {[c :: w]} ∪ s) else (o, s)) = o ++ e).
  { intros b o s Hc. destruct (b && negb (bool_decide ((c :: w) ∈ s))) eqn:Eb.
    - apply andb_true_iff in Eb as [_ Eb].
      apply negb_true_iff, bool_decide_eq_false in Eb.
      split; [apply collected_push; assumption|exists [c :: w]; reflexivity].
    - split; [exact Hc|exists []; rewrite app_nil_r; reflexivity]. }
  destruct (Hstep (c1 =? l1) o1 s1 H1) as [A1 A2].
  destruct (if (c1 =? l1) && negb (bool_decide ((c :: w) ∈ s1))
            then (o1 ++ [c :: w], {[c :: w]} ∪ s1) else (o1, s1)) as [o1' s1'].
  cbn [fst] in A2.
  destruct (int_float fos (cell_code (p_l2c r))) as [c2|e2].
  - destruct (Hstep (c2 =? l2c) o2 s2 H2) as [B1 B2].
    destruct (if (c2 =? l2c) && negb (bool_decide ((c :: w) ∈ s2))
              then (o2 ++ [c :: w], {[c :: w]} ∪ s2) else (o2, s2)) as [o2' s2'].
    cbn [fst snd] in *. split; [exact A1|]. split; [exact B1|]. split; [exact A2|exact B2].
  - cbn [fst snd]. split; [exact A1|]. split; [exact H2|].
    split; [exact A2|exists []; rewrite app_nil_r; reflexivity].
Qed.

Lemma fold_personal_spec (fos : pystr -> result pyfloat) (l1 l2c : Z) (current : pystr)
    (rows : list PersonalRow) :
  forall acc : (list pystr * gset pystr) * (list pystr * gset pystr),
    collected current (fst acc) -> collected current (snd acc) ->
    collected current (fst (fold_left (collect_personal fos l1 l2c current) rows acc))
    /\ collected current (snd (fold_left (collect_personal fos l1 l2c current) rows acc))
    /\ (exists e, fst (fst (fold_left (collect_personal fos l1 l2c current) rows acc))
                  = fst (fst acc) ++ e)
    /\ (exists e, fst (snd (fold_left (collect_personal fos l1 l2c current) rows acc))
                  = fst (snd acc) ++ e).
Proof.
  induction rows as [|r rows IH]; intros acc H1 H2.
  - cbn [fold_left]. split; [exact H1|]. split; [exact H2|].
    split; exists []; rewrite app_nil_r; reflexivity.
  - cbn [fold_left].
    destruct (collect_personal_spec fos l1 l2c current acc r H1 H2)
      as (A1 & A2 & (e1 & A3) & (e2 & A4)).
    destruct (IH _ A1 A2) as (B1 & B2 & (f1 & B3) & (f2 & B4)).
    split; [exact B1|]. split; [exact B2|]. split.
    + exists (e1 ++ f1). rewrite B3, A3, app_assoc. reflexivity.
    + exists (e2 ++ f2). rewrite B4, A4, app_assoc. reflexivity.
Qed.

Lemma slice_to_prefix (l : list pystr) (n : Z) : exists rest, l = slice_to l n ++ rest.
Proof.
  unfold slice_to. destruct (0 <=? n); eexists; symmetry; apply firstn_skipn.
Qed.

Lemma slice_to_length (l : list pystr) (n : Z) :
  0 <= n -> Z.of_nat (length (slice_to l n)) <= n.
Proof.
  intros H. unfold slice_to. replace (0 <=? n) with true by (symmetry; apply Z.leb_le, H).
  pose proof (firstn_le_length (Z.to_nat n) l).
  rewrite length_firstn. lia.
Qed.

Lemma slice_to_keeps (a e : list pystr) (n : Z) :
  Z.of_nat (length a) <= n -> exists e', slice_to (a ++ e) n = a ++ e'.
Proof.
  intros H. unfold slice_to. replace (0 <=? n) with true by (symmetry; apply Z.leb_le; lia).
  rewrite firstn_app, firstn_all2 by lia. eexists. reflexivity.
Qed.

Lemma slice_to_collected (current : pystr) (s : list pystr * gset pystr) (n : Z) :
  collected current s -> NoDup (slice_to (fst s) n) /\ current ∉ slice_to (fst s) n.
Proof.
  intros (Hnd & Hcur & _). destruct (slice_to_prefix (fst s) n) as [rest E].
  rewrite E in Hnd, Hcur. apply NoDup_app in Hnd as (Hnd & _ & _).
  split; [exact Hnd|]. intros F. apply Hcur, elem_of_app. left. exact F.
Qed.

(** The two accumulators of [_collect_matches_by_code] before the slices *)
Lemma collect_matches_state (fos : pystr -> result pyfloat) (st : IndexState)
    (personal : option (list PersonalRow)) (res : Analysis) (limit_l1 limit_l2c : Z) :
  exists s1 s2 : list pystr * gset pystr,
    _collect_matches_by_code fos st personal res limit_l1 limit_l2c
    = (slice_to (fst s1) limit_l1, slice_to (fst s2) limit_l2c)
    /\ collected (upper (a_norm res)) s1 /\ collected (upper (a_norm res)) s2
    /\ (forall ws, INDEX_READY st = true -> INDEX_L1 st !! a_l1 res = Some ws ->
          (Z.of_nat (length ws) <= limit_l1 ->
           forall w, w ∈ ws -> w <> upper (a_norm res) -> w ∈ slice_to (fst s1) limit_l1)
          /\ (personal = None -> forall w, w ∈ fst s1 -> w ∈ ws))
    /\ (forall ws, INDEX_READY st = true -> INDEX_L2C st !! a_l2c res = Some ws ->
          (Z.of_nat (length ws) <= limit_l2c ->
           forall w, w ∈ ws -> w <> upper (a_norm res) -> w ∈ slice_to (fst s2) limit_l2c)
          /\ (personal = None -> forall w, w ∈ fst s2 -> w ∈ ws)).
Proof.
  set (current := upper (a_norm res)).
  pose proof (collected_empty current) as H0.
  set (i1 := if INDEX_READY st then
               match INDEX_L1 st !! a_l1 res with
               | Some ws => collect_index ws current limit_l1 [] ∅
               | None => ([], ∅)
               end
             else ([], ∅)).
  set (i2 := if INDEX_READY st then
               match INDEX_L2C st !! a_l2c res with
               | Some ws => collect_index ws current limit_l2c [] ∅
               | None => ([], ∅)
               end
             else ([], ∅)).
  assert (C1 : collected current i1).
  { subst i1. destruct (INDEX_READY st); [|exact H0].
    destruct (INDEX_L1 st !! a_l1 res) as [ws|]; [|exact H0].
    apply (collect_index_spec current limit_l1 ws [] ∅ H0). }
  assert (C2 : collected current i2).
  { subst i2. destruct (INDEX_READY st); [|exact H0].
    destruct (INDEX_L2C st !! a_l2c res) as [ws|]; [|exact H0].
    apply (collect_index_spec current limit_l2c ws [] ∅ H0). }
  set (acc := match personal with
              | Some rows =>
                fold_left (collect_personal fos (a_l1 res) (a_l2c res) current) rows (i1, i2)
              | None => (i1, i2)
              end).
  assert (HA : collected current (fst acc) /\ collected current (snd acc)
               /\ (exists e, fst (fst acc) = fst i1 ++ e)
               /\ (exists e, fst (snd acc) = fst i2 ++ e)
               /\ (personal = None -> acc = (i1, i2))).
  { subst acc. destruct personal as [rows|].
    - destruct (fold_personal_spec fos (a_l1 res) (a_l2c res) current rows (i1, i2) C1 C2)
        as (A & B & C & D).
      split; [exact A|]. split; [exact B|]. split; [exact C|]. split; [exact D|].
      intros F. discriminate F.
    - cbn [fst snd]. split; [exact C1|]. split; [exact C2|].
      split; [exists []; rewrite app_nil_r; reflexivity|].
      split; [exists []; rewrite app_nil_r; reflexivity|reflexivity]. }
  destruct HA as (A1 & A2 & (e1 & A3) & (e2 & A4) & A5).
  exists (fst acc), (snd acc).
  split; [reflexivity|]. split; [exact A1|]. split; [exact A2|].
  split.
  - intros ws Hr Hl.
    destruct (collect_index_spec current limit_l1 ws [] ∅ H0) as (_ & (extra & I2 & I3) & I4).
    assert (Ei : i1 = collect_index ws current limit_l1 [] ∅)
      by (subst i1; rewrite Hr, Hl; reflexivity).
    split.
    + intros Hlim w Hw Hne.
      assert (Hin : w ∈ fst i1) by (rewrite Ei; apply I4; [cbn [length]; lia|exact Hw|exact Hne]).
      assert (Hlen : Z.of_nat (length (fst i1)) <= limit_l1).
      { rewrite Ei, I2. cbn [app].
        assert (length extra <= length ws)%nat; [|lia].
        apply submseteq_length, NoDup_submseteq; [|exact I3].
        destruct C1 as (Hnd & _). rewrite Ei, I2 in Hnd. exact Hnd. }
      rewrite A3. destruct (slice_to_keeps (fst i1) e1 limit_l1 Hlen) as [e' ->].
      apply elem_of_app. left. exact Hin.
    + intros Hp w Hw. rewrite (A5 Hp) in Hw. cbn [fst] in Hw.
      rewrite Ei, I2 in Hw. apply I3, Hw.
  - intros ws Hr Hl.
    destruct (collect_index_spec current limit_l2c ws [] ∅ H0) as (_ & (extra & I2 & I3) & I4).
    assert (Ei : i2 = collect_index ws current limit_l2c [] ∅)
      by (subst i2; rewrite Hr, Hl; reflexivity).
    split.
    + intros Hlim w Hw Hne.
      assert (Hin : w ∈ fst i2) by (rewrite Ei; apply I4; [cbn [length]; lia|exact Hw|exact Hne]).
      assert (Hlen : Z.of_nat (length (fst i2)) <= limit_l2c).
      { rewrite Ei, I2. cbn [app].
        assert (length extra <= length ws)%nat; [|lia].
        apply submseteq_length, NoDup_submseteq; [|exact I3].
        destruct C2 as (Hnd & _). rewrite Ei, I2 in Hnd. exact Hnd. }
      rewrite A4. destruct (slice_to_keeps (fst i2) e2 limit_l2c Hlen) as [e' ->].
      apply elem_of_app. left. exact Hin.
    + intros Hp w Hw. rewrite (A5 Hp) in Hw. cbn [snd fst] in Hw.
      rewrite Ei, I2 in Hw. apply I3, Hw.
Qed.

(** X21.  The two lists of [_collect_matches_by_code] never hold the
    current word and never hold a word twice, and for a limit that is not
    negative they are no longer than the limit.  After
    [rebuild_indexes(df)], with a limit of at least the number of rows,
    the first list holds the uppercased word of every row of [df] whose
    [l1] cell converts to the [l1] of the analysis, the current word
    apart; and when there is no personal file, every word of the list is
    the word of such a row.  The same holds for the second list and
    [l2c]. *)
Theorem collect_matches_round_trip (float_of_str : pystr -> result pyfloat)
    (st : IndexState) (personal : option (list PersonalRow)) (res : Analysis)
    (limit_l1 limit_l2c : Z) :
  NoDup (fst (_collect_matches_by_code float_of_str st personal res limit_l1 limit_l2c))
  /\ NoDup (snd (_collect_matches_by_code float_of_str st personal res limit_l1 limit_l2c))
  /\ (upper (a_norm res)
      ∉ fst (_collect_matches_by_code float_of_str st personal res limit_l1 limit_l2c))
  /\ (upper (a_norm res)
      ∉ snd (_collect_matches_by_code float_of_str st personal res limit_l1 limit_l2c))
  /\ (0 <= limit_l1 ->
      Z.of_nat (length (fst (_collect_matches_by_code float_of_str st personal res
                               limit_l1 limit_l2c))) <= limit_l1)
  /\ (0 <= limit_l2c ->
      Z.of_nat (length (snd (_collect_matches_by_code float_of_str st personal res
                               limit_l1 limit_l2c))) <= limit_l2c)
  /\ (forall df r,
        st = rebuild_indexes float_of_str df -> r ∈ df ->
        Z.of_nat (length df) <= limit_l1 ->
        upper (word_text (col_word r)) <> [] ->
        upper (word_text (col_word r)) <> upper (a_norm res) ->
        is_missing (col_l1 r) = false ->
        int_float float_of_str (col_l1 r) = Ok (a_l1 res) ->
        upper (word_text (col_word r))
        ∈ fst (_collect_matches_by_code float_of_str st personal res limit_l1 limit_l2c))
  /\ (forall df r,
        st = rebuild_indexes float_of_str df -> r ∈ df ->
        Z.of_nat (length df) <= limit_l2c ->
        upper (word_text (col_word r)) <> [] ->
        upper (word_text (col_word r)) <> upper (a_norm res) ->
        is_missing (col_l2c r) = false ->
        int_float float_of_str (col_l2c r) = Ok (a_l2c res) ->
        upper (word_text (col_word r))
        ∈ snd (_collect_matches_by_code float_of_str st personal res limit_l1 limit_l2c))
  /\ (forall df w,
        st = rebuild_indexes float_of_str df -> personal = None ->
        w ∈ fst (_collect_matches_by_code float_of_str st personal res limit_l1 limit_l2c) ->
        exists r, r ∈ df /\ upper (word_text (col_word r)) = w
                  /\ int_float float_of_str (col_l1 r) = Ok (a_l1 res))
  /\ (forall df w,
        st = rebuild_indexes float_of_str df -> personal = None ->
        w ∈ snd (_collect_matches_by_code float_of_str st personal res limit_l1 limit_l2c) ->
        exists r, r ∈ df /\ upper (word_text (col_word r)) = w
                  /\ int_float float_of_str (col_l2c r) = Ok (a_l2c res)).
Proof.
  destruct (collect_matches_state float_of_str st personal res limit_l1 limit_l2c)
    as (s1 & s2 & E & C1 & C2 & R1 & R2).
  rewrite E. cbn [fst snd].
  destruct (slice_to_collected _ s1 limit_l1 C1) as [N1 U1].
  destruct (slice_to_collected _ s2 limit_l2c C2) as [N2 U2].
  assert (Hready : forall df r, st = rebuild_indexes float_of_str df -> r ∈ df ->
                                INDEX_READY st = true).
  { intros df r -> Hr. unfold rebuild_indexes. destruct df; [|reflexivity].
    apply elem_of_nil in Hr. contradiction. }
  assert (Hempty : forall w : pystr, w ∈ slice_to ([] : list pystr) limit_l1 -> False).
  { intros w. unfold slice_to. destruct (0 <=? limit_l1); rewrite firstn_nil;
      apply not_elem_of_nil. }
  split; [exact N1|]. split; [exact N2|]. split; [exact U1|]. split; [exact U2|].
  split; [apply slice_to_length|]. split; [apply slice_to_length|].
  split; [|split; [|split]].
  - intros df r Est Hr Hlim Hw Hne Hm Hc.
    pose proof (Hready df r Est Hr) as Hrd.
    destruct (rebuild_indexes_sound float_of_str df) as [S1 _].
    destruct (fold_index_member float_of_str df r Hr Hw
                {| INDEX_L1 := ∅; INDEX_L2C := ∅; INDEX_READY := false |}) as [M1 _].
    destruct (M1 _ Hm Hc) as (ws & Hl & Hin).
    assert (Hl' : INDEX_L1 st !! a_l1 res = Some ws).
    { rewrite Est. unfold rebuild_indexes. destruct df as [|r0 df0];
        [apply elem_of_nil in Hr; contradiction|exact Hl]. }
    destruct (R1 ws Hrd Hl') as [Rc _]. apply Rc; [|exact Hin|exact Hne].
    rewrite Est in Hl'. pose proof (index_entry_length _ _ _ _ _ _ S1 Hl'). lia.
  - intros df r Est Hr Hlim Hw Hne Hm Hc.
    pose proof (Hready df r Est Hr) as Hrd.
    destruct (rebuild_indexes_sound float_of_str df) as [_ S2].
    destruct (fold_index_member float_of_str df r Hr Hw
                {| INDEX_L1 := ∅; INDEX_L2C := ∅; INDEX_READY := false |}) as [_ M2].
    destruct (M2 _ Hm Hc) as (ws & Hl & Hin).
    assert (Hl' : INDEX_L2C st !! a_l2c res = Some ws).
    { rewrite Est. unfold rebuild_indexes. destruct df as [|r0 df0];
        [apply elem_of_nil in Hr; contradiction|exact Hl]. }
    destruct (R2 ws Hrd Hl') as [Rc _]. apply Rc; [|exact Hin|exact Hne].
    rewrite Est in Hl'. pose proof (index_entry_length _ _ _ _ _ _ S2 Hl'). lia.
  - intros df w Est Hp Hw.
    destruct (slice_to_prefix (fst s1) limit_l1) as [rest Ep].
    assert (Hw1 : w ∈ fst s1) by (rewrite Ep; apply elem_of_app; left; exact Hw).
    destruct (rebuild_indexes_sound float_of_str df) as [S1 _].
    destruct (INDEX_READY st) eqn:Hrd; [destruct (INDEX_L1 st !! a_l1 res) as [ws|] eqn:Hl|].
    + destruct (R1 ws eq_refl eq_refl) as [_ Rs]. pose proof (Rs Hp w Hw1) as Hin.
      rewrite Est in Hl. destruct (S1 _ _ Hl) as (_ & _ & Hrows).
      destruct (Hrows w Hin) as (r & Hr & Ew & _ & _ & Hc).
      exists r. split; [exact Hr|]. split; [exact Ew|exact Hc].
    + exfalso. clear R1 R2.
      unfold _collect_matches_by_code in E. rewrite Hrd, Hl, Hp in E. cbn [fst snd] in E.
      injection E as E1 _. rewrite <- E1 in Hw. exact (Hempty w Hw).
    + exfalso. clear R1 R2.
      unfold _collect_matches_by_code in E. rewrite Hrd, Hp in E. cbn [fst snd] in E.
      injection E as E1 _. rewrite <- E1 in Hw. exact (Hempty w Hw).
  - intros df w Est Hp Hw.
    destruct (slice_to_prefix (fst s2) limit_l2c) as [rest Ep].
    assert (Hw1 : w ∈ fst s2) by (rewrite Ep; apply elem_of_app; left; exact Hw).
    destruct (rebuild_indexes_sound float_of_str df) as [_ S2].
    assert (Hempty2 : forall w : pystr, w ∈ slice_to ([] : list pystr) limit_l2c -> False).
    { intros x. unfold slice_to. destruct (0 <=? limit_l2c); rewrite firstn_nil;
        apply not_elem_of_nil. }
    destruct (INDEX_READY st) eqn:Hrd; [destruct (INDEX_L2C st !! a_l2c res) as [ws|] eqn:Hl|].
    + destruct (R2 ws eq_refl eq_refl) as [_ Rs]. pose proof (Rs Hp w Hw1) as Hin.
      rewrite Est in Hl. destruct (S2 _ _ Hl) as (_ & _ & Hrows).
      destruct (Hrows w Hin) as (r & Hr & Ew & _ & _ & Hc).
      exists r. split; [exact Hr|]. split; [exact Ew|exact Hc].
    + exfalso. clear R1 R2.
      unfold _collect_matches_by_code in E. rewrite Hrd, Hl, Hp in E. cbn [fst snd] in E.
      injection E as _ E2. rewrite <- E2 in Hw. exact (Hempty2 w Hw).
    + exfalso. clear R1 R2.
      unfold _collect_matches_by_code in E. rewrite Hrd, Hp in E. cbn [fst snd] in E.
      injection E as _ E2. rewrite <- E2 in Hw. exact (Hempty2 w Hw).
Qed.

(* ================================================================== *)
(** * The rows of [add_words_to_library] *)

Lemma word_items_letters (raw_text : pystr) :
  Forall (fun w => w <> [] /\ Forall (fun c => is_kryon_letter c = true) w
                   /\ normalize w = w)
         (word_items raw_text).
Proof.
  unfold word_items. generalize (split_runs is_word_separator raw_text [] false).
  intros l. induction l as [|x l IH]; [constructor|].
  cbn [omap list_omap]. destruct (normalize x) as [|c w] eqn:E; [exact IH|].
  constructor; [|exact IH].
  split; [discriminate|]. rewrite <- E.
  split; [apply normalize_letters|apply normalize_idem].
Qed.

Lemma word_rows_spec (cfg : Config) (sphere_name : pystr) (items : list pystr) :
  sigma_nonzero cfg ->
  Forall (fun w => w <> [] /\ Forall (fun c => is_kryon_letter c = true) w
                   /\ normalize w = w) items ->
  forall rows0,
    exists rows,
      word_rows cfg sphere_name items rows0 = Ok (rows0 ++ rows)
      /\ Forall2 (fun w row =>
                    col_word row = Some w
                    /\ col_sphere row = Some sphere_name
                    /\ col_tone row = Some (U "neutral")
                    /\ derived_fields cfg w = Ok (row_derived row))
                 items rows.
Proof.
  intros Hs Hit. induction Hit as [|w items (Hne & Hl & _) _ IH]; intros rows0.
  - exists []. split; [cbn [word_rows]; rewrite app_nil_r; reflexivity|constructor].
  - destruct (force_recalc_row_spec cfg w sphere_name (U "neutral") (VBool true)
                (Some []) None None Hs Hne Hl) as (row & Er & Ew & Ed).
    assert (Hst : col_sphere row = Some sphere_name /\ col_tone row = Some (U "neutral")).
    { unfold force_recalc_row in Er.
      destruct (calc_l2c_from_l1 _) as [[[[[l2c|] ?] ?] []]|e]; cbn [rbind] in Er;
        try discriminate Er;
        try (injection Er as <-; split; reflexivity);
        destruct (metrics _ _ _) as [[[[? ?] ?] ?]|e']; cbn [rbind] in Er;
        try discriminate Er; injection Er as <-; split; reflexivity. }
    destruct (IH (rows0 ++ [row])) as (rows & E & Hf).
    exists (row :: rows). cbn [word_rows]. rewrite Er. cbn [rbind]. rewrite E.
    split; [rewrite <- app_assoc; reflexivity|].
    constructor; [|exact Hf]. destruct Hst as [A B].
    split; [exact Ew|]. split; [exact A|]. split; [exact B|exact Ed].
Qed.

(** X22.  The rows that [add_words_to_library] builds never run into the
    [ZeroDivisionError] of [force_recalc_row]: under a non-zero [sigma_Z]
    the loop returns one row for each piece of the text that has a letter
    of the alphabet, in order; the word of the row is the normalized
    piece, not empty and made of letters only, its sphere is the resolved
    sphere, its tone is [neutral], and its derived cells are those of the
    pipeline on this word. *)
Theorem add_words_rows_total (cfg : Config) (raw_text : pystr)
    (sphere_choice : option pystr) (create_new : bool) (new_sphere : option pystr) :
  sigma_nonzero cfg ->
  exists rows,
    add_words_rows cfg raw_text sphere_choice create_new new_sphere = Ok rows
    /\ Forall2 (fun w row =>
                  w <> [] /\ normalize w = w
                  /\ col_word row = Some w
                  /\ col_sphere row = Some (resolve_sphere sphere_choice create_new new_sphere)
                  /\ col_tone row = Some (U "neutral")
                  /\ derived_fields cfg w = Ok (row_derived row))
               (word_items raw_text) rows
    /\ (forall x, x ∈ split_runs is_word_separator raw_text [] false ->
                  normalize x <> [] -> normalize x ∈ word_items raw_text).
Proof.
  intros Hs. pose proof (word_items_letters raw_text) as Hit.
  destruct (word_rows_spec cfg (resolve_sphere sphere_choice create_new new_sphere)
              (word_items raw_text) Hs Hit []) as (rows & E & Hf).
  exists rows. split; [exact E|]. split.
  - clear E. induction Hf as [|w row items rows (A & B & C & D) Hf IH]; [constructor|].
    inversion Hit as [|? ? (H1 & _ & H3) Hit']; subst.
    constructor; [|apply IH, Hit'].
    repeat (split; [assumption|]). exact D.
  - intros x Hx Hn. unfold word_items. apply list_elem_of_omap.
    exists x. split; [exact Hx|]. destruct (normalize x); [congruence|reflexivity].
Qed.

Lemma add_words_rows_total_witness :
  exists rows,
    add_words_rows DEFAULT_CONFIG (U "мир, 12; дом") None false None = Ok rows
    /\ Forall2 (fun w row => col_word row = Some w) [U "МИР"; U "ДОМ"] rows.
Proof.
  destruct (add_words_rows_total DEFAULT_CONFIG (U "мир, 12; дом") None false None
              default_sigma_nonzero) as (rows & E & Hf & _).
  exists rows. split; [exact E|].
  change (word_items (U "мир, 12; дом")) with [U "МИР"; U "ДОМ"] in Hf.
  eapply Forall2_impl; [exact Hf|]. intros w row H. apply H.
Defined.

(* ================================================================== *)
(** * The analysis reads the letters only *)

Lemma analyze_word_report_analysis (pdp : pystr -> option pystr) (cfg : Config)
    (raw : pystr) :
  match analyze_word_report pdp cfg raw, analyze_word pdp cfg raw with
  | Ok None, Ok None => True
  | Ok (Some (a, _)), Ok (Some a') => a' = a
  | Raise e, Raise e' => e = e'
  | _, _ => False
  end.
Proof.
  unfold analyze_word_report, analyze_word.
  destruct (calc_l1_from_string (phrase_used pdp raw)) as [norm l1].
  cbv beta iota zeta.
  destruct (l1 =? 0); [cbv beta iota; exact I|].
  destruct (calc_l2c_from_l1 l1) as [[[[o ws] gl] b]|e]; cbn [rbind];
    [|cbv beta iota; reflexivity].
  cbv beta iota zeta.
  destruct o as [l2c|]; [|cbv beta iota; exact I].
  destruct b; [cbv beta iota; exact I|].
  destruct (metrics cfg l1 l2c) as [[[[wv C] Hm] Zv]|e]; cbn [rbind];
    [|cbv beta iota; reflexivity].
  cbv beta iota zeta.
  destruct (cluster_by_w wv) as [code ru]. cbv beta iota zeta.
  destruct (dict_getitem CLUSTER_ADVICES code) as [[name adv]|e]; cbn [rbind];
    [|cbv beta iota; reflexivity].
  cbv beta iota zeta.
  destruct (resonance_pair_total wv (resonator_threshold cfg)) as ([[[pc pe] pr] rv] & ->).
  cbn [rbind]. cbv beta iota zeta.
  destruct (fractal_unfold cfg l1) as [fr|e]; cbn [rbind]; [|cbv beta iota; reflexivity].
  destruct (fii_bar (fii_of Zv C (Q2R Hm))) as [fb fc]. cbv beta iota zeta.
  reflexivity.
Qed.

(** X23.  [analyze_word] depends on its input through the normalized text
    alone: two inputs whose texts have the same letters of the alphabet
    (whatever the case, the spaces, the digits and the punctuation) either
    both give the empty result, or give reports that agree on every one of
    the 35 keys but [raw] and [phrase_used], or raise the same exception.
    The 22 keys held by [Analysis] are those of [analyze_word] above. *)
Theorem analyze_word_letters_only (pdp : pystr -> option pystr) (cfg : Config)
    (raw raw' : pystr) :
  normalize (phrase_used pdp raw) = normalize (phrase_used pdp raw') ->
  match analyze_word_report pdp cfg raw, analyze_word_report pdp cfg raw' with
  | Ok None, Ok None => True
  | Ok (Some (a, ra)), Ok (Some (b, rb)) =>
    b = {| a_raw := raw'; a_phrase_used := phrase_used pdp raw';
           a_norm := a_norm a; a_l1 := a_l1 a; a_l2c := a_l2c a; a_w := a_w a;
           a_C := a_C a; a_Hm := a_Hm a; a_Z := a_Z a; a_q_total := a_q_total a;
           a_fii := a_fii a; a_cluster_code := a_cluster_code a;
           a_cluster_ru := a_cluster_ru a; a_cluster_name := a_cluster_name a;
           a_cluster_advice := a_cluster_advice a; a_fractal := a_fractal a;
           a_fii_bar := a_fii_bar a; a_fii_category := a_fii_category a |}
    /\ rb = ra
    /\ a_norm a = normalize (phrase_used pdp raw)
    /\ analyze_word pdp cfg raw = Ok (Some a)
    /\ analyze_word pdp cfg raw' = Ok (Some b)
  | Raise e, Raise e' => e = e'
  | _, _ => False
  end.
Proof.
  intros H.
  pose proof (analyze_word_report_analysis pdp cfg raw) as P1.
  pose proof (analyze_word_report_analysis pdp cfg raw') as P2.
  destruct (analyze_word pdp cfg raw) as [oa|ea];
    destruct (analyze_word pdp cfg raw') as [ob|eb].
  all: revert P1 P2.
  all: unfold analyze_word_report, calc_l1_from_string; rewrite <- H.
  all: destruct (normalize (phrase_used pdp raw)) as [|c w] eqn:En;
    [cbv beta iota zeta; change (0 =? 0) with true; cbv iota; intros; exact I|].
  all: cbv beta iota zeta.
  all: generalize (kryon_sum (c :: w)); intros l1.
  all: destruct (l1 =? 0); [cbv beta iota; intros; exact I|].
  all: (destruct (calc_l2c_from_l1 l1) as [[[[o ws] gl] b]|e]; cbn [rbind];
        [|cbv beta iota; intros; reflexivity]).
  all: cbv beta iota zeta.
  all: (destruct o as [l2c|]; [|cbv beta iota; intros; exact I]).
  all: (destruct b; [cbv beta iota; intros; exact I|]).
  all: (destruct (metrics cfg l1 l2c) as [[[[wv C] Hm] Zv]|e]; cbn [rbind];
        [|cbv beta iota; intros; reflexivity]).
  all: cbv beta iota zeta.
  all: destruct (cluster_by_w wv) as [code ru]; cbv beta iota zeta.
  all: (destruct (dict_getitem CLUSTER_ADVICES code) as [[name adv]|e]; cbn [rbind];
        [|cbv beta iota; intros; reflexivity]).
  all: cbv beta iota zeta.
  all: (destruct (resonance_pair wv (resonator_threshold cfg)) as [[[[pc pe] pr] rv]|e];
        cbn [rbind]; [|cbv beta iota; intros; reflexivity]).
  all: cbv beta iota zeta.
  all: (destruct (fractal_unfold cfg l1) as [fr|e]; cbn [rbind];
        [|cbv beta iota; intros; reflexivity]).
  all: destruct (fii_bar (fii_of Zv C (Q2R Hm))) as [fb fc]; cbv beta iota zeta.
  all: try (intros P1 P2; destruct oa as [a'|]; [|contradiction];
            destruct ob as [b'|]; [|contradiction]; subst a' b';
            cbn [a_norm a_l1 a_l2c a_w a_C a_Hm a_Z a_q_total a_fii a_cluster_code
                 a_cluster_ru a_cluster_name a_cluster_advice a_fractal a_fii_bar
                 a_fii_category];
            repeat (split; [reflexivity|]); reflexivity).
  all: intros P1 P2; try contradiction.
  all: try (destruct oa; contradiction).
  all: try (destruct ob; contradiction).
Qed.

Lemma analyze_word_letters_only_witness :
  match analyze_word_report (fun _ => None) DEFAULT_CONFIG (U "мир"),
        analyze_word_report (fun _ => None) DEFAULT_CONFIG (U "М-и-Р 2024!") with
  | Ok None, Ok None => True
  | Ok (Some (a, ra)), Ok (Some (b, rb)) =>
    b = {| a_raw := U "М-и-Р 2024!";
           a_phrase_used := phrase_used (fun _ => None) (U "М-и-Р 2024!");
           a_norm := a_norm a; a_l1 := a_l1 a; a_l2c := a_l2c a; a_w := a_w a;
           a_C := a_C a; a_Hm := a_Hm a; a_Z := a_Z a; a_q_total := a_q_total a;
           a_fii := a_fii a; a_cluster_code := a_cluster_code a;
           a_cluster_ru := a_cluster_ru a; a_cluster_name := a_cluster_name a;
           a_cluster_advice := a_cluster_advice a; a_fractal := a_fractal a;
           a_fii_bar := a_fii_bar a; a_fii_category := a_fii_category a |}
    /\ rb = ra
    /\ a_norm a = normalize (phrase_used (fun _ => None) (U "мир"))
    /\ analyze_word (fun _ => None) DEFAULT_CONFIG (U "мир") = Ok (Some a)
    /\ analyze_word (fun _ => None) DEFAULT_CONFIG (U "М-и-Р 2024!") = Ok (Some b)
  | Raise e, Raise e' => e = e'
  | _, _ => False
  end.
Proof.
  apply (analyze_word_letters_only (fun _ => None) DEFAULT_CONFIG (U "мир")
           (U "М-и-Р 2024!")).
  vm_compute. reflexivity.
Defined.

(* ================================================================== *)
(** * Slugs *)

Lemma sub_runs_spec (t : pystr) :
  forall in_run : bool,
    Forall (fun c => is_ascii_alnum c = true \/ c = 0x2D%N) (sub_runs t in_run)
    /\ no_double_hyphen (sub_runs t in_run) = true
    /\ (in_run = true -> hd 0%N (sub_runs t in_run) <> 0x2D%N).
Proof.
  induction t as [|c r IH]; intros in_run.
  - cbn [sub_runs hd no_double_hyphen]. split; [constructor|]. split; [reflexivity|].
    intros _ F. discriminate F.
  - cbn [sub_runs]. destruct (is_ascii_alnum c) eqn:Ea.
    + destruct (IH false) as (I1 & I2 & _).
      assert (Hc : c <> 0x2D%N) by (intros ->; vm_compute in Ea; discriminate Ea).
      split; [constructor; [left; exact Ea|exact I1]|]. split.
      * cbn [no_double_hyphen]. destruct (sub_runs r false) as [|b l]; [reflexivity|].
        rewrite I2, andb_true_r. apply negb_true_iff, andb_false_iff. left.
        apply N.eqb_neq, Hc.
      * intros _. exact Hc.
    + destruct (IH true) as (I1 & I2 & I3). destruct in_run.
      * split; [exact I1|]. split; [exact I2|]. intros _. apply I3. reflexivity.
      * split; [constructor; [right; reflexivity|exact I1]|]. split.
        { cbn [no_double_hyphen]. specialize (I3 eq_refl).
          destruct (sub_runs r true) as [|b l]; [reflexivity|].
          rewrite I2, andb_true_r. apply negb_true_iff, andb_false_iff. right.
          apply N.eqb_neq. exact I3. }
        intros F. discriminate F.
Qed.

Lemma lstrip_hyphens_head (s : pystr) : hd 0%N (lstrip_hyphens s) <> 0x2D%N.
Proof.
  induction s as [|c r IH]; [intros F; discriminate F|]. cbn [lstrip_hyphens].
  destruct (c =? 0x2D)%N eqn:E; [exact IH|]. cbn [hd]. apply N.eqb_neq, E.
Qed.

Lemma lstrip_hyphens_fixed (s : pystr) : hd 0%N s <> 0x2D%N -> lstrip_hyphens s = s.
Proof.
  destruct s as [|c r]; [reflexivity|]. cbn [hd lstrip_hyphens]. intros H.
  apply N.eqb_neq in H. rewrite H. reflexivity.
Qed.

Lemma lstrip_hyphens_suffix (s : pystr) : exists p, s = p ++ lstrip_hyphens s.
Proof.
  induction s as [|c r [p IH]]; [exists []; reflexivity|]. cbn [lstrip_hyphens].
  destruct (c =? 0x2D)%N; [exists (c :: p); cbn [app]; congruence|exists []; reflexivity].
Qed.

Lemma last_rev_hd (l : pystr) (d : N) : List.last (rev l) d = hd d l.
Proof.
  destruct l as [|a l]; [reflexivity|]. cbn [rev hd]. apply last_last.
Qed.

Lemma hd_rev_last (l : pystr) (d : N) : hd d (rev l) = List.last l d.
Proof. rewrite <- (rev_involutive l) at 2. symmetry. apply last_rev_hd. Qed.

Lemma strip_hyphens_spec (s : pystr) :
  (exists a b, s = a ++ strip_hyphens s ++ b)
  /\ hd 0%N (strip_hyphens s) <> 0x2D%N
  /\ List.last (strip_hyphens s) 0%N <> 0x2D%N.
Proof.
  unfold strip_hyphens.
  destruct (lstrip_hyphens_suffix s) as [p1 E1].
  destruct (lstrip_hyphens_suffix (rev (lstrip_hyphens s))) as [p2 E2].
  pose proof (lstrip_hyphens_head s) as H1.
  pose proof (lstrip_hyphens_head (rev (lstrip_hyphens s))) as H2.
  set (a := lstrip_hyphens s) in *. set (b := lstrip_hyphens (rev a)) in *.
  assert (Ea : a = rev b ++ rev p2).
  { rewrite <- (rev_involutive a), E2, rev_app_distr. reflexivity. }
  split; [exists p1, (rev p2); rewrite <- Ea; exact E1|].
  split; [|rewrite last_rev_hd; exact H2].
  destruct (rev b) as [|c r] eqn:Er; [intros F; discriminate F|].
  rewrite Ea in H1. exact H1.
Qed.

Lemma strip_hyphens_fixed (s : pystr) :
  hd 0%N s <> 0x2D%N -> List.last s 0%N <> 0x2D%N -> strip_hyphens s = s.
Proof.
  intros H1 H2. unfold strip_hyphens. rewrite (lstrip_hyphens_fixed s H1).
  rewrite lstrip_hyphens_fixed by (rewrite hd_rev_last; exact H2).
  apply rev_involutive.
Qed.

Lemma no_double_hyphen_tail (a b : pystr) :
  no_double_hyphen (a ++ b) = true -> no_double_hyphen b = true.
Proof.
  induction a as [|x a IH]; [intros H; exact H|].
  cbn [app no_double_hyphen]. destruct (a ++ b) as [|y l] eqn:E.
  - intros _. apply IH. reflexivity.
  - intros H. apply andb_true_iff in H as [_ H]. apply IH, H.
Qed.

Lemma no_double_hyphen_front (a b : pystr) :
  no_double_hyphen (a ++ b) = true -> no_double_hyphen a = true.
Proof.
  induction a as [|x a IH]; [reflexivity|].
  cbn [app]. destruct a as [|y a].
  - intros _. reflexivity.
  - cbn [app no_double_hyphen] in *. intros H. apply andb_true_iff in H as [H1 H2].
    rewrite H1. apply IH, H2.
Qed.

Lemma lower_cp_hyphen (c : N) : (lower_cp c =? 0x2D)%N = (c =? 0x2D)%N.
Proof.
  unfold lower_cp.
  destruct ((0x41 <=? c) && (c <=? 0x5A))%N eqn:E1.
  { apply andb_true_iff in E1 as [A B]. apply N.leb_le in A, B.
    transitivity false; [|symmetry]; apply N.eqb_neq; lia. }
  destruct ((0x410 <=? c) && (c <=? 0x42F))%N eqn:E2.
  { apply andb_true_iff in E2 as [A B]. apply N.leb_le in A, B.
    transitivity false; [|symmetry]; apply N.eqb_neq; lia. }
  destruct ((0x400 <=? c) && (c <=? 0x40F))%N eqn:E3; [|reflexivity].
  apply andb_true_iff in E3 as [A B]. apply N.leb_le in A, B.
  transitivity false; [|symmetry]; apply N.eqb_neq; lia.
Qed.

Lemma no_double_hyphen_cons (a b : N) (r : pystr) :
  no_double_hyphen (a :: b :: r)
  = negb ((a =? 0x2D) && (b =? 0x2D))%N && no_double_hyphen (b :: r).
Proof. reflexivity. Qed.

Lemma lower_no_double (s : pystr) : no_double_hyphen (lower s) = no_double_hyphen s.
Proof.
  unfold lower. induction s as [|a [|b r] IH]; [reflexivity|reflexivity|].
  change (map lower_cp (a :: b :: r)) with (lower_cp a :: lower_cp b :: map lower_cp r).
  rewrite !no_double_hyphen_cons, !lower_cp_hyphen. f_equal.
  rewrite <- IH. change (map lower_cp (b :: r)) with (lower_cp b :: map lower_cp r).
  reflexivity.
Qed.

Lemma lower_hd (s : pystr) : hd 0%N s <> 0x2D%N -> hd 0%N (lower s) <> 0x2D%N.
Proof.
  destruct s as [|c r]; [intros _ F; discriminate F|]. cbn [lower map hd].
  intros H. apply N.eqb_neq. rewrite lower_cp_hyphen. apply N.eqb_neq, H.
Qed.

Lemma lower_last (s : pystr) : List.last s 0%N <> 0x2D%N -> List.last (lower s) 0%N <> 0x2D%N.
Proof.
  intros H. rewrite <- hd_rev_last in *. unfold lower in *. rewrite <- map_rev.
  apply (lower_hd (rev s)), H.
Qed.

Lemma lower_slug_char (c : N) :
  is_ascii_alnum c = true \/ c = 0x2D%N -> is_slug_char (lower_cp c) = true.
Proof.
  intros [H| ->]; [|reflexivity]. unfold is_ascii_alnum in H. unfold lower_cp, is_slug_char.
  apply orb_true_iff in H as [H|H]; [apply orb_true_iff in H as [H|H]|];
    apply andb_true_iff in H as [A B]; apply N.leb_le in A, B.
  - replace ((0x41 <=? c) && (c <=? 0x5A))%N with true
      by (symmetry; apply andb_true_iff; split; apply N.leb_le; lia).
    apply orb_true_iff. left. apply orb_true_iff. left.
    apply andb_true_iff. split; apply N.leb_le; lia.
  - replace ((0x41 <=? c) && (c <=? 0x5A))%N with false
      by (symmetry; apply andb_false_iff; right; apply N.leb_gt; lia).
    replace ((0x410 <=? c) && (c <=? 0x42F))%N with false
      by (symmetry; apply andb_false_iff; left; apply N.leb_gt; lia).
    replace ((0x400 <=? c) && (c <=? 0x40F))%N with false
      by (symmetry; apply andb_false_iff; left; apply N.leb_gt; lia).
    apply orb_true_iff. left. apply orb_true_iff. left.
    apply andb_true_iff. split; apply N.leb_le; lia.
  - replace ((0x41 <=? c) && (c <=? 0x5A))%N with false
      by (symmetry; apply andb_false_iff; left; apply N.leb_gt; lia).
    replace ((0x410 <=? c) && (c <=? 0x42F))%N with false
      by (symmetry; apply andb_false_iff; left; apply N.leb_gt; lia).
    replace ((0x400 <=? c) && (c <=? 0x40F))%N with false
      by (symmetry; apply andb_false_iff; left; apply N.leb_gt; lia).
    apply orb_true_iff. left. apply orb_true_iff. right.
    apply andb_true_iff. split; apply N.leb_le; lia.
Qed.

Lemma slug_char_low (c : N) : is_slug_char c = true -> (c < 128)%N.
Proof.
  unfold is_slug_char. intros H.
  apply orb_true_iff in H as [H|H]; [apply orb_true_iff in H as [H|H]|].
  - apply andb_true_iff in H as [_ B]. apply N.leb_le in B. lia.
  - apply andb_true_iff in H as [_ B]. apply N.leb_le in B. lia.
  - apply N.eqb_eq in H. lia.
Qed.

(** On a slug character the three steps of [slugify] change nothing. *)
Lemma slug_char_fixed (c : N) :
  is_slug_char c = true ->
  default [c] (SLUG_MAP !! upper_cp c) = [c]
  /\ lower_cp c = c
  /\ (is_ascii_alnum c = true \/ c = 0x2D%N)
  /\ (is_ascii_alnum c = false -> c = 0x2D%N).
Proof.
  intros H. pose proof (slug_char_low c H) as Hl.
  set (P := fun k : nat =>
              let c := N.of_nat k in
              negb (is_slug_char c)
              || (bool_decide (default [c] (SLUG_MAP !! upper_cp c) = [c])
                  && (lower_cp c =? c)%N
                  && (is_ascii_alnum c || (c =? 0x2D)%N))).
  assert (Hall : forallb P (List.seq 0 128) = true) by (vm_compute; reflexivity).
  rewrite forallb_forall in Hall. specialize (Hall (N.to_nat c)).
  unfold P in Hall. cbv zeta in Hall. rewrite N2Nat.id, H in Hall. cbn [negb orb] in Hall.
  specialize (Hall ltac:(apply in_seq; lia)).
  apply andb_true_iff in Hall as [Hall H3]. apply andb_true_iff in Hall as [H1 H2].
  apply bool_decide_eq_true in H1. apply N.eqb_eq in H2.
  split; [exact H1|]. split; [exact H2|].
  apply orb_true_iff in H3. split.
  - destruct H3 as [A|A]; [left; exact A|right; apply N.eqb_eq, A].
  - intros F. destruct H3 as [A|A]; [congruence|apply N.eqb_eq, A].
Qed.

Lemma sub_runs_fixed (s : pystr) :
  forall in_run : bool,
    Forall (fun c => is_slug_char c = true) s ->
    no_double_hyphen s = true ->
    (in_run = true -> hd 0%N s <> 0x2D%N) ->
    sub_runs s in_run = s.
Proof.
  induction s as [|c r IH]; intros in_run Hf Hn Hh; [reflexivity|].
  inversion Hf as [|? ? Hc Hr]; subst.
  destruct (slug_char_fixed c Hc) as (_ & _ & _ & Hy).
  assert (Hn' : no_double_hyphen r = true).
  { destruct r as [|b l]; [reflexivity|]. cbn [no_double_hyphen] in Hn.
    apply andb_true_iff in Hn as [_ Hn]. exact Hn. }
  cbn [sub_runs]. destruct (is_ascii_alnum c) eqn:Ea.
  - f_equal. apply IH; [exact Hr|exact Hn'|intros F; discriminate F].
  - specialize (Hy eq_refl). subst c. destruct in_run.
    + exfalso. apply (Hh eq_refl). reflexivity.
    + f_equal. apply IH; [exact Hr|exact Hn'|]. intros _.
      destruct r as [|b l]; [intros F; discriminate F|].
      cbn [no_double_hyphen] in Hn. apply andb_true_iff in Hn as [Hn _].
      apply negb_true_iff, andb_false_iff in Hn as [Hn|Hn];
        [vm_compute in Hn; discriminate Hn|]. cbn [hd]. apply N.eqb_neq, Hn.
Qed.

Lemma slug_map_fixed (s : pystr) :
  Forall (fun c => is_slug_char c = true) s ->
  List.concat (map (fun c => default [c] (SLUG_MAP !! upper_cp c)) s) = s
  /\ lower s = s.
Proof.
  unfold lower. induction 1 as [|c r Hc Hr [IH1 IH2]]; [split; reflexivity|].
  destruct (slug_char_fixed c Hc) as (A & B & _).
  cbn [map List.concat]. rewrite A, B, IH1, IH2. split; reflexivity.
Qed.

(** X24.  [slugify] always returns a usable name: it is not empty, it is
    made of small Latin letters, digits and hyphens only, it neither
    starts nor ends with a hyphen and has no two hyphens in a row.  A
    string of this shape is its own slug, so [slugify] applied twice gives
    the same as applied once. *)
Theorem slugify_shape (title : pystr) :
  slug_shape (slugify title)
  /\ (forall s, slug_shape s -> slugify s = s)
  /\ slugify (slugify title) = slugify title.
Proof.
  assert (Hshape : forall t, slug_shape (slugify t)).
  { intros t. unfold slugify. cbv zeta.
    set (m := List.concat (map (fun c => default [c] (SLUG_MAP !! upper_cp c)) t)).
    destruct (sub_runs_spec m false) as (R1 & R2 & _).
    destruct (strip_hyphens_spec (sub_runs m false)) as ((a & b & E) & S1 & S2).
    set (u := strip_hyphens (sub_runs m false)) in *.
    assert (U1 : Forall (fun c => is_ascii_alnum c = true \/ c = 0x2D%N) u).
    { rewrite E in R1. apply Forall_app in R1 as [_ R1].
      apply Forall_app in R1 as [R1 _]. exact R1. }
    assert (U2 : no_double_hyphen u = true).
    { rewrite E in R2. apply no_double_hyphen_tail in R2.
      apply no_double_hyphen_front in R2. exact R2. }
    destruct (lower u) as [|c l] eqn:El.
    - split; [discriminate|]. split; [|split; [|split]]; vm_compute;
        try reflexivity; try discriminate.
      repeat constructor.
    - rewrite <- El. split; [rewrite El; discriminate|].
      split.
      { unfold lower. apply Forall_fmap. eapply Forall_impl; [exact U1|].
        intros x Hx. apply lower_slug_char, Hx. }
      split; [apply lower_hd, S1|]. split; [apply lower_last, S2|].
      rewrite lower_no_double. exact U2. }
  assert (Hfix : forall s, slug_shape s -> slugify s = s).
  { intros s (Hne & Hf & Hh & Hl & Hn). unfold slugify. cbv zeta.
    destruct (slug_map_fixed s Hf) as [E1 E2]. rewrite E1.
    rewrite (sub_runs_fixed s false Hf Hn ltac:(intros F; discriminate F)).
    rewrite (strip_hyphens_fixed s Hh Hl), E2.
    destruct s; [congruence|reflexivity]. }
  split; [apply Hshape|]. split; [exact Hfix|]. apply Hfix, Hshape.
Qed.
